(** * terraform-provider-binocs: the check and channel resources

    A shallow embedding of [internal/provider/resource_check.go] and
    [internal/provider/resource_channel.go], together with the functions of
    the Go standard library ([strings], [strconv], [net], [regexp],
    [net/url]) and of the Terraform plugin SDK ([helper/validation],
    [helper/schema]) that these two files call.

    Go strings are byte sequences: they are modelled as [string], a list of
    [ascii] bytes.  Go's [int] is taken at 64 bits and modelled as [Z]. *)

From Stdlib Require Import ZArith String Ascii List Bool Lia DecimalString.
From Stdlib Require Import Floats.PrimFloat Floats.SpecFloat Floats.FloatOps.
From stdpp Require Import base strings gmap list.

Local Open Scope Z_scope.

(** ** Bytes *)

Definition byte_val (c : ascii) : Z := Z.of_nat (nat_of_ascii c).

Definition byte_in (lo hi c : ascii) : bool :=
  (byte_val lo <=? byte_val c) && (byte_val c <=? byte_val hi).

Definition is_digit (c : ascii) : bool := byte_in "0" "9" c.
Definition is_lower (c : ascii) : bool := byte_in "a" "z" c.
Definition is_upper (c : ascii) : bool := byte_in "A" "Z" c.

(** The double quote character, written by its code. *)
Definition dquote : string := String (ascii_of_nat 34) EmptyString.

(** ** Package [strings] *)

(** [strings.HasPrefix(s, prefix)]. *)
Fixpoint strings_HasPrefix (s prefix : string) {struct prefix} : bool :=
  match prefix, s with
  | EmptyString, _ => true
  | String _ _, EmptyString => false
  | String p prefix', String c s' => Ascii.eqb c p && strings_HasPrefix s' prefix'
  end.

(** [strings.Contains(s, substr)]: [substr] starts at some offset of [s]. *)
Fixpoint strings_Contains (s substr : string) : bool :=
  strings_HasPrefix s substr ||
  match s with
  | EmptyString => false
  | String _ s' => strings_Contains s' substr
  end.

(** [strings.Split(s, sep)] for a separator of one byte, the only kind the
    provider uses.  The result always has at least one element. *)
Fixpoint strings_Split (s : string) (sep : ascii) : list string :=
  match s with
  | EmptyString => [EmptyString]
  | String c s' =>
      if Ascii.eqb c sep then EmptyString :: strings_Split s' sep
      else match strings_Split s' sep with
           | h :: t => String c h :: t
           | [] => [String c EmptyString]
           end
  end.

(** [strings.Join(elems, sep)]. *)
Fixpoint strings_Join (elems : list string) (sep : string) : string :=
  match elems with
  | [] => EmptyString
  | [e] => e
  | e :: rest => e +:+ sep +:+ strings_Join rest sep
  end.

(** [strings.Replace(s, old, "", -1)] for a one-byte [old]: every occurrence
    of the byte is removed. *)
Fixpoint strings_Remove (s : string) (old : ascii) : string :=
  match s with
  | EmptyString => EmptyString
  | String c s' =>
      if Ascii.eqb c old then strings_Remove s' old
      else String c (strings_Remove s' old)
  end.

Definition upper_byte (c : ascii) : ascii :=
  if is_lower c then ascii_of_nat (nat_of_ascii c - 32) else c.

Definition lower_byte (c : ascii) : ascii :=
  if is_upper c then ascii_of_nat (nat_of_ascii c + 32) else c.

(** [strings.ToUpper] and [strings.ToLower] on ASCII text.  Go maps
    non-ASCII runes through the Unicode tables (the long s, U+017F, to [S]);
    the model leaves bytes above 127 as they are, which agrees with Go on
    every ASCII string.  A theorem about the provider that upper-cases a
    string not known to be ASCII (the scheme of a validated resource is)
    assumes [is_ascii] of it. *)
Fixpoint strings_ToUpper (s : string) : string :=
  match s with
  | EmptyString => EmptyString
  | String c s' => String (upper_byte c) (strings_ToUpper s')
  end.

Fixpoint strings_ToLower (s : string) : string :=
  match s with
  | EmptyString => EmptyString
  | String c s' => String (lower_byte c) (strings_ToLower s')
  end.

(** The slice expression [s[n:]]. *)
Fixpoint slice_from (n : nat) (s : string) : string :=
  match n, s with
  | O, _ => s
  | S n', String _ s' => slice_from n' s'
  | S _, EmptyString => EmptyString
  end.

(** [len(s)]. *)
Definition len (s : string) : Z := Z.of_nat (String.length s).

(** [strings.Index(s, substr)], or -1. *)
Fixpoint strings_Index (s substr : string) : Z :=
  if strings_HasPrefix s substr then 0
  else match s with
       | EmptyString => -1
       | String _ s' =>
           let i := strings_Index s' substr in
           if i <? 0 then -1 else i + 1
       end.

(** [strings.LastIndex(s, substr)], or -1. *)
Fixpoint strings_LastIndex (s substr : string) : Z :=
  match s with
  | EmptyString => if strings_HasPrefix s substr then 0 else -1
  | String _ s' =>
      let i := strings_LastIndex s' substr in
      if i >=? 0 then i + 1
      else if strings_HasPrefix s substr then 0 else -1
  end.

(** [strings.Count(s, c)] for a one-byte [c]. *)
Fixpoint strings_Count (s : string) (c : ascii) : Z :=
  match s with
  | EmptyString => 0
  | String b s' => (if Ascii.eqb b c then 1 else 0) + strings_Count s' c
  end.

(** [strings.IndexByte(s, c) >= 0]: the byte occurs in the string. *)
Fixpoint contains_byte (s : string) (c : ascii) : bool :=
  match s with
  | EmptyString => false
  | String b s' => Ascii.eqb b c || contains_byte s' c
  end.

(** The slice expressions [s[:n]] and [s[lo:hi]]. *)
Definition slice_to (n : nat) (s : string) : string := String.substring 0 n s.

Definition slice (lo hi : nat) (s : string) : string :=
  String.substring lo (hi - lo) s.

(** [strings.Cut(s, sep)]: the text before and after the first [sep], and
    whether [sep] was found. *)
Definition strings_Cut (s sep : string) : string * string * bool :=
  let i := strings_Index s sep in
  if i >=? 0
  then (slice_to (Z.to_nat i) s,
        slice_from (Z.to_nat i + String.length sep) s, true)
  else (s, EmptyString, false).

(** [strings.HasSuffix(s, suffix)] for a one-byte [suffix]. *)
Fixpoint strings_HasSuffix_byte (s : string) (c : ascii) : bool :=
  match s with
  | EmptyString => false
  | String b EmptyString => Ascii.eqb b c
  | String _ s' => strings_HasSuffix_byte s' c
  end.

(** ** Package [fmt] *)

(** The verb [%q] on a string: the string between double quotes.  Go also
    escapes quotes, backslashes and unprintable characters inside
    ([strconv.Quote]); the constants the provider formats with [%q] (field
    names, the region list) have none.  For a string that has some the
    rendering is not Go's; a theorem about the provider's calls whose
    message holds such a rendering leaves the rendering open. *)
Definition fmt_q (s : string) : string := dquote +:+ s +:+ dquote.

(** The verbs [%d] and [%v] on an [int]. *)
Definition fmt_d (n : Z) : string := NilZero.string_of_int (Z.to_int n).

(** A natural number below [10 ^ width], padded with zeros on the left. *)
Fixpoint pad_digits (width : nat) (n : Z) : string :=
  match width with
  | O => EmptyString
  | S w => pad_digits w (n / 10) +:+ fmt_d (n mod 10)
  end.

(** The verb [%f] on a [float64]: six decimals, the exact binary value
    rounded half to even. *)
Definition fmt_f (f : float) : string :=
  match Prim2SF f with
  | S754_nan => "NaN"
  | S754_infinity s => if s then "-Inf" else "+Inf"
  | S754_zero s => if s then "-0.000000" else "0.000000"
  | S754_finite s m e =>
      let num := Z.pos m * 10 ^ 6 * (if e >=? 0 then 2 ^ e else 1) in
      let den := if e >=? 0 then 1 else 2 ^ (- e) in
      let q := num / den in
      let r := num mod den in
      let q' := if (2 * r >? den) || ((2 * r =? den) && Z.odd q) then q + 1 else q in
      (if s then "-" else "") +:+ fmt_d (q' / 10 ^ 6) +:+ "." +:+ pad_digits 6 (q' mod 10 ^ 6)
  end.

(** Go's [error] values are modelled by their message. *)
Definition error : Type := string.

(** Go functions return a value together with an [error]. *)
Inductive result (A : Type) : Type :=
| Ok (a : A)
| Err (e : error).
Arguments Ok {A} a.
Arguments Err {A} e.

(** ** Package [strconv] *)

(** The digits of a decimal numeral, most significant first. *)
Fixpoint parse_decimal (s : string) (n : Z) : option Z :=
  match s with
  | EmptyString => Some n
  | String c s' =>
      if is_digit c then parse_decimal s' (n * 10 + (byte_val c - byte_val "0"))
      else None
  end.

(** [strconv.Atoi(s)]: an optional sign, then one or more decimal digits; the
    value must fit Go's 64-bit [int].  (The fast path for short strings and
    [ParseInt(s, 10, 0)] agree on this.) *)
Definition strconv_Atoi (s : string) : result Z :=
  let syntax := Err ("strconv.Atoi: parsing " +:+ fmt_q s +:+ ": invalid syntax") in
  let range := Err ("strconv.Atoi: parsing " +:+ fmt_q s +:+ ": value out of range") in
  match s with
  | EmptyString => syntax
  | String c rest =>
      let neg := Ascii.eqb c "-" in
      let digits := if neg || Ascii.eqb c "+" then rest else s in
      match digits with
      | EmptyString => syntax
      | String _ _ =>
          match parse_decimal digits 0 with
          | None => syntax
          | Some n =>
              let v := if neg then - n else n in
              if (v <? - 2 ^ 63) || (v >? 2 ^ 63 - 1) then range else Ok v
          end
      end
  end.

(** ** Package [net]: [ParseIP] (the byte-level parser of [net/ip.go] and
    [net/parse.go], Go 1.17 to 1.21) *)

(** Bigger than we need, not too big to worry about overflow. *)
Definition big : Z := 16777215.

(** [dtoi(s)]: decimal to integer.  Returns the number, the count of bytes
    consumed and success. *)
Fixpoint dtoi_from (s : string) (n i : Z) : Z * Z * bool :=
  let stop := if i =? 0 then (0, 0, false) else (n, i, true) in
  match s with
  | EmptyString => stop
  | String c s' =>
      if is_digit c then
        let n' := n * 10 + (byte_val c - byte_val "0") in
        if n' >=? big then (big, i, false) else dtoi_from s' n' (i + 1)
      else stop
  end.

Definition dtoi (s : string) : Z * Z * bool := dtoi_from s 0 0.

Definition hex_val (c : ascii) : option Z :=
  if byte_in "0" "9" c then Some (byte_val c - byte_val "0")
  else if byte_in "a" "f" c then Some (byte_val c - byte_val "a" + 10)
  else if byte_in "A" "F" c then Some (byte_val c - byte_val "A" + 10)
  else None.

(** [xtoi(s)]: hexadecimal to integer. *)
Fixpoint xtoi_from (s : string) (n i : Z) : Z * Z * bool :=
  let stop := if i =? 0 then (0, i, false) else (n, i, true) in
  match s with
  | EmptyString => stop
  | String c s' =>
      match hex_val c with
      | Some d =>
          let n' := n * 16 + d in
          if n' >=? big then (0, i, false) else xtoi_from s' n' (i + 1)
      | None => stop
      end
  end.

Definition xtoi (s : string) : Z * Z * bool := xtoi_from s 0 0.

(** The byte [s[i]], when [i] is in range. *)
Definition byte_at (s : string) (i : Z) : option ascii :=
  if i <? 0 then None else String.get (Z.to_nat i) s.

Definition byte_is (o : option ascii) (c : ascii) : bool :=
  match o with Some b => Ascii.eqb b c | None => false end.

(** The loop of [parseIPv4] over the four octets; [i] is the loop index. *)
Fixpoint parseIPv4_octets (todo : nat) (i : Z) (s : string) : option (list Z) :=
  match todo with
  | O => if len s =? 0 then Some [] else None
  | S todo' =>
      if len s =? 0 then None (* missing octets *)
      else
        let after_dot :=
          if i >? 0 then
            match s with
            | String c s' => if Ascii.eqb c "." then Some s' else None
            | EmptyString => None
            end
          else Some s in
        match after_dot with
        | None => None
        | Some s1 =>
            let '(n, c, ok) := dtoi s1 in
            if negb ok || (n >? 255) then None
            else if (c >? 1) && byte_is (byte_at s1 0) "0" then None
                 (* reject non-zero components with leading zeroes *)
            else
              match parseIPv4_octets todo' (i + 1) (slice_from (Z.to_nat c) s1) with
              | Some p => Some (n :: p)
              | None => None
              end
        end
  end.

Definition v4InV6Prefix : list Z := [0; 0; 0; 0; 0; 0; 0; 0; 0; 0; 255; 255].

(** [parseIPv4(s)]: the sixteen bytes of the address, or [None] for [nil]. *)
Definition parseIPv4 (s : string) : option (list Z) :=
  match parseIPv4_octets 4 0 s with
  | Some p => Some (v4InV6Prefix ++ p)
  | None => None
  end.

Definition IPv6len : Z := 16.
Definition IPv4len : Z := 4.

(** The main loop of [parseIPv6], [for i < IPv6len].  The state is the rest
    of the input, the index [i], the position of the ellipsis (or -1) and the
    bytes [ip[0..i)] written so far.  Every turn adds two to [i], so nine
    turns of fuel are never used up. *)
Fixpoint parseIPv6_loop (fuel : nat) (s : string) (i ellipsis : Z) (ip : list Z)
  : option (string * Z * Z * list Z) :=
  match fuel with
  | O => Some (s, i, ellipsis, ip)
  | S fuel' =>
      if i >=? IPv6len then Some (s, i, ellipsis, ip)
      else
        let '(n, c, ok) := xtoi s in
        if negb ok || (n >? 65535) then None
        else if (c <? len s) && byte_is (byte_at s c) "." then
          (* followed by a dot: a trailing IPv4 address *)
          if (ellipsis <? 0) && negb (i =? IPv6len - IPv4len) then None
          else if i + IPv4len >? IPv6len then None
          else
            match parseIPv4 s with
            | None => None
            | Some ip4 =>
                Some (EmptyString, i + IPv4len, ellipsis, ip ++ skipn 12 ip4)
            end
        else
          (* save this 16-bit chunk *)
          let ip' := ip ++ [Z.shiftr n 8; Z.land n 255] in
          let i' := i + 2 in
          let s1 := slice_from (Z.to_nat c) s in
          match s1 with
          | EmptyString => Some (s1, i', ellipsis, ip')
          | String c0 s2 =>
              (* otherwise must be followed by colon and more *)
              if negb (Ascii.eqb c0 ":") || (len s1 =? 1) then None
              else
                if byte_is (byte_at s2 0) ":" then
                  (* look for ellipsis *)
                  if ellipsis >=? 0 then None
                  else
                    let s3 := slice_from 1 s2 in
                    if len s3 =? 0 then Some (s3, i', i', ip')
                    else parseIPv6_loop fuel' s3 i' i' ip'
                else parseIPv6_loop fuel' s2 i' ellipsis ip'
          end
  end.

(** [parseIPv6(s)]. *)
Definition parseIPv6 (s : string) : option (list Z) :=
  let leading := (len s >=? 2) && byte_is (byte_at s 0) ":" && byte_is (byte_at s 1) ":" in
  let s0 := if leading then slice_from 2 s else s in
  let ellipsis0 := if leading then 0 else -1 in
  if leading && (len s0 =? 0) then Some (repeat 0 16) (* only the ellipsis *)
  else
    match parseIPv6_loop 9 s0 0 ellipsis0 [] with
    | None => None
    | Some (rest, i, ellipsis, ip) =>
        if negb (len rest =? 0) then None (* must have used the entire string *)
        else if i <? IPv6len then
          (* did not parse enough: expand the ellipsis *)
          if ellipsis <? 0 then None
          else
            let e := Z.to_nat ellipsis in
            Some (firstn e ip ++ repeat 0 (Z.to_nat (IPv6len - i)) ++ skipn e ip)
        else if ellipsis >=? 0 then None (* the ellipsis must stand for a group *)
        else Some ip
    end.

(** [net.ParseIP(s)]: the first dot or colon decides between the two
    parsers; a string with neither is not an address. *)
Fixpoint ParseIP_scan (s rest : string) : option (list Z) :=
  match rest with
  | EmptyString => None
  | String c rest' =>
      if Ascii.eqb c "." then parseIPv4 s
      else if Ascii.eqb c ":" then parseIPv6 s
      else ParseIP_scan s rest'
  end.

Definition net_ParseIP (s : string) : option (list Z) := ParseIP_scan s s.

(** ** Package [regexp] *)

(** Regular expressions over bytes, with the operators the two patterns of
    the provider use.  The names follow the [Op] codes of [regexp/syntax].
    Go matches runes; both patterns are anchored and made of ASCII classes
    only, so a string with a byte above 127 matches neither here nor there,
    and on ASCII strings bytes and runes are the same. *)
Inductive regex : Type :=
| NoMatch
| EmptyMatch
| CharClass (ranges : list (ascii * ascii))
| Concat (r1 r2 : regex)
| Alternate (r1 r2 : regex)
| Star (r : regex).

(** [x?] *)
Definition Quest (r : regex) : regex := Alternate r EmptyMatch.

(** [x+] *)
Definition Plus (r : regex) : regex := Concat r (Star r).

(** A literal byte. *)
Definition Literal (c : ascii) : regex := CharClass [(c, c)].

(** [x{0,k}], written [(x(x(x)?)?)?] as [syntax.Simplify] does. *)
Fixpoint repeat_upto (r : regex) (k : nat) : regex :=
  match k with
  | O => EmptyMatch
  | S k' => Quest (Concat r (repeat_upto r k'))
  end.

(** [x{min,min+extra}]: [min] copies of [x], then [x{0,extra}]. *)
Fixpoint Repeat (r : regex) (min extra : nat) : regex :=
  match min with
  | O => repeat_upto r extra
  | S O => match extra with O => r | S _ => Concat r (repeat_upto r extra) end
  | S min' => Concat r (Repeat r min' extra)
  end.

(** *** Parsing a pattern *)

Definition is_alnum (c : ascii) : bool := is_digit c || is_lower c || is_upper c.

(** The items of a bracket expression after the opening bracket, up to the
    closing one.  Negated classes and Perl classes are not needed. *)
Fixpoint parse_class (s : string) (acc : list (ascii * ascii))
  : option (list (ascii * ascii) * string) :=
  match s with
  | EmptyString => None
  | String c s1 =>
      if Ascii.eqb c "]" then Some (rev acc, s1)
      else if Ascii.eqb c "\" then
        match s1 with
        | String e s2 => if is_alnum e then None else parse_class s2 ((e, e) :: acc)
        | EmptyString => None
        end
      else
        match s1 with
        | String d (String hi s3) =>
            if Ascii.eqb d "-" && negb (Ascii.eqb hi "]") && negb (Ascii.eqb hi "\")
            then parse_class s3 ((c, hi) :: acc)
            else parse_class s1 ((c, c) :: acc)
        | _ => parse_class s1 ((c, c) :: acc)
        end
  end.

(** A decimal count inside braces. *)
Fixpoint parse_count (s : string) (n : nat) (seen : bool) : option (nat * string) :=
  match s with
  | String c s' =>
      if is_digit c
      then parse_count s' (n * 10 + (nat_of_ascii c - 48))%nat true
      else if seen then Some (n, s) else None
  | EmptyString => if seen then Some (n, s) else None
  end.

(** The repetition operator that may follow an atom. *)
Definition parse_postfix (r : regex) (s : string) : option (regex * string) :=
  match s with
  | String c s1 =>
      if Ascii.eqb c "*" then Some (Star r, s1)
      else if Ascii.eqb c "+" then Some (Plus r, s1)
      else if Ascii.eqb c "?" then Some (Quest r, s1)
      else if Ascii.eqb c "{" then
        match parse_count s1 0 false with
        | Some (lo, String d s2) =>
            if Ascii.eqb d "}" then Some (Repeat r lo 0, s2)
            else if Ascii.eqb d "," then
              match parse_count s2 0 false with
              | Some (hi, String e s3) =>
                  if Ascii.eqb e "}" && (lo <=? hi)%nat
                  then Some (Repeat r lo (hi - lo), s3) else None
              | _ => None
              end
            else None
        | _ => None
        end
      else Some (r, s)
  | EmptyString => Some (r, s)
  end.

(** Any byte but a newline: the class of [.] without the [s] flag. *)
Definition AnyCharNotNL : regex :=
  CharClass [(ascii_of_nat 0, ascii_of_nat 9); (ascii_of_nat 11, ascii_of_nat 255)].

(** Any byte. *)
Definition AnyChar : regex := CharClass [(ascii_of_nat 0, ascii_of_nat 255)].

(** Recursive descent over alternations, concatenations and atoms.  Each
    call uses one unit of fuel; [regexp_Compile] gives [2 * n + 2] units to a
    pattern of [n] bytes, enough for the two patterns of the provider. *)
Fixpoint parse_alternate (fuel : nat) (s : string) : option (regex * string) :=
  match fuel with
  | O => None
  | S fuel' =>
      match parse_concat fuel' s with
      | Some (r1, String c s1) =>
          if Ascii.eqb c "|" then
            match parse_alternate fuel' s1 with
            | Some (r2, s2) => Some (Alternate r1 r2, s2)
            | None => None
            end
          else Some (r1, String c s1)
      | other => other
      end
  end
with parse_concat (fuel : nat) (s : string) : option (regex * string) :=
  match fuel with
  | O => None
  | S fuel' =>
      match s with
      | EmptyString => Some (EmptyMatch, s)
      | String c _ =>
          if Ascii.eqb c "|" || Ascii.eqb c ")" then Some (EmptyMatch, s)
          else
            match parse_atom fuel' s with
            | Some (a, s1) =>
                match parse_postfix a s1 with
                | Some (r1, s2) =>
                    match parse_concat fuel' s2 with
                    | Some (EmptyMatch, s3) => Some (r1, s3)
                    | Some (r2, s3) => Some (Concat r1 r2, s3)
                    | None => None
                    end
                | None => None
                end
            | None => None
            end
      end
  end
with parse_atom (fuel : nat) (s : string) : option (regex * string) :=
  match fuel with
  | O => None
  | S fuel' =>
      match s with
      | EmptyString => None
      | String c s1 =>
          if Ascii.eqb c "(" then
            match s1 with
            | String q _ =>
                if Ascii.eqb q "?" then None (* flags and non-capturing groups *)
                else
                  match parse_alternate fuel' s1 with
                  | Some (r, String d s2) =>
                      if Ascii.eqb d ")" then Some (r, s2) else None
                  | _ => None
                  end
            | EmptyString => None
            end
          else if Ascii.eqb c "[" then
            match s1 with
            | String n _ =>
                if Ascii.eqb n "^" then None
                else
                  match parse_class s1 [] with
                  | Some (ranges, s2) => Some (CharClass ranges, s2)
                  | None => None
                  end
            | EmptyString => None
            end
          else if Ascii.eqb c "\" then
            match s1 with
            | String e s2 => if is_alnum e then None else Some (Literal e, s2)
            | EmptyString => None
            end
          else if Ascii.eqb c "." then Some (AnyCharNotNL, s1)
          else if Ascii.eqb c "*" || Ascii.eqb c "+" || Ascii.eqb c "?"
                  || Ascii.eqb c "{" || Ascii.eqb c "^" || Ascii.eqb c "$"
          then None
          else Some (Literal c, s1)
      end
  end.

(** A compiled pattern: whether it starts with [^], whether it ends with
    [$], and what lies between.  Without flags, [^] is the beginning of the
    text and [$] its end. *)
Record Regexp : Type := {
  begin_text : bool;
  end_text : bool;
  body : regex;
}.

(** The pattern without a final unescaped [$]. *)
Fixpoint strip_end_text (s : string) : string * bool :=
  match s with
  | EmptyString => (EmptyString, false)
  | String c s' =>
      if Ascii.eqb c "\" then
        match s' with
        | String e s'' =>
            let '(t, b) := strip_end_text s'' in (String c (String e t), b)
        | EmptyString => (s, false)
        end
      else
        match s' with
        | EmptyString =>
            if Ascii.eqb c "$" then (EmptyString, true) else (s, false)
        | String _ _ => let '(t, b) := strip_end_text s' in (String c t, b)
        end
  end.

(** [regexp.Compile(expr)], for the syntax above; [None] is an error. *)
Definition regexp_Compile (expr : string) : option Regexp :=
  let '(e1, bt) :=
    match expr with
    | String c rest => if Ascii.eqb c "^" then (rest, true) else (expr, false)
    | EmptyString => (expr, false)
    end in
  let '(e2, et) := strip_end_text e1 in
  match parse_alternate (2 * String.length e2 + 2) e2 with
  | Some (r, EmptyString) => Some {| begin_text := bt; end_text := et; body := r |}
  | _ => None
  end.

(** *** Matching, by Brzozowski derivatives *)

Definition in_class (ranges : list (ascii * ascii)) (c : ascii) : bool :=
  existsb (fun '(lo, hi) => byte_in lo hi c) ranges.

Fixpoint nullable (r : regex) : bool :=
  match r with
  | NoMatch => false
  | EmptyMatch => true
  | CharClass _ => false
  | Concat r1 r2 => nullable r1 && nullable r2
  | Alternate r1 r2 => nullable r1 || nullable r2
  | Star _ => true
  end.

(** Concatenation and alternation that drop [NoMatch] and [EmptyMatch]
    operands, to keep derivatives small. *)
Definition mkConcat (r1 r2 : regex) : regex :=
  match r1, r2 with
  | NoMatch, _ => NoMatch
  | _, NoMatch => NoMatch
  | EmptyMatch, _ => r2
  | _, _ => Concat r1 r2
  end.

Definition mkAlternate (r1 r2 : regex) : regex :=
  match r1, r2 with
  | NoMatch, _ => r2
  | _, NoMatch => r1
  | _, _ => Alternate r1 r2
  end.

(** The derivative of [r] by the byte [c]: what may follow [c]. *)
Fixpoint deriv (c : ascii) (r : regex) : regex :=
  match r with
  | NoMatch => NoMatch
  | EmptyMatch => NoMatch
  | CharClass ranges => if in_class ranges c then EmptyMatch else NoMatch
  | Concat r1 r2 =>
      if nullable r1
      then mkAlternate (mkConcat (deriv c r1) r2) (deriv c r2)
      else mkConcat (deriv c r1) r2
  | Alternate r1 r2 => mkAlternate (deriv c r1) (deriv c r2)
  | Star r1 => mkConcat (deriv c r1) (Star r1)
  end.

(** The whole of [s] belongs to the language of [r]. *)
Fixpoint matches (r : regex) (s : string) : bool :=
  match s with
  | EmptyString => nullable r
  | String c s' => matches (deriv c r) s'
  end.

(** [re.MatchString(s)]: some substring of [s] matches, pinned to the
    beginning or the end of the text where the pattern says so. *)
Definition MatchString (re : Regexp) (s : string) : bool :=
  let r1 := if begin_text re then body re else Concat (Star AnyChar) (body re) in
  let r2 := if end_text re then r1 else Concat r1 (Star AnyChar) in
  matches r2 s.

(** *** The language of a regular expression *)

Inductive lang : regex -> string -> Prop :=
| lang_EmptyMatch : lang EmptyMatch EmptyString
| lang_CharClass (ranges : list (ascii * ascii)) (c : ascii) :
    in_class ranges c = true -> lang (CharClass ranges) (String c EmptyString)
| lang_Concat (r1 r2 : regex) (s1 s2 : string) :
    lang r1 s1 -> lang r2 s2 -> lang (Concat r1 r2) (s1 +:+ s2)
| lang_Alternate_l (r1 r2 : regex) (s : string) :
    lang r1 s -> lang (Alternate r1 r2) s
| lang_Alternate_r (r1 r2 : regex) (s : string) :
    lang r2 s -> lang (Alternate r1 r2) s
| lang_Star_nil (r : regex) : lang (Star r) EmptyString
| lang_Star_more (r : regex) (s1 s2 : string) :
    lang r s1 -> lang (Star r) s2 -> lang (Star r) (s1 +:+ s2).

(** The pattern of [up_codes] after parsing. *)
Definition up_code_range : regex :=
  Concat (CharClass [("1"%char, "5"%char)])
    (Concat (Concat (CharClass [("0"%char, "9"%char)]) (CharClass [("0"%char, "9"%char)]))
       (Concat (CharClass [("-"%char, "-"%char)])
          (Concat (CharClass [("1"%char, "5"%char)])
             (Concat (CharClass [("0"%char, "9"%char)]) (CharClass [("0"%char, "9"%char)]))))).

Definition up_code_single : regex :=
  Concat (CharClass [("1"%char, "5"%char)])
    (Alternate
       (Alternate
          (Concat (CharClass [("0"%char, "9"%char)]) (CharClass [("0"%char, "9"%char)]))
          (Concat (CharClass [("0"%char, "9"%char)]) (CharClass [("x"%char, "x"%char)])))
       (Concat (CharClass [("x"%char, "x"%char)]) (CharClass [("x"%char, "x"%char)]))).

Definition up_code_entry : regex := Alternate up_code_range up_code_single.

Definition up_code_list : regex :=
  Concat up_code_entry (Star (Concat (CharClass [(","%char, ","%char)]) up_code_entry)).

(** The pattern of DNS names after parsing: a label, more labels with a dot
    before each, and a final dot or underscore if any. *)
Definition dns_label : regex :=
  Concat
    (CharClass [("a"%char, "z"%char); ("A"%char, "Z"%char); ("0"%char, "9"%char);
                ("_"%char, "_"%char)])
    (repeat_upto
       (CharClass [("a"%char, "z"%char); ("A"%char, "Z"%char); ("0"%char, "9"%char);
                   ("_"%char, "_"%char); ("-"%char, "-"%char)])
       62).

Definition dns_name : regex :=
  Concat dns_label
    (Concat (Star (Concat (CharClass [("."%char, "."%char)]) dns_label))
       (Quest (CharClass [("."%char, "."%char); ("_"%char, "_"%char)]))).

(** ** Package [net/url]: [Parse] (Go 1.20) *)

Record URL : Type := {
  Scheme : string;
  Opaque : string;
  User : option (string * option string);
  Host : string;
  Path : string;
  ForceQuery : bool;
  RawQuery : string;
  Fragment : string;
}.

Inductive encoding : Type :=
| encodePath
| encodePathSegment
| encodeHost
| encodeZone
| encodeUserPassword
| encodeQueryComponent
| encodeFragment.

Definition host_or_zone (mode : encoding) : bool :=
  match mode with encodeHost | encodeZone => true | _ => false end.

Definition byte_among (c : ascii) (set : string) : bool :=
  existsb (Ascii.eqb c) (list_ascii_of_string set).

Definition ishex (c : ascii) : bool :=
  match hex_val c with Some _ => true | None => false end.

Definition unhex (c : ascii) : Z :=
  match hex_val c with Some v => v | None => 0 end.

(** [shouldEscape(c, mode)]. *)
Definition shouldEscape (c : ascii) (mode : encoding) : bool :=
  if is_alnum c then false
  else if host_or_zone mode && byte_among c ("!$&'()*+,;=:[]<>" +:+ dquote) then false
  else if byte_among c "-_.~" then false
  else
    let reserved := byte_among c "$&+,/:;=?@" in
    match mode with
    | encodePath => if reserved then Ascii.eqb c "?" else true
    | encodePathSegment => if reserved then byte_among c "/;,?" else true
    | encodeUserPassword => if reserved then byte_among c "@/?:" else true
    | encodeQueryComponent => true
    | encodeFragment => if reserved then false else negb (byte_among c "!()*")
    | encodeHost | encodeZone => true
    end.

(** [unescape(s, mode)]: the checks of the first pass and the decoding of
    the second, byte by byte. *)
Fixpoint unescape (s : string) (mode : encoding) : result string :=
  match s with
  | EmptyString => Ok EmptyString
  | String c s1 =>
      if Ascii.eqb c "%" then
        match s1 with
        | String h1 (String h2 s3) =>
            let esc := String c (String h1 (String h2 EmptyString)) in
            if negb (ishex h1 && ishex h2)
            then Err ("invalid URL escape " +:+ fmt_q esc)
            else if match mode with encodeHost => true | _ => false end
                    && (unhex h1 <? 8) && negb (String.eqb esc "%25")
            then Err ("invalid URL escape " +:+ fmt_q esc)
            else
              let v := Z.lor (Z.shiftl (unhex h1) 4) (unhex h2) in
              let b := ascii_of_nat (Z.to_nat v) in
              if match mode with encodeZone => true | _ => false end
                 && negb (String.eqb esc "%25") && negb (Ascii.eqb b " ")
                 && shouldEscape b encodeHost
              then Err ("invalid URL escape " +:+ fmt_q esc)
              else
                match unescape s3 mode with
                | Ok t => Ok (String b t)
                | Err e => Err e
                end
        | _ => Err ("invalid URL escape " +:+ fmt_q (slice_to 3 s))
        end
      else if host_or_zone mode && (byte_val c <? 128) && shouldEscape c encodeHost
      then Err ("invalid character " +:+ fmt_q (String c EmptyString) +:+ " in host name")
      else
        let b := if Ascii.eqb c "+"
                    && match mode with encodeQueryComponent => true | _ => false end
                 then " "%char else c in
        match unescape s1 mode with
        | Ok t => Ok (String b t)
        | Err e => Err e
        end
  end.

(** [getScheme(rawURL)]: the loop over the index [i], with [rest] the
    bytes from [i] on. *)
Fixpoint getScheme_from (rawURL rest : string) (i : nat) : result (string * string) :=
  match rest with
  | EmptyString => Ok (EmptyString, rawURL)
  | String c rest' =>
      if is_lower c || is_upper c then getScheme_from rawURL rest' (S i)
      else if is_digit c || byte_among c "+-." then
        if (i =? 0)%nat then Ok (EmptyString, rawURL)
        else getScheme_from rawURL rest' (S i)
      else if Ascii.eqb c ":" then
        if (i =? 0)%nat then Err "missing protocol scheme"
        else Ok (slice_to i rawURL, rest')
      else Ok (EmptyString, rawURL)
  end.

Definition getScheme (rawURL : string) : result (string * string) :=
  getScheme_from rawURL rawURL 0.

(** The bytes [getScheme] lets into a scheme. *)
Definition scheme_byte (c : ascii) : bool :=
  is_lower c || is_upper c || is_digit c || byte_among c "+-.".

(** [stringContainsCTLByte(s)]. *)
Definition stringContainsCTLByte (s : string) : bool :=
  existsb (fun b => (byte_val b <? 32) || (byte_val b =? 127)) (list_ascii_of_string s).

(** [validOptionalPort(port)]. *)
Definition validOptionalPort (port : string) : bool :=
  match port with
  | EmptyString => true
  | String c digits =>
      Ascii.eqb c ":" && forallb is_digit (list_ascii_of_string digits)
  end.

(** [validUserinfo(s)]. *)
Definition validUserinfo (s : string) : bool :=
  forallb (fun r => is_alnum r || byte_among r "-._:~!$&'()*+,;=%@")
          (list_ascii_of_string s).

(** [parseHost(host)]. *)
Definition parseHost (host : string) : result string :=
  let plain :=
    unescape host encodeHost in
  if strings_HasPrefix host "[" then
    let i := strings_LastIndex host "]" in
    if i <? 0 then Err "missing ']' in host"
    else
      let colonPort := slice_from (Z.to_nat i + 1) host in
      if negb (validOptionalPort colonPort)
      then Err ("invalid port " +:+ fmt_q colonPort +:+ " after host")
      else
        let zone := strings_Index (slice_to (Z.to_nat i) host) "%25" in
        if zone >=? 0 then
          match unescape (slice_to (Z.to_nat zone) host) encodeHost with
          | Err e => Err e
          | Ok host1 =>
              match unescape (slice (Z.to_nat zone) (Z.to_nat i) host) encodeZone with
              | Err e => Err e
              | Ok host2 =>
                  match unescape (slice_from (Z.to_nat i) host) encodeHost with
                  | Err e => Err e
                  | Ok host3 => Ok (host1 +:+ host2 +:+ host3)
                  end
              end
          end
        else plain
  else
    let i := strings_LastIndex host ":" in
    if negb (i =? -1) && negb (validOptionalPort (slice_from (Z.to_nat i) host))
    then Err ("invalid port " +:+ fmt_q (slice_from (Z.to_nat i) host) +:+ " after host")
    else plain.

(** [parseAuthority(authority)]: the user information and the host. *)
Definition parseAuthority (authority : string)
  : result (option (string * option string) * string) :=
  let i := strings_LastIndex authority "@" in
  let host_part := if i <? 0 then authority else slice_from (Z.to_nat i + 1) authority in
  match parseHost host_part with
  | Err e => Err e
  | Ok host =>
      if i <? 0 then Ok (None, host)
      else
        let userinfo := slice_to (Z.to_nat i) authority in
        if negb (validUserinfo userinfo) then Err "net/url: invalid userinfo"
        else if negb (strings_Contains userinfo ":") then
          match unescape userinfo encodeUserPassword with
          | Err e => Err e
          | Ok u => Ok (Some (u, None), host)
          end
        else
          let '(username, password, _) := strings_Cut userinfo ":" in
          match unescape username encodeUserPassword with
          | Err e => Err e
          | Ok u =>
              match unescape password encodeUserPassword with
              | Err e => Err e
              | Ok pw => Ok (Some (u, Some pw), host)
              end
          end
  end.

(** [parse(rawURL, viaRequest)] with [viaRequest = false]. *)
Definition url_parse (rawURL : string) : result URL :=
  if stringContainsCTLByte rawURL
  then Err "net/url: invalid control character in URL"
  else if String.eqb rawURL "*"
  then Ok {| Scheme := EmptyString; Opaque := EmptyString; User := None;
             Host := EmptyString; Path := "*"; ForceQuery := false;
             RawQuery := EmptyString; Fragment := EmptyString |}
  else
    match getScheme rawURL with
    | Err e => Err e
    | Ok (scheme0, rest0) =>
        let scheme := strings_ToLower scheme0 in
        let '(rest1, rawQuery, forceQuery) :=
          if strings_HasSuffix_byte rest0 "?" && (strings_Count rest0 "?" =? 1)
          then (slice_to (String.length rest0 - 1) rest0, EmptyString, true)
          else let '(before, after, _) := strings_Cut rest0 "?" in
               (before, after, false) in
        if negb (strings_HasPrefix rest1 "/") && negb (String.eqb scheme EmptyString)
        then
          (* rootless paths are opaque *)
          Ok {| Scheme := scheme; Opaque := rest1; User := None;
                Host := EmptyString; Path := EmptyString;
                ForceQuery := forceQuery; RawQuery := rawQuery;
                Fragment := EmptyString |}
        else if negb (strings_HasPrefix rest1 "/")
                && strings_Contains (fst (fst (strings_Cut rest1 "/"))) ":"
        then Err "first path segment in URL cannot contain colon"
        else
          let with_authority :=
            (negb (String.eqb scheme EmptyString) || negb (strings_HasPrefix rest1 "///"))
            && strings_HasPrefix rest1 "//" in
          let authority0 := slice_from 2 rest1 in
          let i := strings_Index authority0 "/" in
          let authority := if i >=? 0 then slice_to (Z.to_nat i) authority0 else authority0 in
          let rest2 :=
            if with_authority
            then (if i >=? 0 then slice_from (Z.to_nat i) authority0 else EmptyString)
            else rest1 in
          match (if with_authority then parseAuthority authority
                 else Ok (None, EmptyString)) with
          | Err e => Err e
          | Ok (user, host) =>
              (* setPath *)
              match unescape rest2 encodePath with
              | Err e => Err e
              | Ok path =>
                  Ok {| Scheme := scheme; Opaque := EmptyString; User := user;
                        Host := host; Path := path; ForceQuery := forceQuery;
                        RawQuery := rawQuery; Fragment := EmptyString |}
              end
          end
    end.

(** [url.Error.Error()]. *)
Definition url_Error (op url : string) (err : error) : error :=
  op +:+ " " +:+ fmt_q url +:+ ": " +:+ err.

(** [url.Parse(rawURL)]. *)
Definition url_Parse (rawURL : string) : result URL :=
  let '(u, frag, _) := strings_Cut rawURL "#" in
  match url_parse u with
  | Err e => Err (url_Error "parse" u e)
  | Ok url =>
      if String.eqb frag EmptyString then Ok url
      else
        (* setFragment *)
        match unescape frag encodeFragment with
        | Err e => Err (url_Error "parse" rawURL e)
        | Ok f =>
            Ok {| Scheme := Scheme url; Opaque := Opaque url; User := User url;
                  Host := Host url; Path := Path url; ForceQuery := ForceQuery url;
                  RawQuery := RawQuery url; Fragment := f |}
        end
  end.

(** ** Values of type [interface{}] handed to the schema callbacks *)

Inductive value : Type :=
| VString (s : string)
| VInt (n : Z)
| VFloat (f : float)
| VSet (s : gset string)
| VList (l : list string).

(** ** Package [helper/validation] of the plugin SDK *)

(** A [schema.SchemaValidateFunc] returns warnings and errors; none of the
    validators below ever produces a warning, so only the errors are kept. *)
Definition SchemaValidateFunc : Type := value -> string -> list error.

(** [validation.IntBetween(min, max)]. *)
Definition validation_IntBetween (min max : Z) : SchemaValidateFunc :=
  fun i k =>
    match i with
    | VInt v =>
        if (v <? min) || (v >? max)
        then ["expected " +:+ k +:+ " to be in the range (" +:+ fmt_d min
              +:+ " - " +:+ fmt_d max +:+ "), got " +:+ fmt_d v]
        else []
    | _ => ["expected type of " +:+ k +:+ " to be integer"]
    end.

(** [validation.FloatBetween(min, max)]. *)
Definition validation_FloatBetween (min max : float) : SchemaValidateFunc :=
  fun i k =>
    match i with
    | VFloat v =>
        if PrimFloat.ltb v min || PrimFloat.ltb max v
        then ["expected " +:+ k +:+ " to be in the range (" +:+ fmt_f min
              +:+ " - " +:+ fmt_f max +:+ "), got " +:+ fmt_f v]
        else []
    | _ => ["expected type of " +:+ k +:+ " to be float64"]
    end.

(** [validation.IsPortNumber]. *)
Definition validation_IsPortNumber : SchemaValidateFunc :=
  fun i k =>
    match i with
    | VInt v =>
        if (1 >? v) || (v >? 65535)
        then ["expected " +:+ fmt_q k +:+ " to be a valid port number, got: "
              +:+ fmt_d v]
        else []
    | _ => ["expected type of " +:+ fmt_q k +:+ " to be integer"]
    end.

(** [validation.StringLenBetween(min, max)]. *)
Definition validation_StringLenBetween (min max : Z) : SchemaValidateFunc :=
  fun i k =>
    match i with
    | VString v =>
        if (len v <? min) || (len v >? max)
        then ["expected length of " +:+ k +:+ " to be in the range ("
              +:+ fmt_d min +:+ " - " +:+ fmt_d max +:+ "), got " +:+ v]
        else []
    | _ => ["expected type of " +:+ k +:+ " to be string"]
    end.

(** The verb [%q] on a slice of strings. *)
Definition fmt_q_slice (l : list string) : string :=
  "[" +:+ strings_Join (map fmt_q l) " " +:+ "]".

(** [validation.StringInSlice(valid, false)]. *)
Definition validation_StringInSlice (valid : list string) : SchemaValidateFunc :=
  fun i k =>
    match i with
    | VString v =>
        if existsb (String.eqb v) valid then []
        else ["expected " +:+ k +:+ " to be one of " +:+ fmt_q_slice valid
              +:+ ", got " +:+ v]
    | _ => ["expected type of " +:+ k +:+ " to be string"]
    end.

(** [regexp.MustCompile(expr).MatchString(s)].  [MustCompile] panics on a
    pattern that does not compile; both patterns of the provider compile. *)
Definition MustCompile_MatchString (expr s : string) : bool :=
  match regexp_Compile expr with
  | Some r => MatchString r s
  | None => false
  end.

(** [validation.StringMatch(regexp.MustCompile(expr), message)] with a
    message that is not empty. *)
Definition validation_StringMatch (expr message : string) : SchemaValidateFunc :=
  fun i k =>
    match i with
    | VString v =>
        if MustCompile_MatchString expr v then []
        else ["invalid value for " +:+ k +:+ " (" +:+ message +:+ ")"]
    | _ => ["expected type of " +:+ k +:+ " to be string"]
    end.

(** [validation.IsURLWithScheme(validSchemes)]. *)
Definition validation_IsURLWithScheme (validSchemes : list string) : SchemaValidateFunc :=
  fun i k =>
    match i with
    | VString v =>
        if String.eqb v EmptyString
        then ["expected " +:+ fmt_q k +:+ " url to not be empty, got " +:+ v]
        else
          match url_Parse v with
          | Err err =>
              ["expected " +:+ fmt_q k +:+ " to be a valid url, got " +:+ v
               +:+ ": " +:+ err]
          | Ok u =>
              if String.eqb (Host u) EmptyString
              then ["expected " +:+ fmt_q k +:+ " to have a host, got " +:+ v]
              else if existsb (String.eqb (Scheme u)) validSchemes then []
              else ["expected " +:+ fmt_q k +:+ " to have a url with schema of: "
                    +:+ fmt_q (strings_Join validSchemes ",") +:+ ", got " +:+ v]
          end
    | _ => ["expected type of " +:+ fmt_q k +:+ " to be string"]
    end.

(** [validation.IsURLWithHTTPorHTTPS]. *)
Definition validation_IsURLWithHTTPorHTTPS : SchemaValidateFunc :=
  validation_IsURLWithScheme ["http"; "https"].

(** A value is accepted when its validator reports no error. *)
Definition accepts (f : SchemaValidateFunc) (i : value) (k : string) : bool :=
  match f i k with [] => true | _ :: _ => false end.

(** ** [resource_check.go] *)

Definition protocolHTTP : string := "HTTP".
Definition protocolHTTPS : string := "HTTPS".
Definition protocolTCP : string := "TCP".

Definition validDNSNamePattern : string :=
  "^([a-zA-Z0-9_]{1}[a-zA-Z0-9_-]{0,62}){1}(\.[a-zA-Z0-9_]{1}[a-zA-Z0-9_-]{0,62})*[\._]?$".

Definition validUpCodePattern : string :=
  "^([1-5]{1}[0-9]{2}-[1-5]{1}[0-9]{2}|([1-5]{1}(([0-9]{2}|[0-9]{1}x)|xx))){1}(,([1-5]{1}[0-9]{2}-[1-5]{1}[0-9]{2}|([1-5]{1}(([0-9]{2}|[0-9]{1}x)|xx))))*$".

Definition supportedRegions : list string := [
  "af-south-1";
  "ap-east-1";
  "ap-northeast-1";
  "ap-south-1";
  "ap-southeast-1";
  "ap-southeast-2";
  "eu-central-1";
  "eu-west-1";
  "sa-east-1";
  "us-east-1";
  "us-west-1"
].

Definition supportedHTTPMethods : list string :=
  ["GET"; "HEAD"; "POST"; "PUT"; "DELETE"].

Definition isIP (str : string) : bool :=
  match net_ParseIP str with Some _ => true | None => false end.

Definition isDNSName (str : string) : bool :=
  if String.eqb str EmptyString || (len (strings_Remove str ".") >? 255)
  then false
  else negb (isIP str) && MustCompile_MatchString validDNSNamePattern str.

Definition isHost (str : string) : bool := isIP str || isDNSName str.

(** The string [s], [n] times over. *)
Fixpoint string_repeat (n : nat) (s : string) : string :=
  match n with
  | O => EmptyString
  | S n' => s +:+ string_repeat n' s
  end.

(** A host of 256 bytes: 128 labels of one letter, a dot after each. *)
Definition long_dns_host : string := string_repeat 128 "a.".

Fixpoint stringInSlice (s : string) (slice : list string) : bool :=
  match slice with
  | [] => false
  | h :: rest => if String.eqb s h then true else stringInSlice s rest
  end.

(** The element [l[i]] of a slice. *)
Definition index (l : list string) (i : nat) : string := nth i l EmptyString.

(** [ValidateFunc] of the ["resource"] field. *)
Definition resource_ValidateFunc : SchemaValidateFunc :=
  fun i s =>
    match i with
    | VString v =>
        if strings_HasPrefix v "tcp://" then
          let rc := strings_Split (slice_from 6 v) ":" in
          if negb (length rc =? 2)%nat
          then ["expected " +:+ fmt_q s +:+ " tcp resource to contain host and port components"]
          else
            let errors :=
              if negb (isHost (index rc 0))
              then ["expected " +:+ fmt_q s +:+ " tcp resource to contain a valid host"]
              else [] in
            match strconv_Atoi (index rc 1) with
            | Err _ =>
                errors ++ ["expected " +:+ fmt_q s +:+ " tcp resource to contain a port number"]
            | Ok port =>
                if (0 <? length (validation_IsPortNumber (VInt port) s))%nat
                then errors ++ ["expected " +:+ fmt_q s +:+ " tcp resource to contain a valid port number"]
                else errors
            end
        else if strings_HasPrefix v "http" then
          validation_IsURLWithHTTPorHTTPS i s
        else ["expected " +:+ fmt_q s +:+ " to be either TCP or HTTP(S) resource"]
    | _ => ["expected type of " +:+ fmt_q s +:+ " to be string"]
    end.

(** [ValidateFunc] of the elements of the ["regions"] set. *)
Definition regions_Elem_ValidateFunc : SchemaValidateFunc :=
  fun i s =>
    match i with
    | VString v =>
        if negb (stringInSlice v supportedRegions)
        then ["expected " +:+ fmt_q "regions" +:+ " to be any of "
              +:+ fmt_q (strings_Join supportedRegions ", ")]
        else []
    | _ => ["expected type of " +:+ fmt_q s +:+ " to be string"]
    end.

(** The one message the region validator has. *)
Definition region_error : error :=
  "expected " +:+ fmt_q "regions" +:+ " to be any of "
  +:+ fmt_q (strings_Join supportedRegions ", ").

(** [ValidateFunc] of the ["up_codes"] field. *)
Definition up_codes_ValidateFunc : SchemaValidateFunc :=
  validation_StringMatch validUpCodePattern
    ("up_codes must be of a format such as " +:+ fmt_q "200, 2xx, 200-302, 200,301").

(** [ValidateFunc] of the ["interval"] field. *)
Definition interval_ValidateFunc : SchemaValidateFunc :=
  validation_IntBetween 5 900.

(** ** Package [helper/schema]: resource data *)

(** The zero-value test of [GetOk]. *)
Definition is_zero (v : value) : bool :=
  match v with
  | VString s => String.eqb s EmptyString
  | VInt n => n =? 0
  | VFloat f => PrimFloat.eqb f 0%float
  | VSet s => bool_decide (s = ∅)
  | VList l => match l with [] => true | _ :: _ => false end
  end.

(** [schema.ResourceData], as the provider uses it: the identifier, a store
    of field values by name, and the values of the prior state for the
    change queries. *)
Record ResourceData : Type := {
  Id : string;
  fields : gmap string value;
  prior : gmap string value;
}.

(** [d.GetOk(key)]: the value, when the key has been set to a non-zero
    value.  (Go also returns a value when [ok] is false; the provider never
    looks at it.) *)
Definition GetOk (d : ResourceData) (key : string) : option value :=
  match fields d !! key with
  | Some v => if is_zero v then None else Some v
  | None => None
  end.

(** [d.SetId(v)]. *)
Definition SetId (v : string) (d : ResourceData) : ResourceData :=
  {| Id := v; fields := fields d; prior := prior d |}.

(** A slice of strings written to a set field is stored as a set. *)
Definition stored (v : value) : value :=
  match v with
  | VList l => VSet (list_to_set l)
  | _ => v
  end.

(** [d.Set(key, value)].  With the field types of the two schemas the call
    never returns an error. *)
Definition Set_ (key : string) (v : value) (d : ResourceData) : option error * ResourceData :=
  (None, {| Id := Id d; fields := <[key := stored v]> (fields d); prior := prior d |}).

(** [d.GetChange(key)]: the old and the new value. *)
Definition GetChange (d : ResourceData) (key : string) : option value * option value :=
  (prior d !! key, fields d !! key).

(** The set a value of a set field holds; a missing value is the empty
    set, as after [new(schema.Set)]. *)
Definition as_set (o : option value) : gset string :=
  match o with
  | Some (VSet s) => s
  | Some (VList l) => list_to_set l
  | _ => ∅
  end.

(** [d.HasChange(key)] on a set field: [schema.Set] implements [Equal]. *)
Definition HasChange (d : ResourceData) (key : string) : bool :=
  let '(o, n) := GetChange d key in
  negb (bool_decide (as_set o = as_set n)).

(** [s.List()]: the elements of a [schema.Set], each once.  Go lists them
    in the order of the decimal text of their hash codes, the model in the
    order of [elements]; the two orders differ.  The theorems about the
    provider's calls are stated by the members of the list and by the fact
    that none occurs twice; the lemmas that follow the order of the model
    are steps of their proofs. *)
Definition Set_List (s : gset string) : list string := elements s.

(** The type assertions to [string], [int], [float64] and to a pointer to
    [schema.Set].  On a value of another type Go panics; the schema
    keeps such values out of the resource data. *)
Definition as_string (v : value) : string :=
  match v with VString s => s | _ => EmptyString end.

Definition as_int (v : value) : Z :=
  match v with VInt n => n | _ => 0 end.

Definition as_float (v : value) : float :=
  match v with VFloat f => f | _ => 0%float end.

(** ** The schema of the check resource and its validation *)

Inductive ValueType : Type := TypeString | TypeInt | TypeFloat | TypeSet.

(** [schema.Schema], with the attributes the two resources set.  [Elem] is
    the [ValidateFunc] of the element schema of a set of strings. *)
Record Schema : Type := {
  Type_ : ValueType;
  Required : bool;
  Optional : bool;
  Computed : bool;
  ForceNew : bool;
  Default : option value;
  ValidateFunc : option SchemaValidateFunc;
  MinItems : Z;
  Elem : option SchemaValidateFunc;
}.

(** The [target] bounds 0.01 and 10.0 and the default 1.2, as the
    [float64] values nearest to the decimal constants. *)
Definition target_min : float := 0x1.47ae147ae147bp-7%float.
Definition target_max : float := 10%float.
Definition target_default : float := 0x1.3333333333333p+0%float.

(** The [Schema] map of [checkResource()]. *)
Definition checkResource_Schema : list (string * Schema) := [
  ("name",
   {| Type_ := TypeString; Required := false; Optional := true; Computed := false;
      ForceNew := false; Default := Some (VString EmptyString);
      ValidateFunc := Some (validation_StringLenBetween 0 25);
      MinItems := 0; Elem := None |});
  ("resource",
   {| Type_ := TypeString; Required := true; Optional := false; Computed := false;
      ForceNew := true; Default := None;
      ValidateFunc := Some resource_ValidateFunc;
      MinItems := 0; Elem := None |});
  ("method",
   {| Type_ := TypeString; Required := false; Optional := true; Computed := false;
      ForceNew := false; Default := None;
      ValidateFunc := Some (validation_StringInSlice supportedHTTPMethods);
      MinItems := 0; Elem := None |});
  ("interval",
   {| Type_ := TypeInt; Required := false; Optional := true; Computed := false;
      ForceNew := false; Default := Some (VInt 60);
      ValidateFunc := Some interval_ValidateFunc;
      MinItems := 0; Elem := None |});
  ("target",
   {| Type_ := TypeFloat; Required := false; Optional := true; Computed := false;
      ForceNew := false; Default := Some (VFloat target_default);
      ValidateFunc := Some (validation_FloatBetween target_min target_max);
      MinItems := 0; Elem := None |});
  ("regions",
   {| Type_ := TypeSet; Required := true; Optional := false; Computed := false;
      ForceNew := false; Default := None;
      ValidateFunc := None;
      MinItems := 1; Elem := Some regions_Elem_ValidateFunc |});
  ("up_codes",
   {| Type_ := TypeString; Required := false; Optional := true; Computed := false;
      ForceNew := false; Default := None;
      ValidateFunc := Some up_codes_ValidateFunc;
      MinItems := 0; Elem := None |});
  ("up_confirmations_threshold",
   {| Type_ := TypeInt; Required := false; Optional := true; Computed := false;
      ForceNew := false; Default := Some (VInt 2);
      ValidateFunc := Some (validation_IntBetween 1 10);
      MinItems := 0; Elem := None |});
  ("down_confirmations_threshold",
   {| Type_ := TypeInt; Required := false; Optional := true; Computed := false;
      ForceNew := false; Default := Some (VInt 2);
      ValidateFunc := Some (validation_IntBetween 1 10);
      MinItems := 0; Elem := None |})
].

Definition has_type (t : ValueType) (v : value) : bool :=
  match t, v with
  | TypeString, VString _ | TypeInt, VInt _ | TypeFloat, VFloat _
  | TypeSet, VSet _ => true
  | _, _ => false
  end.

(** The validators of the elements of a set, each called with the key
    [key.i] of the element. *)
Fixpoint elems_errors (f : SchemaValidateFunc) (key : string) (i : Z)
  (elems : list string) : list error :=
  match elems with
  | [] => []
  | e :: rest =>
      f (VString e) (key +:+ "." +:+ fmt_d i) ++ elems_errors f key (i + 1) rest
  end.

(** What the SDK's validation of a configuration reports for one field:
    a missing required field, a value of another type than the schema's, a
    set below [MinItems], and the errors of the field's [ValidateFunc] or of
    the one of its elements.  (The wording of the SDK's own messages is not
    reproduced.) *)
Definition field_errors (key : string) (sch : Schema) (config : gmap string value)
  : list error :=
  match config !! key with
  | None => if Required sch then [fmt_q key +:+ ": required field is not set"] else []
  | Some v =>
      if negb (has_type (Type_ sch) v)
      then [key +:+ ": inappropriate value for attribute"]
      else
        match v with
        | VSet elems =>
            (if Z.of_nat (size elems) <? MinItems sch
             then [key +:+ ": attribute supports " +:+ fmt_d (MinItems sch)
                   +:+ " item minimum"]
             else [])
            ++ match Elem sch with
               | Some f => elems_errors f key 0 (Set_List elems)
               | None => []
               end
        | _ =>
            match ValidateFunc sch with
            | Some f => f v key
            | None => []
            end
        end
  end.

(** The errors of a whole configuration against a schema map. *)
Definition schemaMap_Validate (m : list (string * Schema)) (config : gmap string value)
  : list error :=
  flat_map (fun '(key, sch) => field_errors key sch config) m.

(** A fully validated field set of the check resource. *)
Definition check_validated (d : ResourceData) : Prop :=
  schemaMap_Validate checkResource_Schema (fields d) = [].

(** ** The grammar of [up_codes], as the specification words it *)

(** One entry: an exact three-digit code, a wildcard form ([2xx], [20x]), or
    a range [NNN-NNN]; every hundreds digit lies in 1..5. *)
Definition is_hundreds (c : ascii) : bool := byte_in "1" "5" c.

Definition is_status_code (a b c : ascii) : bool :=
  is_hundreds a && is_digit b && is_digit c.

Definition is_wildcard (a b c : ascii) : bool :=
  is_hundreds a
  && ((is_digit b && Ascii.eqb c "x") || (Ascii.eqb b "x" && Ascii.eqb c "x")).

Definition is_up_codes_entry (entry : string) : bool :=
  match entry with
  | String a (String b (String c EmptyString)) =>
      is_status_code a b c || is_wildcard a b c
  | String a (String b (String c (String d (String e (String f (String g EmptyString)))))) =>
      is_status_code a b c && Ascii.eqb d "-" && is_status_code e f g
  | _ => false
  end.

(** A comma-separated list of entries. *)
Definition is_up_codes_list (v : string) : bool :=
  forallb is_up_codes_entry (strings_Split v ",").

(** ** The structures of the API client ([binocs-client-go]), with the
    fields the provider reads and writes *)

Record Check : Type := {
  Check_Ident : string;
  Check_Name : string;
  Check_Protocol : string;
  Check_Resource : string;
  Check_Method : string;
  Check_Interval : Z;
  Check_Target : float;
  Check_Regions : list string;
  Check_UpCodes : string;
  Check_UpConfirmationsThreshold : Z;
  Check_DownConfirmationsThreshold : Z;
}.

Record Channel : Type := {
  Channel_Ident : string;
  Channel_Type : string;
  Channel_Handle : string;
  Channel_Alias : string;
  Channel_Checks : list string;
}.

(** [binocs.Check{}] and [binocs.Channel{}]. *)
Definition Check_zero : Check :=
  {| Check_Ident := EmptyString; Check_Name := EmptyString;
     Check_Protocol := EmptyString; Check_Resource := EmptyString;
     Check_Method := EmptyString; Check_Interval := 0; Check_Target := 0%float;
     Check_Regions := []; Check_UpCodes := EmptyString;
     Check_UpConfirmationsThreshold := 0; Check_DownConfirmationsThreshold := 0 |}.

Definition Channel_zero : Channel :=
  {| Channel_Ident := EmptyString; Channel_Type := EmptyString;
     Channel_Handle := EmptyString; Channel_Alias := EmptyString;
     Channel_Checks := [] |}.

(** Assignments to the fields of a payload. *)
Definition with_Name (v : string) (p : Check) : Check :=
  {| Check_Ident := Check_Ident p; Check_Name := v;
     Check_Protocol := Check_Protocol p; Check_Resource := Check_Resource p;
     Check_Method := Check_Method p; Check_Interval := Check_Interval p;
     Check_Target := Check_Target p; Check_Regions := Check_Regions p;
     Check_UpCodes := Check_UpCodes p;
     Check_UpConfirmationsThreshold := Check_UpConfirmationsThreshold p;
     Check_DownConfirmationsThreshold := Check_DownConfirmationsThreshold p |}.

Definition with_Protocol (v : string) (p : Check) : Check :=
  {| Check_Ident := Check_Ident p; Check_Name := Check_Name p;
     Check_Protocol := v; Check_Resource := Check_Resource p;
     Check_Method := Check_Method p; Check_Interval := Check_Interval p;
     Check_Target := Check_Target p; Check_Regions := Check_Regions p;
     Check_UpCodes := Check_UpCodes p;
     Check_UpConfirmationsThreshold := Check_UpConfirmationsThreshold p;
     Check_DownConfirmationsThreshold := Check_DownConfirmationsThreshold p |}.

Definition with_Resource (v : string) (p : Check) : Check :=
  {| Check_Ident := Check_Ident p; Check_Name := Check_Name p;
     Check_Protocol := Check_Protocol p; Check_Resource := v;
     Check_Method := Check_Method p; Check_Interval := Check_Interval p;
     Check_Target := Check_Target p; Check_Regions := Check_Regions p;
     Check_UpCodes := Check_UpCodes p;
     Check_UpConfirmationsThreshold := Check_UpConfirmationsThreshold p;
     Check_DownConfirmationsThreshold := Check_DownConfirmationsThreshold p |}.

Definition with_Method (v : string) (p : Check) : Check :=
  {| Check_Ident := Check_Ident p; Check_Name := Check_Name p;
     Check_Protocol := Check_Protocol p; Check_Resource := Check_Resource p;
     Check_Method := v; Check_Interval := Check_Interval p;
     Check_Target := Check_Target p; Check_Regions := Check_Regions p;
     Check_UpCodes := Check_UpCodes p;
     Check_UpConfirmationsThreshold := Check_UpConfirmationsThreshold p;
     Check_DownConfirmationsThreshold := Check_DownConfirmationsThreshold p |}.

Definition with_Interval (v : Z) (p : Check) : Check :=
  {| Check_Ident := Check_Ident p; Check_Name := Check_Name p;
     Check_Protocol := Check_Protocol p; Check_Resource := Check_Resource p;
     Check_Method := Check_Method p; Check_Interval := v;
     Check_Target := Check_Target p; Check_Regions := Check_Regions p;
     Check_UpCodes := Check_UpCodes p;
     Check_UpConfirmationsThreshold := Check_UpConfirmationsThreshold p;
     Check_DownConfirmationsThreshold := Check_DownConfirmationsThreshold p |}.

Definition with_Target (v : float) (p : Check) : Check :=
  {| Check_Ident := Check_Ident p; Check_Name := Check_Name p;
     Check_Protocol := Check_Protocol p; Check_Resource := Check_Resource p;
     Check_Method := Check_Method p; Check_Interval := Check_Interval p;
     Check_Target := v; Check_Regions := Check_Regions p;
     Check_UpCodes := Check_UpCodes p;
     Check_UpConfirmationsThreshold := Check_UpConfirmationsThreshold p;
     Check_DownConfirmationsThreshold := Check_DownConfirmationsThreshold p |}.

Definition with_Regions (v : list string) (p : Check) : Check :=
  {| Check_Ident := Check_Ident p; Check_Name := Check_Name p;
     Check_Protocol := Check_Protocol p; Check_Resource := Check_Resource p;
     Check_Method := Check_Method p; Check_Interval := Check_Interval p;
     Check_Target := Check_Target p; Check_Regions := v;
     Check_UpCodes := Check_UpCodes p;
     Check_UpConfirmationsThreshold := Check_UpConfirmationsThreshold p;
     Check_DownConfirmationsThreshold := Check_DownConfirmationsThreshold p |}.

Definition with_UpCodes (v : string) (p : Check) : Check :=
  {| Check_Ident := Check_Ident p; Check_Name := Check_Name p;
     Check_Protocol := Check_Protocol p; Check_Resource := Check_Resource p;
     Check_Method := Check_Method p; Check_Interval := Check_Interval p;
     Check_Target := Check_Target p; Check_Regions := Check_Regions p;
     Check_UpCodes := v;
     Check_UpConfirmationsThreshold := Check_UpConfirmationsThreshold p;
     Check_DownConfirmationsThreshold := Check_DownConfirmationsThreshold p |}.

Definition with_UpConfirmationsThreshold (v : Z) (p : Check) : Check :=
  {| Check_Ident := Check_Ident p; Check_Name := Check_Name p;
     Check_Protocol := Check_Protocol p; Check_Resource := Check_Resource p;
     Check_Method := Check_Method p; Check_Interval := Check_Interval p;
     Check_Target := Check_Target p; Check_Regions := Check_Regions p;
     Check_UpCodes := Check_UpCodes p;
     Check_UpConfirmationsThreshold := v;
     Check_DownConfirmationsThreshold := Check_DownConfirmationsThreshold p |}.

Definition with_DownConfirmationsThreshold (v : Z) (p : Check) : Check :=
  {| Check_Ident := Check_Ident p; Check_Name := Check_Name p;
     Check_Protocol := Check_Protocol p; Check_Resource := Check_Resource p;
     Check_Method := Check_Method p; Check_Interval := Check_Interval p;
     Check_Target := Check_Target p; Check_Regions := Check_Regions p;
     Check_UpCodes := Check_UpCodes p;
     Check_UpConfirmationsThreshold := Check_UpConfirmationsThreshold p;
     Check_DownConfirmationsThreshold := v |}.

(** ** [constructCheckPayload] *)

(** The protocol of a resource string: the expression
    [strings.ToUpper(strings.Split(v, ":")[0])] of [constructCheckPayload]. *)
Definition derived_protocol (resource : string) : string :=
  strings_ToUpper (index (strings_Split resource ":") 0).


(** A payload under construction together with the error, if any, that ended
    the construction: Go's [(binocs.Check, error)]. *)
Definition building : Type := Check * option error.

(** Run the next statement unless an earlier one has returned. *)
Definition and_then (b : building) (next : Check -> building) : building :=
  match b with
  | (payload, None) => next payload
  | (payload, Some err) => (payload, Some err)
  end.

Notation "'do' p '<-' b ';' k" := (and_then b (fun p => k))
  (at level 10, p name, b at level 100, k at level 200).

(** [if v, ok := d.GetOk(key); ok { payload.F = v }]. *)
Definition copy_field (d : ResourceData) (key : string)
  (assign : value -> Check -> Check) (payload : Check) : building :=
  match GetOk d key with
  | Some v => (assign v payload, None)
  | None => (payload, None)
  end.

Definition is_HTTP_or_HTTPS (payload : Check) : bool :=
  String.eqb (Check_Protocol payload) protocolHTTP
  || String.eqb (Check_Protocol payload) protocolHTTPS.

Definition constructCheckPayload (d : ResourceData) : building :=
  let payload := Check_zero in
  do payload <- copy_field d "name" (fun v => with_Name (as_string v)) payload;
  do payload <-
    copy_field d "resource"
      (fun v p =>
         with_Protocol (derived_protocol (as_string v))
           (with_Resource (as_string v) p))
      payload;
  do payload <-
    (if is_HTTP_or_HTTPS payload then
       match GetOk d "method" with
       | Some v => (with_Method (as_string v) payload, None)
       | None =>
           (payload,
            Some ("expected " +:+ dquote +:+ "method" +:+ dquote +:+ " to be one of "
                  +:+ strings_Join supportedHTTPMethods ", " +:+ " for a "
                  +:+ Check_Protocol payload +:+ " resource"))
       end
     else
       match GetOk d "method" with
       | Some _ =>
           (payload,
            Some (dquote +:+ "method" +:+ dquote +:+ " cannot be used with a "
                  +:+ Check_Protocol payload +:+ " resource"))
       | None => (payload, None)
       end);
  do payload <- copy_field d "interval" (fun v => with_Interval (as_int v)) payload;
  do payload <- copy_field d "target" (fun v => with_Target (as_float v)) payload;
  do payload <-
    copy_field d "regions" (fun v => with_Regions (Set_List (as_set (Some v)))) payload;
  do payload <-
    (if is_HTTP_or_HTTPS payload then
       match GetOk d "up_codes" with
       | Some v => (with_UpCodes (as_string v) payload, None)
       | None =>
           (payload,
            Some ("expected " +:+ dquote +:+ "up_codes" +:+ dquote
                  +:+ " to be set for a " +:+ Check_Protocol payload +:+ " resource"))
       end
     else
       match GetOk d "up_codes" with
       | Some _ =>
           (payload,
            Some (dquote +:+ "up_codes" +:+ dquote +:+ " cannot be used with a "
                  +:+ Check_Protocol payload +:+ " resource"))
       | None => (payload, None)
       end);
  do payload <-
    copy_field d "up_confirmations_threshold"
      (fun v => with_UpConfirmationsThreshold (as_int v)) payload;
  do payload <-
    copy_field d "down_confirmations_threshold"
      (fun v => with_DownConfirmationsThreshold (as_int v)) payload;
  (payload, None).

(** ** The API client and the state of an operation *)

(** The remote service is a state [World] that every call may read and
    change; a call returns its result and the next state. *)
Record Client (World : Type) : Type := {
  Checks_Create : Check -> World -> result Check * World;
  Checks_Read : string -> World -> result Check * World;
  Checks_Update : string -> Check -> World -> option error * World;
  Checks_Delete : string -> World -> option error * World;
  Channels_Create : Channel -> World -> result Channel * World;
  Channels_Read : string -> World -> result Channel * World;
  Channels_Update : string -> Channel -> World -> option error * World;
  Channels_Delete : string -> World -> option error * World;
  Channels_Attach : string -> string -> World -> option error * World;
  Channels_Detach : string -> string -> World -> option error * World;
}.
Arguments Checks_Create {World}.
Arguments Checks_Read {World}.
Arguments Checks_Update {World}.
Arguments Checks_Delete {World}.
Arguments Channels_Create {World}.
Arguments Channels_Read {World}.
Arguments Channels_Update {World}.
Arguments Channels_Delete {World}.
Arguments Channels_Attach {World}.
Arguments Channels_Detach {World}.

(** The calls made to the client, logged in the order they are issued. *)
Inductive Call : Type :=
| CallChecksCreate (payload : Check)
| CallChecksRead (ident : string)
| CallChecksUpdate (ident : string) (payload : Check)
| CallChecksDelete (ident : string)
| CallChannelsCreate (payload : Channel)
| CallChannelsRead (ident : string)
| CallChannelsUpdate (ident : string) (payload : Channel)
| CallChannelsDelete (ident : string)
| CallChannelsAttach (channel check : string)
| CallChannelsDetach (channel check : string).

(** What a CRUD function works on: the resource data [d] it may modify, the
    remote service, and the log of the calls made so far. *)
Record St (World : Type) : Type := {
  data : ResourceData;
  world : World;
  calls : list Call;
}.
Arguments data {World}.
Arguments world {World}.
Arguments calls {World}.

Definition M (World A : Type) : Type := St World -> A * St World.

#[global] Instance M_ret {World} : MRet (M World) := fun A a st => (a, st).

#[global] Instance M_bind {World} : MBind (M World) :=
  fun A B f m st => let '(a, st') := m st in f a st'.

Section Bridge.
Variable World : Type.
Variable client : Client World.

(** A call to the client: run it on the remote state and log it. *)
Definition remote {A : Type} (c : Call) (op : World -> A * World) : M World A :=
  fun st =>
    let '(a, w) := op (world st) in
    (a, {| data := data st; world := w; calls := calls st ++ [c] |}).

(** An access to the resource data. *)
Definition on_data {A : Type} (f : ResourceData -> A * ResourceData) : M World A :=
  fun st =>
    let '(a, d) := f (data st) in
    (a, {| data := d; world := world st; calls := calls st |}).

Definition d_Id : M World string := on_data (fun d => (Id d, d)).
Definition d_SetId (v : string) : M World unit := on_data (fun d => (tt, SetId v d)).
Definition d_Set (key : string) (v : value) : M World (option error) :=
  on_data (Set_ key v).
Definition d_GetOk (key : string) : M World (option value) :=
  on_data (fun d => (GetOk d key, d)).

(** The loop [for k, v := range map { if err := d.Set(k, v); err != nil
    { return err } }]. *)
Fixpoint set_all (kvs : list (string * value)) : M World (option error) :=
  match kvs with
  | [] => mret None
  | (k, v) :: rest =>
      err ← d_Set k v;
      match err with
      | Some e => mret (Some e)
      | None => set_all rest
      end
  end.

(** *** The check resource *)

Definition checkRead : M World (option error) :=
  ident ← d_Id;
  r ← remote (CallChecksRead ident) (Checks_Read client ident);
  match r with
  | Err err => mret (Some ("unable to read Binocs check: " +:+ err))
  | Ok check =>
      set_all [
        ("name", VString (Check_Name check));
        ("resource", VString (Check_Resource check));
        ("method", VString (Check_Method check));
        ("interval", VInt (Check_Interval check));
        ("target", VFloat (Check_Target check));
        ("regions", VList (Check_Regions check));
        ("up_codes", VString (Check_UpCodes check));
        ("up_confirmations_threshold", VInt (Check_UpConfirmationsThreshold check));
        ("down_confirmations_threshold", VInt (Check_DownConfirmationsThreshold check))
      ]
  end.

Definition checkCreate : M World (option error) :=
  b ← on_data (fun d => (constructCheckPayload d, d));
  match b with
  | (_, Some err) => mret (Some err)
  | (payload, None) =>
      r ← remote (CallChecksCreate payload) (Checks_Create client payload);
      match r with
      | Err err => mret (Some ("unable to create Binocs check: " +:+ err))
      | Ok check =>
          _ ← d_SetId (Check_Ident check);
          checkRead
      end
  end.

Definition checkExists : M World (bool * option error) :=
  err ← checkRead;
  match err with
  | Some e =>
      if strings_Contains e "404"
      then _ ← d_SetId EmptyString; mret (false, None)
      else mret (false, Some e)
  | None => mret (true, None)
  end.

Definition checkUpdate : M World (option error) :=
  b ← on_data (fun d => (constructCheckPayload d, d));
  match b with
  | (_, Some err) => mret (Some err)
  | (payload, None) =>
      ident ← d_Id;
      err ← remote (CallChecksUpdate ident payload) (Checks_Update client ident payload);
      match err with
      | Some e => mret (Some ("unable to update Binocs check: " +:+ e))
      | None => mret None
      end
  end.

Definition checkDelete : M World (option error) :=
  ident ← d_Id;
  err ← remote (CallChecksDelete ident) (Checks_Delete client ident);
  match err with
  | Some e => mret (Some ("unable to remove Binocs check: " +:+ e))
  | None => mret None
  end.

(** *** The channel resource ([resource_channel.go]) *)

Definition constructChannelPayload (d : ResourceData) : Channel * option error :=
  let payload := Channel_zero in
  let payload :=
    match GetOk d "type" with
    | Some v =>
        {| Channel_Ident := Channel_Ident payload; Channel_Type := as_string v;
           Channel_Handle := Channel_Handle payload;
           Channel_Alias := Channel_Alias payload;
           Channel_Checks := Channel_Checks payload |}
    | None => payload
    end in
  let payload :=
    match GetOk d "handle" with
    | Some v =>
        {| Channel_Ident := Channel_Ident payload; Channel_Type := Channel_Type payload;
           Channel_Handle := as_string v;
           Channel_Alias := Channel_Alias payload;
           Channel_Checks := Channel_Checks payload |}
    | None => payload
    end in
  let payload :=
    match GetOk d "alias" with
    | Some v =>
        {| Channel_Ident := Channel_Ident payload; Channel_Type := Channel_Type payload;
           Channel_Handle := Channel_Handle payload;
           Channel_Alias := as_string v;
           Channel_Checks := Channel_Checks payload |}
    | None => payload
    end in
  (payload, None).

Definition channelRead : M World (option error) :=
  ident ← d_Id;
  r ← remote (CallChannelsRead ident) (Channels_Read client ident);
  match r with
  | Err err => mret (Some ("unable to read Binocs channel: " +:+ err))
  | Ok channel =>
      set_all [
        ("type", VString (Channel_Type channel));
        ("handle", VString (Channel_Handle channel));
        ("alias", VString (Channel_Alias channel));
        ("checks", VList (Channel_Checks channel))
      ]
  end.

(** The loop of [channelCreate] over the checks to attach; the channel
    identifier is the one the create call returned. *)
Fixpoint create_attach_loop (ident : string) (checksSlice : list string)
  : M World (option error) :=
  match checksSlice with
  | [] => mret None
  | check :: rest =>
      err ← remote (CallChannelsAttach ident check) (Channels_Attach client ident check);
      match err with
      | Some e =>
          mret (Some ("unable to attach Binocs channel " +:+ fmt_q ident
                      +:+ " to check " +:+ fmt_q check +:+ ": " +:+ e))
      | None => create_attach_loop ident rest
      end
  end.

Definition channelCreate : M World (option error) :=
  b ← on_data (fun d => (constructChannelPayload d, d));
  match b with
  | (_, Some err) => mret (Some err)
  | (payload, None) =>
      r ← remote (CallChannelsCreate payload) (Channels_Create client payload);
      match r with
      | Err err => mret (Some ("unable to create Binocs channel: " +:+ err))
      | Ok channel =>
          _ ← d_SetId (Channel_Ident channel);
          v ← d_GetOk "checks";
          err ←
            match v with
            | Some v => create_attach_loop (Channel_Ident channel) (Set_List (as_set (Some v)))
            | None => mret None
            end;
          match err with
          | Some e => mret (Some e)
          | None => channelRead
          end
      end
  end.

Definition channelExists : M World (bool * option error) :=
  err ← channelRead;
  match err with
  | Some e =>
      if strings_Contains e "404"
      then _ ← d_SetId EmptyString; mret (false, None)
      else mret (false, Some e)
  | None => mret (true, None)
  end.

(** The two loops of [channelUpdate]; each turn reads [d.Id()]. *)
Fixpoint detach_loop (detach : list string) : M World (option error) :=
  match detach with
  | [] => mret None
  | r :: rest =>
      ident ← d_Id;
      err ← remote (CallChannelsDetach ident r) (Channels_Detach client ident r);
      match err with
      | Some e =>
          mret (Some ("unable to detach Binocs channel " +:+ fmt_q ident
                      +:+ " from check " +:+ fmt_q r +:+ ": " +:+ e))
      | None => detach_loop rest
      end
  end.

Fixpoint attach_loop (attach : list string) : M World (option error) :=
  match attach with
  | [] => mret None
  | a :: rest =>
      ident ← d_Id;
      err ← remote (CallChannelsAttach ident a) (Channels_Attach client ident a);
      match err with
      | Some e =>
          mret (Some ("unable to attach Binocs channel " +:+ fmt_q ident
                      +:+ " to check " +:+ fmt_q a +:+ ": " +:+ e))
      | None => attach_loop rest
      end
  end.

Definition channelUpdate : M World (option error) :=
  b ← on_data (fun d => (constructChannelPayload d, d));
  match b with
  | (_, Some err) => mret (Some err)
  | (payload, None) =>
      ident ← d_Id;
      err ← remote (CallChannelsUpdate ident payload) (Channels_Update client ident payload);
      match err with
      | Some e => mret (Some ("unable to update Binocs channel: " +:+ e))
      | None =>
          changed ← on_data (fun d => (HasChange d "checks", d));
          match changed with
          | true =>
              '(o, n) ← on_data (fun d => (GetChange d "checks", d));
              let os := as_set o in
              let ns := as_set n in
              let detach := Set_List (os ∖ ns) in
              let attach := Set_List (ns ∖ os) in
              err ← (if (0 <? length detach)%nat then detach_loop detach else mret None);
              match err with
              | Some e => mret (Some e)
              | None =>
                  if (0 <? length attach)%nat then attach_loop attach else mret None
              end
          | false => mret None
          end
      end
  end.

Definition channelDelete : M World (option error) :=
  ident ← d_Id;
  err ← remote (CallChannelsDelete ident) (Channels_Delete client ident);
  match err with
  | Some e => mret (Some ("unable to remove Binocs channel: " +:+ e))
  | None => mret None
  end.

End Bridge.

Arguments checkRead {World}.
Arguments checkCreate {World}.
Arguments checkExists {World}.
Arguments checkUpdate {World}.
Arguments checkDelete {World}.
Arguments channelRead {World}.
Arguments channelCreate {World}.
Arguments channelExists {World}.
Arguments channelUpdate {World}.
Arguments channelDelete {World}.

(** ** Example configurations of a check *)

(** The fields of the check of the README, as written there. *)
Definition readme_fields (regions : gset string) : gmap string value :=
  list_to_map
    [("name", VString "My website");
     ("resource", VString "https://example.com");
     ("method", VString "GET");
     ("interval", VInt 60);
     ("target", VFloat target_default);
     ("regions", VSet regions);
     ("up_codes", VString "200-302");
     ("up_confirmations_threshold", VInt 3);
     ("down_confirmations_threshold", VInt 2)].

(** The check of the README with its four regions, one of which,
    [us-central-1], is not a supported region. *)
Definition readme_check : ResourceData :=
  {| Id := EmptyString;
     fields := readme_fields {["us-east-1"; "us-west-1"; "us-central-1"; "ap-southeast-1"]};
     prior := ∅ |}.

(** The same check with the three supported regions. *)
Definition https_check : ResourceData :=
  {| Id := EmptyString;
     fields := readme_fields {["us-east-1"; "us-west-1"; "ap-southeast-1"]};
     prior := ∅ |}.

Definition tcp_check : ResourceData :=
  {| Id := EmptyString;
     fields := list_to_map
       [("resource", VString "tcp://db.example.com:5432");
        ("interval", VInt 30);
        ("regions", VSet {["eu-central-1"]})];
     prior := ∅ |}.

(** ** An in-memory service, for the examples *)

(** The stored checks and channels by identifier, and whether the service
    answers at all. *)
Record Memory : Type := {
  stored_checks : gmap string Check;
  stored_channels : gmap string Channel;
  available : bool;
}.

Definition unavailable : error := "503 Service Unavailable".
Definition not_found : error := "404 Not Found".

Definition with_Ident (v : string) (p : Check) : Check :=
  {| Check_Ident := v; Check_Name := Check_Name p;
     Check_Protocol := Check_Protocol p; Check_Resource := Check_Resource p;
     Check_Method := Check_Method p; Check_Interval := Check_Interval p;
     Check_Target := Check_Target p; Check_Regions := Check_Regions p;
     Check_UpCodes := Check_UpCodes p;
     Check_UpConfirmationsThreshold := Check_UpConfirmationsThreshold p;
     Check_DownConfirmationsThreshold := Check_DownConfirmationsThreshold p |}.

Definition put_check (ident : string) (c : Check) (m : Memory) : Memory :=
  {| stored_checks := <[ident := c]> (stored_checks m);
     stored_channels := stored_channels m; available := available m |}.

Definition put_channel (ident : string) (c : Channel) (m : Memory) : Memory :=
  {| stored_checks := stored_checks m;
     stored_channels := <[ident := c]> (stored_channels m);
     available := available m |}.

Definition channel_with (ident : string) (checks : list string) (c : Channel) : Channel :=
  {| Channel_Ident := ident; Channel_Type := Channel_Type c;
     Channel_Handle := Channel_Handle c; Channel_Alias := Channel_Alias c;
     Channel_Checks := checks |}.

Definition memory_client : Client Memory := {|
  Checks_Create := fun payload m =>
    if available m then
      let ident := "check-" +:+ fmt_d (Z.of_nat (size (stored_checks m))) in
      let c := with_Ident ident payload in
      (Ok c, put_check ident c m)
    else (Err unavailable, m);
  Checks_Read := fun ident m =>
    if available m then
      match stored_checks m !! ident with
      | Some c => (Ok c, m)
      | None => (Err not_found, m)
      end
    else (Err unavailable, m);
  Checks_Update := fun ident payload m =>
    if available m then
      match stored_checks m !! ident with
      | Some _ => (None, put_check ident (with_Ident ident payload) m)
      | None => (Some not_found, m)
      end
    else (Some unavailable, m);
  Checks_Delete := fun ident m =>
    if available m then
      (None, {| stored_checks := delete ident (stored_checks m);
                stored_channels := stored_channels m; available := true |})
    else (Some unavailable, m);
  Channels_Create := fun payload m =>
    if available m then
      let ident := "channel-" +:+ fmt_d (Z.of_nat (size (stored_channels m))) in
      let c := channel_with ident [] payload in
      (Ok c, put_channel ident c m)
    else (Err unavailable, m);
  Channels_Read := fun ident m =>
    if available m then
      match stored_channels m !! ident with
      | Some c => (Ok c, m)
      | None => (Err not_found, m)
      end
    else (Err unavailable, m);
  Channels_Update := fun ident payload m =>
    if available m then
      match stored_channels m !! ident with
      | Some c => (None, put_channel ident (channel_with ident (Channel_Checks c) payload) m)
      | None => (Some not_found, m)
      end
    else (Some unavailable, m);
  Channels_Delete := fun ident m =>
    if available m then
      (None, {| stored_checks := stored_checks m;
                stored_channels := delete ident (stored_channels m);
                available := true |})
    else (Some unavailable, m);
  Channels_Attach := fun ident check m =>
    if available m then
      match stored_channels m !! ident with
      | Some c =>
          (None,
           put_channel ident
             (channel_with ident
                (if stringInSlice check (Channel_Checks c) then Channel_Checks c
                 else Channel_Checks c ++ [check]) c) m)
      | None => (Some not_found, m)
      end
    else (Some unavailable, m);
  Channels_Detach := fun ident check m =>
    if available m then
      match stored_channels m !! ident with
      | Some c =>
          (None,
           put_channel ident
             (channel_with ident
                (filter (fun k => k ≠ check) (Channel_Checks c)) c) m)
      | None => (Some not_found, m)
      end
    else (Some unavailable, m);
|}.

Definition empty_memory : Memory :=
  {| stored_checks := ∅; stored_channels := ∅; available := true |}.

Definition down_memory : Memory :=
  {| stored_checks := ∅; stored_channels := ∅; available := false |}.

(** Resource data holding the given identifier and fields, with no prior
    state, in front of a service, before any call. *)
Definition start {World : Type} (ident : string) (config old : list (string * value))
  (w : World) : St World :=
  {| data := {| Id := ident; fields := list_to_map config; prior := list_to_map old |};
     world := w; calls := [] |}.

(** The state once the data are [d], the service is in state [w] and the
    calls [c] have been added to the log of [st]. *)
Definition after {World : Type} (st : St World) (d : ResourceData) (w : World)
  (c : list Call) : St World :=
  {| data := d; world := w; calls := calls st ++ c |}.

(** The creation of the HTTPS check above, in front of a service in state
    [w]. *)
Definition create_https_check (w : Memory) : St Memory :=
  {| data := https_check; world := w; calls := [] |}.

(** A channel update that changes the checks from {A, B} to {B, C}, in
    front of a service in state [w]. *)
Definition update_AB_to_BC (w : Memory) : St Memory :=
  start "channel-0"
    [("type", VString "email"); ("handle", VString "ops@example.com");
     ("checks", VSet {["B"; "C"]})]
    [("checks", VSet {["A"; "B"]})]
    w.

(** A service that holds the channel with the checks A and B. *)
Definition memory_with_channel : Memory :=
  put_channel "channel-0" (channel_with "channel-0" ["A"; "B"] Channel_zero)
    empty_memory.

(** How often a detach (attach) call for a check is due: once when the
    check is in the set of removed (added) checks, never otherwise. *)
Definition due (check : string) (s : gset string) : nat :=
  if decide (check ∈ s) then 1%nat else 0%nat.

(** ** Counting the calls of a log *)

Definition is_detach_of (check : string) (c : Call) : bool :=
  match c with
  | CallChannelsDetach _ k => String.eqb k check
  | _ => false
  end.

Definition is_attach_of (check : string) (c : Call) : bool :=
  match c with
  | CallChannelsAttach _ k => String.eqb k check
  | _ => false
  end.

Definition count_calls (p : Call -> bool) (log : list Call) : nat :=
  length (List.filter p log).

(** How often a check occurs in a list of checks. *)
Definition occurrences (check : string) (l : list string) : nat :=
  length (List.filter (fun k => String.eqb k check) l).

(** The channel an attach or detach call names, if the call is one. *)
Definition link_channel (c : Call) : option string :=
  match c with
  | CallChannelsAttach ch _ | CallChannelsDetach ch _ => Some ch
  | _ => None
  end.

(** ** What the payload builders read from the resource data *)

(** The value [constructCheckPayload] copies for a key: the one [GetOk]
    returns, or the zero value of the payload field when [GetOk] reports
    that the key is not set. *)
Definition configured_string (d : ResourceData) (key : string) : string :=
  match GetOk d key with Some v => as_string v | None => EmptyString end.

Definition configured_int (d : ResourceData) (key : string) : Z :=
  match GetOk d key with Some v => as_int v | None => 0 end.

Definition configured_float (d : ResourceData) (key : string) : float :=
  match GetOk d key with Some v => as_float v | None => 0%float end.

Definition configured_list (d : ResourceData) (key : string) : list string :=
  match GetOk d key with Some v => Set_List (as_set (Some v)) | None => [] end.

(** A string of ASCII bytes only. *)
Definition is_ascii (s : string) : bool :=
  forallb (fun c => byte_val c <? 128) (list_ascii_of_string s).

(** The protocol derived from the configured resource. *)
Definition configured_protocol (d : ResourceData) : string :=
  derived_protocol (configured_string d "resource").

(** The test [payload.Protocol == protocolHTTP || payload.Protocol ==
    protocolHTTPS], on a protocol. *)
Definition is_http_protocol (p : string) : bool :=
  String.eqb p protocolHTTP || String.eqb p protocolHTTPS.

(** The [ok] of [d.GetOk(key)]. *)
Definition is_set (d : ResourceData) (key : string) : bool :=
  match GetOk d key with Some _ => true | None => false end.

(** The keys [checkRead] and [channelRead] write. *)
Definition check_keys : list string :=
  ["name"; "resource"; "method"; "interval"; "target"; "regions"; "up_codes";
   "up_confirmations_threshold"; "down_confirmations_threshold"].

Definition channel_keys : list string := ["type"; "handle"; "alias"; "checks"].

(** ** What the read operations write to the resource data, and more
    examples in front of the in-memory service *)

(** The field values once [checkRead] has written the nine values of the
    remote check [c] over the values [m]. *)
Definition check_fields (c : Check) (m : gmap string value) : gmap string value :=
  <["down_confirmations_threshold" := VInt (Check_DownConfirmationsThreshold c)]>
  (<["up_confirmations_threshold" := VInt (Check_UpConfirmationsThreshold c)]>
  (<["up_codes" := VString (Check_UpCodes c)]>
  (<["regions" := VSet (list_to_set (Check_Regions c))]>
  (<["target" := VFloat (Check_Target c)]>
  (<["interval" := VInt (Check_Interval c)]>
  (<["method" := VString (Check_Method c)]>
  (<["resource" := VString (Check_Resource c)]>
  (<["name" := VString (Check_Name c)]> m)))))))).

(** The same for [channelRead] and the remote channel [c]. *)
Definition channel_fields (c : Channel) (m : gmap string value) : gmap string value :=
  <["checks" := VSet (list_to_set (Channel_Checks c))]>
  (<["alias" := VString (Channel_Alias c)]>
  (<["handle" := VString (Channel_Handle c)]>
  (<["type" := VString (Channel_Type c)]> m))).

(** The resource data with other field values. *)
Definition with_fields (m : gmap string value) (d : ResourceData) : ResourceData :=
  {| Id := Id d; fields := m; prior := prior d |}.

(** The state after the HTTPS check of the examples has been created. *)
Definition created_https_check : St Memory :=
  snd (checkCreate memory_client (create_https_check empty_memory)).

(** A TCP check that sets a method. *)
Definition tcp_check_with_method : ResourceData :=
  {| Id := EmptyString;
     fields := list_to_map
       [("resource", VString "tcp://db.example.com:5432");
        ("method", VString "GET");
        ("regions", VSet {["eu-central-1"]})];
     prior := ∅ |}.

(** The creation of that check, in front of a service in state [w]. *)
Definition create_tcp_check_with_method (w : Memory) : St Memory :=
  {| data := tcp_check_with_method; world := w; calls := [] |}.

(** The creation of a channel for the checks A and B. *)
Definition create_channel_AB (w : Memory) : St Memory :=
  start EmptyString
    [("type", VString "email"); ("handle", VString "ops@example.com");
     ("checks", VSet {["A"; "B"]})]
    []
    w.

(** The state after that channel has been created. *)
Definition created_channel_AB : St Memory :=
  snd (channelCreate memory_client (create_channel_AB empty_memory)).

(** The payload of the HTTPS check of the examples, and the check the
    service stores for it. *)
Definition https_payload : Check := fst (constructCheckPayload https_check).

Definition stored_https_check : Check := with_Ident "check-0" https_payload.

(** The payload of the channel for A and B, and the channel the service
    holds once both checks are attached. *)
Definition channel_AB_payload : Channel :=
  fst (constructChannelPayload (data (create_channel_AB empty_memory))).

Definition stored_channel_AB : Channel :=
  channel_with "channel-0" (Set_List {["A"; "B"]}) channel_AB_payload.

(** ** The bytes of the words of a regular expression *)

(** The bytes the classes of a regular expression let through: the only
    bytes a word of its language is made of. *)
Fixpoint in_alphabet (r : regex) (c : ascii) : bool :=
  match r with
  | NoMatch | EmptyMatch => false
  | CharClass ranges => in_class ranges c
  | Concat r1 r2 | Alternate r1 r2 => in_alphabet r1 c || in_alphabet r2 c
  | Star r1 => in_alphabet r1 c
  end.

(** A letter, a digit or an underscore; and the bytes of a DNS name: these,
    the hyphen and the dot. *)
Definition is_word_byte (c : ascii) : bool := is_alnum c || Ascii.eqb c "_".

Definition is_dns_byte (c : ascii) : bool :=
  is_word_byte c || Ascii.eqb c "-" || Ascii.eqb c ".".

(** * Theorems *)

(** ** The models of the library functions on sample inputs *)

Example Split_samples :
  strings_Split "example.com:80" ":" = ["example.com"; "80"]
  /\ strings_Split "::1:80" ":" = [EmptyString; EmptyString; "1"; "80"]
  /\ strings_Split "host" ":" = ["host"]
  /\ strings_Split EmptyString ":" = [EmptyString].
Proof. repeat split. Qed.

Example Atoi_samples :
  strconv_Atoi "443" = Ok 443
  /\ strconv_Atoi "+80" = Ok 80
  /\ strconv_Atoi "-1" = Ok (-1)
  /\ strconv_Atoi "0080" = Ok 80
  /\ strconv_Atoi "9223372036854775807" = Ok 9223372036854775807
  /\ (exists e, strconv_Atoi "9223372036854775808" = Err e)
  /\ (exists e, strconv_Atoi "80a" = Err e)
  /\ (exists e, strconv_Atoi EmptyString = Err e)
  /\ (exists e, strconv_Atoi "+" = Err e).
Proof. repeat split; try (eexists; vm_compute; reflexivity); vm_compute; reflexivity. Qed.

Example ParseIP_samples :
  net_ParseIP "192.0.2.1" = Some (v4InV6Prefix ++ [192; 0; 2; 1])
  /\ net_ParseIP "::1" = Some (repeat 0 15 ++ [1])
  /\ net_ParseIP "2001:db8::68" = Some [32; 1; 13; 184; 0; 0; 0; 0; 0; 0; 0; 0; 0; 0; 0; 104]
  /\ net_ParseIP "::ffff:192.0.2.1" = Some (v4InV6Prefix ++ [192; 0; 2; 1])
  /\ net_ParseIP "192.0.2" = None
  /\ net_ParseIP "192.0.2.256" = None
  /\ net_ParseIP "192.0.02.1" = None
  /\ net_ParseIP "1:2:3:4:5:6:7:8:9" = None
  /\ net_ParseIP "[::1]" = None
  /\ net_ParseIP "example.com" = None.
Proof. repeat split; vm_compute; reflexivity. Qed.

Example isDNSName_samples :
  isDNSName "example.com" = true
  /\ isDNSName "db_1.internal." = true
  /\ isDNSName "localhost" = true
  /\ isDNSName "-example.com" = false
  /\ isDNSName "example..com" = false
  /\ isDNSName "exa mple.com" = false
  /\ isDNSName "192.0.2.1" = false
  /\ isDNSName EmptyString = false.
Proof. repeat split; vm_compute; reflexivity. Qed.

Example url_Parse_samples :
  url_Parse "https://example.com/a%20b?x=1#top"
  = Ok {| Scheme := "https"; Opaque := EmptyString; User := None;
          Host := "example.com"; Path := "/a b"; ForceQuery := false;
          RawQuery := "x=1"; Fragment := "top" |}
  /\ url_Parse "HTTP://user:pw@[::1]:8080/"
     = Ok {| Scheme := "http"; Opaque := EmptyString;
             User := Some ("user", Some "pw");
             Host := "[::1]:8080"; Path := "/"; ForceQuery := false;
             RawQuery := EmptyString; Fragment := EmptyString |}
  /\ url_Parse "http:example.com"
     = Ok {| Scheme := "http"; Opaque := "example.com"; User := None;
             Host := EmptyString; Path := EmptyString; ForceQuery := false;
             RawQuery := EmptyString; Fragment := EmptyString |}
  /\ url_Parse "http://exa mple.com"
     = Err (url_Error "parse" "http://exa mple.com"
              ("invalid character " +:+ fmt_q " " +:+ " in host name"))
  /\ url_Parse "http://example.com:80a/"
     = Err (url_Error "parse" "http://example.com:80a/"
              ("invalid port " +:+ fmt_q ":80a" +:+ " after host"))
  /\ url_Parse ":80"
     = Err (url_Error "parse" ":80" "missing protocol scheme").
Proof. repeat split; vm_compute; reflexivity. Qed.

Example resource_samples :
  resource_ValidateFunc (VString "https://example.com") "resource" = []
  /\ resource_ValidateFunc (VString "tcp://db.example.com:5432") "resource" = []
  /\ resource_ValidateFunc (VString "tcp://192.0.2.1:22") "resource" = []
  /\ resource_ValidateFunc (VString "tcp://example.com:0") "resource"
     = ["expected " +:+ fmt_q "resource"
        +:+ " tcp resource to contain a valid port number"]
  /\ resource_ValidateFunc (VString "tcp://exa mple.com:http") "resource"
     = ["expected " +:+ fmt_q "resource" +:+ " tcp resource to contain a valid host";
        "expected " +:+ fmt_q "resource" +:+ " tcp resource to contain a port number"]
  /\ resource_ValidateFunc (VString "http:/example.com") "resource"
     = ["expected " +:+ fmt_q "resource" +:+ " to have a host, got http:/example.com"]
  /\ resource_ValidateFunc (VString "ftp://example.com") "resource"
     = ["expected " +:+ fmt_q "resource" +:+ " to be either TCP or HTTP(S) resource"].
Proof. repeat split; vm_compute; reflexivity. Qed.

(** The check of the README does not pass validation: its region
    [us-central-1] is not supported, and that one element is what the single
    error is about. *)
Example readme_check_is_rejected :
  schemaMap_Validate checkResource_Schema (fields readme_check) = [region_error]
  /\ schemaMap_Validate checkResource_Schema (fields https_check) = [].
Proof. split; vm_compute; reflexivity. Qed.

(** ** Integers and region names *)

(** C9: the interval validator accepts an integer exactly when it lies in
    the inclusive range 5..900; 4 and 901 are rejected and 900 is
    accepted. *)
Theorem interval_accepted_iff_in_range :
  (forall (v : Z) (k : string),
      accepts interval_ValidateFunc (VInt v) k = true <-> 5 <= v <= 900)
  /\ accepts interval_ValidateFunc (VInt 4) "interval" = false
  /\ accepts interval_ValidateFunc (VInt 900) "interval" = true
  /\ accepts interval_ValidateFunc (VInt 901) "interval" = false.
Proof.
  split; [| repeat split; reflexivity].
  intros v k. unfold accepts, interval_ValidateFunc, validation_IntBetween.
  destruct (v <? 5) eqn:Hlo; destruct (v >? 900) eqn:Hhi; simpl;
    rewrite ?Z.ltb_lt, ?Z.ltb_ge, ?Z.gtb_gt in Hlo;
    rewrite Z.gtb_ltb in Hhi; rewrite ?Z.ltb_lt, ?Z.ltb_ge in Hhi;
    split; intros; try discriminate; try lia; reflexivity.
Qed.

Lemma stringInSlice_In (s : string) (l : list string) :
  stringInSlice s l = true <-> In s l.
Proof.
  induction l as [| h t IH]; simpl.
  - split; [discriminate | tauto].
  - destruct (String.eqb s h) eqn:E.
    + apply String.eqb_eq in E. subst. tauto.
    + apply String.eqb_neq in E. rewrite IH. split; [tauto |].
      intros [H | H]; [congruence | exact H].
Qed.

(** C8, the claim as stated fails: the unknown region [mars-1] is rejected,
    but no error the validator returns contains that value. *)
Lemma region_error_does_not_name_the_value :
  accepts regions_Elem_ValidateFunc (VString "mars-1") "regions.0" = false
  /\ existsb (fun e => strings_Contains e "mars-1")
       (regions_Elem_ValidateFunc (VString "mars-1") "regions.0") = false.
Proof. split; vm_compute; reflexivity. Qed.

(** C8 (amended): an element of the regions set is accepted exactly when it
    is one of the eleven supported regions; every other string is rejected
    with one and the same error, which names the field and lists the
    supported regions; and the elements of a set are judged one by one, each
    unknown element adding one error. *)
Theorem region_accepted_iff_supported :
  length supportedRegions = 11%nat
  /\ (forall v k : string,
        accepts regions_Elem_ValidateFunc (VString v) k = true
        <-> In v supportedRegions)
  /\ (forall v k : string,
        regions_Elem_ValidateFunc (VString v) k
        = if stringInSlice v supportedRegions then [] else [region_error])
  /\ (forall (key : string) (i : Z) (elems : list string),
        elems_errors regions_Elem_ValidateFunc key i elems
        = map (fun _ => region_error)
            (List.filter (fun e => negb (stringInSlice e supportedRegions)) elems)).
Proof.
  assert (Hone : forall v k : string,
             regions_Elem_ValidateFunc (VString v) k
             = if stringInSlice v supportedRegions then [] else [region_error]).
  { intros v k. unfold regions_Elem_ValidateFunc.
    destruct (stringInSlice v supportedRegions); reflexivity. }
  split; [reflexivity |]. split; [| split; [exact Hone |]].
  - intros v k. rewrite <- stringInSlice_In. unfold accepts. rewrite Hone.
    destruct (stringInSlice v supportedRegions); split; congruence.
  - intros key i elems. revert i.
    induction elems as [| e rest IH]; intros i; [reflexivity |].
    cbn [elems_errors List.filter]. rewrite Hone, IH.
    destruct (stringInSlice e supportedRegions); reflexivity.
Qed.

(** ** Facts about strings *)

Lemma append_cons (x : ascii) (a b : string) :
  String x a +:+ b = String x (a +:+ b).
Proof. reflexivity. Qed.

Lemma append_nil_l (b : string) : EmptyString +:+ b = b.
Proof. reflexivity. Qed.

(** [simpl], with the two equations of [+:+]. *)
Ltac ssimpl :=
  simpl; repeat (first [rewrite append_cons | rewrite append_nil_l]; simpl).

Tactic Notation "ssimpl" "in" hyp(H) :=
  simpl in H; repeat (first [rewrite append_cons in H | rewrite append_nil_l in H]; simpl in H).

Lemma append_assoc (a b c : string) : (a +:+ b) +:+ c = a +:+ (b +:+ c).
Proof. induction a as [| x a IH]; [reflexivity |]. ssimpl. by rewrite IH. Qed.

Lemma append_nil_r (a : string) : a +:+ EmptyString = a.
Proof. induction a as [| x a IH]; [reflexivity |]. ssimpl. by rewrite IH. Qed.

Lemma HasPrefix_inv (s p : string) :
  strings_HasPrefix s p = true -> exists t : string, s = p +:+ t.
Proof.
  revert s. induction p as [| c p IH]; intros s H.
  - exists s. reflexivity.
  - destruct s as [| b s]; [discriminate |]. simpl in H.
    apply andb_true_iff in H as [Hb Hp]. apply Ascii.eqb_eq in Hb. subst b.
    destruct (IH s Hp) as [t ->]. exists t. reflexivity.
Qed.

Lemma HasPrefix_append (p t : string) : strings_HasPrefix (p +:+ t) p = true.
Proof.
  induction p as [| c p IH]; [reflexivity |]. ssimpl. by rewrite Ascii.eqb_refl, IH.
Qed.

Lemma contains_byte_append (a b : string) (c : ascii) :
  contains_byte (a +:+ b) c = contains_byte a c || contains_byte b c.
Proof.
  induction a as [| x a IH]; [reflexivity |]. ssimpl. rewrite IH. by rewrite orb_assoc.
Qed.

Lemma Split_not_nil (s : string) (sep : ascii) : strings_Split s sep <> [].
Proof.
  induction s as [| c s IH]; simpl; [discriminate |].
  destruct (Ascii.eqb c sep); [discriminate |].
  destruct (strings_Split s sep); [contradiction | discriminate].
Qed.

(** A string without the separator is its own single piece. *)
Lemma Split_without_sep (a : string) (sep : ascii) :
  contains_byte a sep = false -> strings_Split a sep = [a].
Proof.
  induction a as [| c a IH]; [reflexivity |]. simpl.
  intros H. apply orb_false_iff in H as [Hc Ha].
  rewrite Hc, (IH Ha). reflexivity.
Qed.

(** The first separator ends the first piece. *)
Lemma Split_at_first_sep (a b : string) (sep : ascii) :
  contains_byte a sep = false ->
  strings_Split (a +:+ String sep b) sep = a :: strings_Split b sep.
Proof.
  induction a as [| c a IH]; simpl.
  - intros _. by rewrite Ascii.eqb_refl.
  - intros H. apply orb_false_iff in H as [Hc Ha].
    rewrite Hc, (IH Ha). reflexivity.
Qed.

(** The pieces of a split, put together again. *)
Lemma Split_head (s : string) (sep : ascii) :
  exists (a : string) (rest : list string),
    strings_Split s sep = a :: rest
    /\ contains_byte a sep = false
    /\ (rest = [] -> s = a)
    /\ (forall (b : string) (more : list string),
          rest = b :: more ->
          exists t : string, s = a +:+ String sep t /\ strings_Split t sep = b :: more).
Proof.
  induction s as [| c s (a & rest & Hs & Ha & Hone & Hmore)].
  - exists EmptyString, []. simpl. repeat split; try reflexivity. discriminate.
  - simpl. destruct (Ascii.eqb c sep) eqn:Hc.
    + apply Ascii.eqb_eq in Hc. subst c.
      exists EmptyString, (a :: rest). rewrite Hs. repeat split.
      * discriminate.
      * intros b more [= <- <-]. exists s. split; [reflexivity | exact Hs].
    + rewrite Hs. exists (String c a), rest. simpl. rewrite Hc, Ha.
      repeat split.
      * intros Hr. by rewrite (Hone Hr).
      * intros b more Hr. destruct (Hmore b more Hr) as (t & -> & Ht).
        exists t. split; [reflexivity | exact Ht].
Qed.

(** A split into exactly two pieces: the string is the first piece, the
    separator and the second piece, and neither piece holds a separator. *)
Lemma Split_two (s a b : string) (sep : ascii) :
  strings_Split s sep = [a; b]
  <-> s = a +:+ String sep b
      /\ contains_byte a sep = false /\ contains_byte b sep = false.
Proof.
  split.
  - intros H. destruct (Split_head s sep) as (a' & rest & Hs & Ha & _ & Hmore).
    rewrite H in Hs. injection Hs as <- <-.
    destruct (Hmore b [] eq_refl) as (t & -> & Ht).
    destruct (Split_head t sep) as (b' & rest' & Ht' & Hb & Hone & _).
    rewrite Ht in Ht'. injection Ht' as <- <-.
    rewrite (Hone eq_refl). auto.
  - intros (-> & Ha & Hb).
    rewrite (Split_at_first_sep a b sep Ha), (Split_without_sep b sep Hb). reflexivity.
Qed.

Lemma slice_to_append (a b : string) : slice_to (String.length a) (a +:+ b) = a.
Proof.
  unfold slice_to. induction a as [| c a IH]; ssimpl.
  - destruct b; reflexivity.
  - by rewrite IH.
Qed.

(** [s[:n]] is a prefix of [s]. *)
Lemma slice_to_prefix (n : nat) (s : string) :
  exists t : string, s = slice_to n s +:+ t.
Proof.
  unfold slice_to. revert n. induction s as [| c s IH]; intros n.
  - exists EmptyString. destruct n; reflexivity.
  - destruct n as [| n]; simpl.
    + exists (String c s). reflexivity.
    + destruct (IH n) as [t Ht]. exists t. rewrite append_cons. by rewrite <- Ht.
Qed.

Lemma upper_lower_byte (c : ascii) : upper_byte (lower_byte c) = upper_byte c.
Proof. destruct c as [[] [] [] [] [] [] [] []]; reflexivity. Qed.

Lemma ToUpper_ToLower (s : string) :
  strings_ToUpper (strings_ToLower s) = strings_ToUpper s.
Proof.
  induction s as [| c s IH]; [reflexivity |]. simpl. by rewrite upper_lower_byte, IH.
Qed.

(** ** The scheme of a parsed URL *)

Lemma scheme_byte_not_colon (c : ascii) : scheme_byte c = true -> Ascii.eqb c ":" = false.
Proof. destruct c as [[] [] [] [] [] [] [] []]; vm_compute; congruence. Qed.

Lemma getScheme_from_spec (pre rest sch tail : string) :
  forallb scheme_byte (list_ascii_of_string pre) = true ->
  getScheme_from (pre +:+ rest) rest (String.length pre) = Ok (sch, tail) ->
  sch <> EmptyString ->
  pre +:+ rest = sch +:+ String ":" tail
  /\ forallb scheme_byte (list_ascii_of_string sch) = true.
Proof.
  revert pre. induction rest as [| c rest IH]; intros pre Hpre H Hne.
  - simpl in H. injection H as <- <-. contradiction.
  - assert (Hstep : (pre +:+ String c EmptyString) +:+ rest = pre +:+ String c rest)
      by (rewrite append_assoc; reflexivity).
    assert (Hlen : String.length (pre +:+ String c EmptyString) = S (String.length pre))
      by (clear; induction pre as [| x pre IHp]; simpl; [reflexivity | by rewrite IHp]).
    assert (Hall : scheme_byte c = true ->
                   forallb scheme_byte
                     (list_ascii_of_string (pre +:+ String c EmptyString)) = true).
    { intros Hc. clear - Hpre Hc. induction pre as [| x pre IHp]; simpl in *.
      - by rewrite Hc.
      - apply andb_true_iff in Hpre as [Hx Hp]. rewrite Hx. simpl. auto. }
    cbn [getScheme_from] in H.
    destruct (is_lower c || is_upper c) eqn:Hletter.
    { rewrite <- Hstep, <- Hlen in H. rewrite <- Hstep.
      apply IH; try assumption. apply Hall. unfold scheme_byte.
      by rewrite Hletter. }
    destruct (is_digit c || byte_among c "+-.") eqn:Hother.
    { destruct (String.length pre =? 0)%nat eqn:Hz.
      - injection H as <- <-. contradiction.
      - rewrite <- Hstep, <- Hlen in H. rewrite <- Hstep.
        apply IH; try assumption. apply Hall. unfold scheme_byte.
        apply orb_false_iff in Hletter as [-> ->].
        apply orb_true_iff in Hother as [-> | ->]; simpl; by rewrite ?orb_true_r. }
    destruct (Ascii.eqb c ":") eqn:Hcolon.
    { destruct (String.length pre =? 0)%nat eqn:Hz; [discriminate |].
      injection H as <- <-. apply Ascii.eqb_eq in Hcolon. subst c.
      rewrite slice_to_append. auto. }
    injection H as <- <-. contradiction.
Qed.

(** A scheme that is not empty is the text before the first colon. *)
Lemma getScheme_spec (rawURL sch tail : string) :
  getScheme rawURL = Ok (sch, tail) ->
  sch <> EmptyString ->
  rawURL = sch +:+ String ":" tail /\ contains_byte sch ":" = false.
Proof.
  intros H Hne.
  destruct (getScheme_from_spec EmptyString rawURL sch tail eq_refl H Hne) as [Heq Hall].
  split; [exact Heq |].
  clear - Hall. induction sch as [| c sch IH]; [reflexivity |]. simpl in *.
  apply andb_true_iff in Hall as [Hc Hs].
  by rewrite (scheme_byte_not_colon c Hc), (IH Hs).
Qed.

(** The scheme of the URL that [url_parse] returns is the lower-cased
    result of [getScheme]. *)
Lemma url_parse_Scheme (rawURL : string) (u : URL) :
  url_parse rawURL = Ok u ->
  Scheme u <> EmptyString ->
  exists sch tail : string,
    getScheme rawURL = Ok (sch, tail) /\ Scheme u = strings_ToLower sch.
Proof.
  unfold url_parse. intros H Hne.
  repeat case_match; simplify_eq; cbn in *; try contradiction; eauto.
Qed.

Lemma url_Parse_Scheme (rawURL : string) (u : URL) :
  url_Parse rawURL = Ok u ->
  Scheme u <> EmptyString ->
  exists sch tail : string,
    rawURL = sch +:+ String ":" tail
    /\ contains_byte sch ":" = false
    /\ Scheme u = strings_ToLower sch.
Proof.
  unfold url_Parse, strings_Cut. intros H Hne.
  assert (Hgoal : forall (u0 : string) (u' : URL),
             (exists t, rawURL = u0 +:+ t) ->
             url_parse u0 = Ok u' -> Scheme u' = Scheme u ->
             exists sch tail : string,
               rawURL = sch +:+ String ":" tail
               /\ contains_byte sch ":" = false
               /\ Scheme u = strings_ToLower sch).
  { intros u0 u' [t Ht] Hp Hs. rewrite <- Hs in Hne |- *.
    destruct (url_parse_Scheme u0 u' Hp Hne) as (sch & tail & Hg & Hsch).
    assert (Hsne : sch <> EmptyString).
    { intros ->. apply Hne. rewrite Hsch. reflexivity. }
    destruct (getScheme_spec u0 sch tail Hg Hsne) as [Hu0 Hc].
    exists sch, (tail +:+ t). rewrite Ht, Hu0, append_assoc. auto. }
  destruct (strings_Index rawURL "#" >=? 0) eqn:Hfound.
  - destruct (url_parse (slice_to _ rawURL)) as [u' | e] eqn:Hp; [| discriminate].
    apply (Hgoal _ u' (slice_to_prefix _ rawURL) Hp).
    repeat case_match; simplify_eq; reflexivity.
  - destruct (url_parse rawURL) as [u' | e] eqn:Hp; [| discriminate].
    apply (Hgoal rawURL u'); [exists EmptyString; by rewrite append_nil_r | exact Hp |].
    repeat case_match; simplify_eq; reflexivity.
Qed.

(** ** The protocol of a validated resource *)

Lemma tcp_resource_protocol (rest : string) :
  derived_protocol ("tcp://" +:+ rest) = protocolTCP.
Proof.
  unfold derived_protocol.
  change ("tcp://" +:+ rest) with ("tcp" +:+ String ":" ("//" +:+ rest)).
  rewrite Split_at_first_sep by reflexivity. reflexivity.
Qed.

Lemma url_resource_protocol (v k : string) :
  accepts validation_IsURLWithHTTPorHTTPS (VString v) k = true ->
  derived_protocol v = protocolHTTP \/ derived_protocol v = protocolHTTPS.
Proof.
  unfold accepts, validation_IsURLWithHTTPorHTTPS, validation_IsURLWithScheme.
  intros H.
  destruct (String.eqb v EmptyString); [discriminate |].
  destruct (url_Parse v) as [u | e] eqn:Hp; [| discriminate].
  destruct (String.eqb (Host u) EmptyString); [discriminate |].
  destruct (existsb (String.eqb (Scheme u)) ["http"; "https"]) eqn:Hs; [| discriminate].
  simpl in Hs.
  assert (Hscheme : Scheme u = "http" \/ Scheme u = "https").
  { destruct (String.eqb (Scheme u) "http") eqn:E1; [apply String.eqb_eq in E1; auto |].
    destruct (String.eqb (Scheme u) "https") eqn:E2; [apply String.eqb_eq in E2; auto |].
    discriminate. }
  assert (Hne : Scheme u <> EmptyString) by (destruct Hscheme as [-> | ->]; discriminate).
  destruct (url_Parse_Scheme v u Hp Hne) as (sch & tail & -> & Hc & Hlow).
  unfold derived_protocol. rewrite (Split_at_first_sep sch tail ":" Hc).
  cbn [index nth]. rewrite <- ToUpper_ToLower, <- Hlow.
  destruct Hscheme as [-> | ->]; [left | right]; reflexivity.
Qed.

Lemma accepted_resource_protocol (v k : string) :
  accepts resource_ValidateFunc (VString v) k = true ->
  derived_protocol v = protocolHTTP
  \/ derived_protocol v = protocolHTTPS
  \/ derived_protocol v = protocolTCP.
Proof.
  intros H. destruct (strings_HasPrefix v "tcp://") eqn:Htcp.
  - destruct (HasPrefix_inv v "tcp://" Htcp) as [rest ->].
    right. right. apply tcp_resource_protocol.
  - unfold accepts, resource_ValidateFunc in H. rewrite Htcp in H.
    destruct (strings_HasPrefix v "http"); [| discriminate].
    destruct (url_resource_protocol v k H); auto.
Qed.

(** ** TCP resources *)

Lemma Count_append (a b : string) (c : ascii) :
  strings_Count (a +:+ b) c = strings_Count a c + strings_Count b c.
Proof.
  induction a as [| x a IH]; [reflexivity |]. ssimpl. rewrite IH. lia.
Qed.

Lemma Count_nonneg (a : string) (c : ascii) : 0 <= strings_Count a c.
Proof. induction a as [| x a IH]; simpl; [lia |]. destruct (Ascii.eqb x c); lia. Qed.

Lemma Count_contains (a : string) (c : ascii) :
  contains_byte a c = (0 <? strings_Count a c).
Proof.
  induction a as [| x a IH]; [reflexivity |]. simpl.
  pose proof (Count_nonneg a c). rewrite IH.
  destruct (Ascii.eqb x c); simpl.
  - symmetry. apply Z.ltb_lt. lia.
  - by rewrite Z.add_0_l.
Qed.

(** Without a colon in the string, [net.ParseIP] can only take it for an
    IPv4 address. *)
Lemma ParseIP_scan_without_colon (s rest : string) :
  contains_byte rest ":" = false ->
  ParseIP_scan s rest = if contains_byte rest "." then parseIPv4 s else None.
Proof.
  induction rest as [| c rest IH]; [reflexivity |]. simpl.
  intros H. apply orb_false_iff in H as [Hc Hr]. rewrite Hc.
  destruct (Ascii.eqb c "."); [reflexivity |]. simpl. auto.
Qed.

Lemma tcp_resource_errors (rest k : string) :
  resource_ValidateFunc (VString ("tcp://" +:+ rest)) k
  = let rc := strings_Split rest ":" in
    if negb (length rc =? 2)%nat
    then ["expected " +:+ fmt_q k +:+ " tcp resource to contain host and port components"]
    else
      let errors :=
        if negb (isHost (index rc 0))
        then ["expected " +:+ fmt_q k +:+ " tcp resource to contain a valid host"]
        else [] in
      match strconv_Atoi (index rc 1) with
      | Err _ =>
          errors ++ ["expected " +:+ fmt_q k +:+ " tcp resource to contain a port number"]
      | Ok port =>
          if (0 <? length (validation_IsPortNumber (VInt port) k))%nat
          then errors ++ ["expected " +:+ fmt_q k +:+ " tcp resource to contain a valid port number"]
          else errors
      end.
Proof. reflexivity. Qed.

Lemma port_number_ok (port : Z) (k : string) :
  (0 <? length (validation_IsPortNumber (VInt port) k))%nat = false
  <-> 1 <= port <= 65535.
Proof.
  unfold validation_IsPortNumber.
  destruct (1 >? port) eqn:Hlo; destruct (port >? 65535) eqn:Hhi; simpl;
    rewrite Z.gtb_ltb in Hlo, Hhi;
    rewrite ?Z.ltb_lt, ?Z.ltb_ge in Hlo, Hhi;
    split; intros; try discriminate; try lia; reflexivity.
Qed.

Lemma tcp_resource_accepted (rest k : string) :
  accepts resource_ValidateFunc (VString ("tcp://" +:+ rest)) k = true
  <-> exists host port : string,
        rest = host +:+ String ":" port
        /\ contains_byte host ":" = false
        /\ contains_byte port ":" = false
        /\ isHost host = true
        /\ exists n : Z, strconv_Atoi port = Ok n /\ 1 <= n <= 65535.
Proof.
  unfold accepts. rewrite tcp_resource_errors. cbv zeta. split.
  - intros H.
    destruct (strings_Split rest ":") as [| host [| port [| x more]]] eqn:Hs;
      cbn [length Nat.eqb negb] in H; try discriminate.
    apply Split_two in Hs as (-> & Hh & Hp).
    unfold index in H. cbn [nth] in H. exists host, port.
    destruct (isHost host); cbn [negb app] in H.
    + destruct (strconv_Atoi port) as [n | e]; [| discriminate].
      destruct (0 <? length (validation_IsPortNumber (VInt n) k))%nat eqn:Hn;
        [discriminate |].
      apply port_number_ok in Hn. eauto 10.
    + destruct (strconv_Atoi port) as [n | e]; [| discriminate].
      destruct (0 <? length (validation_IsPortNumber (VInt n) k))%nat; discriminate.
  - intros (host & port & -> & Hh & Hp & Hhost & n & Hn & Hrange).
    rewrite (proj2 (Split_two _ host port ":")) by auto.
    unfold index. cbn [length Nat.eqb negb nth]. rewrite Hhost, Hn. cbn [negb].
    apply port_number_ok with (k := k) in Hrange. rewrite Hrange. reflexivity.
Qed.

(** C1, the claim as stated fails: [::1] is a valid IPv6 literal and 80 a
    valid port, but the resource [tcp://::1:80] is rejected, and so is the
    bracketed form. *)
Lemma tcp_resource_with_IPv6_host_is_rejected :
  isIP "::1" = true
  /\ strconv_Atoi "80" = Ok 80
  /\ resource_ValidateFunc (VString "tcp://::1:80") "resource"
     = ["expected " +:+ fmt_q "resource"
        +:+ " tcp resource to contain host and port components"]
  /\ accepts resource_ValidateFunc (VString "tcp://[::1]:80") "resource" = false.
Proof. repeat split; vm_compute; reflexivity. Qed.

(** C1 (amended): a value [tcp://REST] is accepted exactly when [REST]
    splits at colons into two pieces, a host and a port, the host passes
    the IP-or-DNS-name test and the port is a decimal integer between 1 and
    65535.  The host has no colon, so an accepted host that is an IP
    address is an IPv4 address; a host with a colon in it, as every IPv6
    literal has, is rejected whatever the port. *)
Theorem tcp_resource_accepted_iff_host_and_port :
  (forall rest k : string,
      accepts resource_ValidateFunc (VString ("tcp://" +:+ rest)) k = true
      <-> exists host port : string,
            rest = host +:+ String ":" port
            /\ contains_byte host ":" = false
            /\ contains_byte port ":" = false
            /\ isHost host = true
            /\ exists n : Z, strconv_Atoi port = Ok n /\ 1 <= n <= 65535)
  /\ (forall host : string,
        contains_byte host ":" = false ->
        isIP host = true -> parseIPv4 host <> None)
  /\ (forall host port k : string,
        contains_byte host ":" = true ->
        accepts resource_ValidateFunc
          (VString ("tcp://" +:+ host +:+ String ":" port)) k = false).
Proof.
  split; [exact tcp_resource_accepted |]. split.
  - intros host Hc. unfold isIP, net_ParseIP.
    rewrite (ParseIP_scan_without_colon host host Hc).
    destruct (contains_byte host "."); [| discriminate].
    destruct (parseIPv4 host); [discriminate | discriminate].
  - intros host port k Hc.
    destruct (accepts resource_ValidateFunc _ k) eqn:Hacc; [| reflexivity].
    apply tcp_resource_accepted in Hacc
      as (host' & port' & Heq & Hh & Hp & _).
    exfalso. apply (f_equal (fun s => strings_Count s ":")) in Heq.
    rewrite !Count_append in Heq. simpl in Heq.
    rewrite Count_contains in Hc, Hh, Hp.
    apply Z.ltb_lt in Hc. apply Z.ltb_ge in Hh. apply Z.ltb_ge in Hp.
    pose proof (Count_nonneg port ":"). pose proof (Count_nonneg host' ":").
    pose proof (Count_nonneg port' ":"). lia.
Qed.

Lemma tcp_resource_accepted_iff_host_and_port_witness :
  accepts resource_ValidateFunc (VString "tcp://example.com:80") "resource" = true
  /\ accepts resource_ValidateFunc (VString "tcp://fe80::1:80") "resource" = false.
Proof.
  destruct tcp_resource_accepted_iff_host_and_port as (Hiff & _ & Hcolon).
  split.
  - apply (Hiff "example.com:80" "resource").
    exists "example.com", "80".
    repeat split; try (vm_compute; reflexivity).
    exists 80. split; [vm_compute; reflexivity | lia].
  - exact (Hcolon "fe80::1" "80" "resource" eq_refl).
Defined.

(** ** Regular expressions: the matcher decides the language *)

Lemma nullable_lang (r : regex) : nullable r = true <-> lang r EmptyString.
Proof.
  induction r as [| | ranges | r1 IH1 r2 IH2 | r1 IH1 r2 IH2 | r IH]; simpl.
  - split; [discriminate | inversion 1].
  - split; [constructor | reflexivity].
  - split; [discriminate | inversion 1].
  - rewrite andb_true_iff, IH1, IH2. split.
    + intros [H1 H2]. exact (lang_Concat _ _ _ _ H1 H2).
    + inversion 1 as [| | ? ? s1 s2 H1 H2 Heq | | | |]; subst.
      destruct s1; [| discriminate]. destruct s2; [| discriminate]. auto.
  - rewrite orb_true_iff, IH1, IH2. split.
    + intros [H | H]; [by apply lang_Alternate_l | by apply lang_Alternate_r].
    + inversion 1; subst; auto.
  - split; [constructor | reflexivity].
Qed.

Lemma lang_mkConcat (r1 r2 : regex) (s : string) :
  lang (mkConcat r1 r2) s <-> lang (Concat r1 r2) s.
Proof.
  assert (Hno : forall x, ~ lang NoMatch x) by (intros x H; inversion H).
  assert (Hl : forall r x, lang (Concat NoMatch r) x <-> False).
  { intros r x. split; [| tauto]. inversion 1; subst. by eapply Hno. }
  assert (Hr : forall r x, lang (Concat r NoMatch) x <-> False).
  { intros r x. split; [| tauto]. inversion 1; subst. by eapply Hno. }
  assert (He : forall r x, lang r x <-> lang (Concat EmptyMatch r) x).
  { intros r x. split.
    - intros H. exact (lang_Concat EmptyMatch r EmptyString x lang_EmptyMatch H).
    - inversion 1 as [| | ? ? s1 s2 H1 H2 | | | |]; subst.
      inversion H1; subst. exact H2. }
  destruct r1; destruct r2; simpl;
    rewrite ?Hl, ?Hr; try reflexivity; try (split; [apply Hno | tauto]);
    try apply He.
Qed.

Lemma lang_mkAlternate (r1 r2 : regex) (s : string) :
  lang (mkAlternate r1 r2) s <-> lang (Alternate r1 r2) s.
Proof.
  assert (Hno : forall x, ~ lang NoMatch x) by (intros x H; inversion H).
  assert (Hl : forall r x, lang r x <-> lang (Alternate NoMatch r) x).
  { intros r x. split; [by apply lang_Alternate_r |].
    inversion 1; subst; [by exfalso; eapply Hno | assumption]. }
  assert (Hr : forall r x, lang r x <-> lang (Alternate r NoMatch) x).
  { intros r x. split; [by apply lang_Alternate_l |].
    inversion 1; subst; [assumption | by exfalso; eapply Hno]. }
  destruct r1; destruct r2; simpl; try reflexivity; try apply Hl; try apply Hr.
Qed.

(** A word of [r*] that starts with [c]: a word of [r] that starts with
    [c], then a word of [r*]. *)
Lemma lang_Star_cons (r : regex) (c : ascii) (s : string) :
  lang (Star r) (String c s) ->
  exists s1 s2 : string,
    s = s1 +:+ s2 /\ lang r (String c s1) /\ lang (Star r) s2.
Proof.
  intros H. remember (Star r) as r' eqn:Hr. remember (String c s) as w eqn:Hw.
  induction H as [| | | | | | r0 s1 s2 H1 _ H2 IH2]; try discriminate.
  injection Hr as ->.
  destruct s1 as [| c1 s1].
  - rewrite append_nil_l in Hw. by apply IH2.
  - rewrite append_cons in Hw. injection Hw as -> <-. eauto.
Qed.

Lemma deriv_lang (r : regex) (c : ascii) (s : string) :
  lang (deriv c r) s <-> lang r (String c s).
Proof.
  revert s.
  induction r as [| | ranges | r1 IH1 r2 IH2 | r1 IH1 r2 IH2 | r IH];
    intros s; simpl.
  - split; inversion 1.
  - split; inversion 1.
  - destruct (in_class ranges c) eqn:Hc; split.
    + inversion 1; subst. by constructor.
    + inversion 1; subst. constructor.
    + inversion 1.
    + inversion 1; subst. congruence.
  - assert (Hcat : lang (Concat (deriv c r1) r2) s
                   <-> exists s1 s2, s = s1 +:+ s2
                                     /\ lang r1 (String c s1) /\ lang r2 s2).
    { split.
      - inversion 1 as [| | ? ? s1 s2 H1 H2 | | | |]; subst.
        apply IH1 in H1. eauto.
      - intros (s1 & s2 & -> & H1 & H2). apply IH1 in H1. by constructor. }
    assert (Hsplit : lang (Concat r1 r2) (String c s)
                     <-> (exists s1 s2, s = s1 +:+ s2
                                        /\ lang r1 (String c s1) /\ lang r2 s2)
                         \/ (lang r1 EmptyString /\ lang r2 (String c s))).
    { split.
      - inversion 1 as [| | ? ? s1 s2 H1 H2 | | | |]; subst.
        match goal with
        | E : _ +:+ _ = String _ _ |- _ => rename E into Heq
        end.
        destruct s1 as [| c1 s1].
        + rewrite append_nil_l in Heq. subst s2. auto.
        + rewrite append_cons in Heq. injection Heq as -> <-. eauto 6.
      - intros [(s1 & s2 & -> & H1 & H2) | [H1 H2]].
        + rewrite <- append_cons. by constructor.
        + rewrite <- (append_nil_l (String c s)). by constructor. }
    rewrite Hsplit. destruct (nullable r1) eqn:Hn.
    + rewrite lang_mkAlternate. split.
      * inversion 1 as [| | | ? ? ? Hl | ? ? ? Hr | |]; subst.
        -- left. by apply Hcat, lang_mkConcat.
        -- right. split; [by apply nullable_lang | by apply IH2].
      * intros [H | [_ H]].
        -- apply lang_Alternate_l, lang_mkConcat, Hcat, H.
        -- apply lang_Alternate_r, IH2, H.
    + rewrite lang_mkConcat, Hcat. split; [auto |].
      intros [H | [H _]]; [exact H |].
      apply nullable_lang in H. congruence.
  - rewrite lang_mkAlternate. split.
    + inversion 1; subst;
        [apply lang_Alternate_l, IH1 | apply lang_Alternate_r, IH2]; assumption.
    + inversion 1; subst;
        [apply lang_Alternate_l, IH1 | apply lang_Alternate_r, IH2]; assumption.
  - rewrite lang_mkConcat. split.
    + inversion 1 as [| | ? ? s1 s2 H1 H2 | | | |]; subst.
      apply IH in H1. rewrite <- append_cons. by constructor.
    + intros H. apply lang_Star_cons in H as (s1 & s2 & -> & H1 & H2).
      apply IH in H1. by constructor.
Qed.

Theorem matches_lang (r : regex) (s : string) : matches r s = true <-> lang r s.
Proof.
  revert r. induction s as [| c s IH]; intros r; simpl.
  - apply nullable_lang.
  - rewrite IH. apply deriv_lang.
Qed.

(** ** The two patterns of the provider *)

Lemma validUpCodePattern_compiles :
  regexp_Compile validUpCodePattern
  = Some {| begin_text := true; end_text := true; body := up_code_list |}.
Proof. vm_compute. reflexivity. Qed.

Lemma validDNSNamePattern_compiles :
  regexp_Compile validDNSNamePattern
  = Some {| begin_text := true; end_text := true; body := dns_name |}.
Proof. vm_compute. reflexivity. Qed.

(** ** DNS names as hosts *)

(** C7, the claim as stated fails: the host made of 128 labels [a], each
    followed by a dot, has 256 bytes; it is a DNS name for [isDNSName], which
    counts 128 bytes after removing the dots, and the resource is
    accepted. *)
Lemma dns_host_of_256_bytes_is_accepted :
  len long_dns_host = 256
  /\ isIP long_dns_host = false
  /\ isDNSName long_dns_host = true
  /\ accepts resource_ValidateFunc
       (VString ("tcp://" +:+ long_dns_host +:+ ":443")) "resource" = true.
Proof. repeat split; vm_compute; reflexivity. Qed.

(** C7 (amended): when a tcp resource is accepted and its host is not an
    IP address, the host is not empty, has at most 255 bytes once its dots
    are removed (the dots themselves are not counted), and matches the
    pattern of DNS names, which validates its labels: it is a word of
    [dns_name], labels of 1 to 63 bytes with dots between them. *)
Theorem dns_host_has_at_most_255_bytes_without_dots (host port k : string) :
  contains_byte host ":" = false ->
  accepts resource_ValidateFunc
    (VString ("tcp://" +:+ host +:+ String ":" port)) k = true ->
  isIP host = false ->
  host <> EmptyString
  /\ len (strings_Remove host ".") <= 255
  /\ MustCompile_MatchString validDNSNamePattern host = true
  /\ lang dns_name host.
Proof.
  intros Hc Hacc Hip.
  apply tcp_resource_accepted in Hacc
    as (host' & port' & Heq & Hh & Hp & Hhost & _).
  assert (host' = host) as ->.
  { assert (Hs : strings_Split (host' +:+ String ":" port') ":" = [host'; port'])
      by (apply Split_two; auto).
    rewrite <- Heq, (Split_at_first_sep host port ":" Hc) in Hs. congruence. }
  unfold isHost in Hhost. rewrite Hip in Hhost. simpl in Hhost.
  unfold isDNSName in Hhost. rewrite Hip in Hhost.
  destruct (String.eqb host EmptyString) eqn:He; [discriminate |].
  destruct (len (strings_Remove host ".") >? 255) eqn:Hl; [discriminate |].
  simpl in Hhost. apply String.eqb_neq in He.
  rewrite Z.gtb_ltb in Hl. apply Z.ltb_ge in Hl.
  repeat split; try assumption.
  unfold MustCompile_MatchString in Hhost.
  rewrite validDNSNamePattern_compiles in Hhost.
  by apply matches_lang.
Qed.

Lemma dns_host_has_at_most_255_bytes_without_dots_witness :
  long_dns_host <> EmptyString
  /\ len (strings_Remove long_dns_host ".") <= 255
  /\ MustCompile_MatchString validDNSNamePattern long_dns_host = true
  /\ lang dns_name long_dns_host.
Proof.
  apply (dns_host_has_at_most_255_bytes_without_dots long_dns_host "443" "resource");
    vm_compute; reflexivity.
Defined.

Lemma in_class_one (lo hi c : ascii) : in_class [(lo, hi)] c = byte_in lo hi c.
Proof. simpl. apply orb_false_r. Qed.

Lemma byte_in_x (c : ascii) : byte_in "x" "x" c = Ascii.eqb c "x".
Proof. destruct c as [[] [] [] [] [] [] [] []]; vm_compute; reflexivity. Qed.

Lemma byte_in_dash (c : ascii) : byte_in "-" "-" c = Ascii.eqb c "-".
Proof. destruct c as [[] [] [] [] [] [] [] []]; vm_compute; reflexivity. Qed.

Lemma byte_in_comma (c : ascii) : byte_in "," "," c = Ascii.eqb c ",".
Proof. destruct c as [[] [] [] [] [] [] [] []]; vm_compute; reflexivity. Qed.

(** No byte of an entry is a comma. *)
Lemma entry_byte_not_comma (c : ascii) :
  is_hundreds c || is_digit c || Ascii.eqb c "x" || Ascii.eqb c "-" = true ->
  Ascii.eqb c "," = false.
Proof. destruct c as [[] [] [] [] [] [] [] []]; vm_compute; congruence. Qed.

Ltac bool_facts :=
  repeat match goal with
    | H : _ && _ = true |- _ => apply andb_true_iff in H as [? ?]
    | H : _ || _ = true |- _ => apply orb_true_iff in H as [? | ?]
    end.

Ltac inv_lang :=
  repeat match goal with
    | H : lang (Concat _ _) _ |- _ => inversion H; clear H; subst
    | H : lang (Alternate _ _) _ |- _ => inversion H; clear H; subst
    | H : lang (CharClass _) _ |- _ => inversion H; clear H; subst
    end.

Ltac class_facts :=
  repeat match goal with
    | H : in_class [_] _ = true |- _ =>
        rewrite in_class_one in H;
        rewrite ?byte_in_x, ?byte_in_dash, ?byte_in_comma in H
    end.

Lemma lang_cons_class (ranges : list (ascii * ascii)) (r : regex) (c : ascii) (s : string) :
  in_class ranges c = true -> lang r s -> lang (Concat (CharClass ranges) r) (String c s).
Proof.
  intros Hc Hs. change (String c s) with (String c EmptyString +:+ s).
  constructor; [by constructor | exact Hs].
Qed.

Lemma lang_Concat_assoc (a b r : regex) (s : string) :
  lang (Concat a (Concat b r)) s -> lang (Concat (Concat a b) r) s.
Proof.
  inversion 1 as [| | ? ? s1 s23 H1 H23 | | | |]; subst.
  inversion H23 as [| | ? ? s2 s3 H2 H3 | | | |]; subst.
  rewrite <- append_assoc. by repeat constructor.
Qed.

Lemma lang_up_code_entry (entry : string) :
  lang up_code_entry entry <-> is_up_codes_entry entry = true.
Proof.
  unfold up_code_entry, up_code_range, up_code_single. split.
  - intros H. inv_lang; class_facts; ssimpl;
      unfold is_status_code, is_wildcard, is_hundreds, is_digit;
      repeat match goal with
        | H : _ = true |- _ => rewrite H; clear H
        end;
      rewrite ?orb_true_r; reflexivity.
  - intros H.
    destruct entry as [| a [| b [| c [| d [| e [| f [| g [| h t]]]]]]]];
      try discriminate; simpl in H.
    + apply lang_Alternate_r.
      unfold is_status_code, is_wildcard, is_hundreds, is_digit in H. bool_facts.
      * apply lang_cons_class; [by rewrite in_class_one |].
        apply lang_Alternate_l, lang_Alternate_l.
        apply lang_cons_class; [by rewrite in_class_one |].
        constructor. by rewrite in_class_one.
      * apply lang_cons_class; [by rewrite in_class_one |].
        apply lang_Alternate_l, lang_Alternate_r.
        apply lang_cons_class; [by rewrite in_class_one |].
        constructor. by rewrite in_class_one, byte_in_x.
      * apply lang_cons_class; [by rewrite in_class_one |].
        apply lang_Alternate_r.
        apply lang_cons_class; [by rewrite in_class_one, byte_in_x |].
        constructor. by rewrite in_class_one, byte_in_x.
    + apply lang_Alternate_l.
      unfold is_status_code, is_hundreds, is_digit in H. bool_facts.
      apply lang_cons_class; [by rewrite in_class_one |].
      apply lang_Concat_assoc.
      apply lang_cons_class; [by rewrite in_class_one |].
      apply lang_cons_class; [by rewrite in_class_one |].
      apply lang_cons_class; [by rewrite in_class_one, byte_in_dash |].
      apply lang_cons_class; [by rewrite in_class_one |].
      apply lang_cons_class; [by rewrite in_class_one |].
      constructor. by rewrite in_class_one.
Qed.

Lemma up_codes_entry_without_comma (entry : string) :
  is_up_codes_entry entry = true -> contains_byte entry "," = false.
Proof.
  intros H.
  destruct entry as [| a [| b [| c [| d [| e [| f [| g [| h t]]]]]]]];
    try discriminate; simpl in H;
    unfold is_status_code, is_wildcard in H; bool_facts; simpl;
    repeat match goal with
      | |- context [Ascii.eqb ?c ","] =>
          rewrite (entry_byte_not_comma c)
            by (repeat match goal with H : _ = true |- _ => rewrite H end;
                rewrite ?orb_true_r; reflexivity)
      end;
    reflexivity.
Qed.

Lemma lang_more_up_codes (s : string) :
  lang (Star (Concat (CharClass [(","%char, ","%char)]) up_code_entry)) s ->
  forall entry : string,
    is_up_codes_entry entry = true ->
    forallb is_up_codes_entry (strings_Split (entry +:+ s) ",") = true.
Proof.
  intros H.
  remember (Star (Concat (CharClass [(","%char, ","%char)]) up_code_entry)) as r eqn:Hr.
  induction H as [| | | | | r0 | r0 s1 s2 H1 _ H2 IH2]; try discriminate.
  - intros entry He. rewrite append_nil_r.
    rewrite (Split_without_sep entry "," (up_codes_entry_without_comma entry He)).
    simpl. by rewrite He.
  - injection Hr as ->. intros entry He.
    inversion H1 as [| | ? ? c e1 Hc He1 | | | |]; subst.
    inversion Hc as [| ? x Hx | | | | |]; subst.
    rewrite in_class_one, byte_in_comma in Hx. apply Ascii.eqb_eq in Hx. subst x.
    rewrite append_assoc, append_cons, append_nil_l.
    rewrite (Split_at_first_sep entry _ "," (up_codes_entry_without_comma entry He)).
    simpl. rewrite He. simpl. apply IH2; [reflexivity |].
    by apply lang_up_code_entry.
Qed.

Lemma up_codes_list_lang (l : list string) :
  forall v : string,
    strings_Split v "," = l ->
    forallb is_up_codes_entry l = true ->
    exists entry more : string,
      v = entry +:+ more
      /\ is_up_codes_entry entry = true
      /\ lang (Star (Concat (CharClass [(","%char, ","%char)]) up_code_entry)) more.
Proof.
  induction l as [| a rest IH]; intros v Hs Hall.
  - by apply Split_not_nil in Hs.
  - simpl in Hall. apply andb_true_iff in Hall as [Ha Hrest].
    destruct (Split_head v ",") as (a' & rest' & Hs' & _ & Hone & Hmore).
    rewrite Hs in Hs'. injection Hs' as <- <-.
    destruct rest as [| b more].
    + exists a, EmptyString. rewrite append_nil_r.
      split; [by apply Hone |]. split; [exact Ha | constructor].
    + destruct (Hmore b more eq_refl) as (t & -> & Ht).
      destruct (IH t Ht Hrest) as (entry & tail & -> & He & Htail).
      exists a, (String "," entry +:+ tail). split; [reflexivity |].
      split; [exact Ha |].
      change (String "," entry +:+ tail)
        with ((String "," EmptyString +:+ entry) +:+ tail).
      constructor; [| exact Htail].
      constructor; [by constructor | by apply lang_up_code_entry].
Qed.

Lemma lang_up_code_list (v : string) :
  lang up_code_list v <-> is_up_codes_list v = true.
Proof.
  unfold up_code_list, is_up_codes_list. split.
  - inversion 1 as [| | ? ? entry more He Hmore | | | |]; subst.
    apply lang_more_up_codes; [exact Hmore | by apply lang_up_code_entry].
  - intros H.
    destruct (up_codes_list_lang _ v eq_refl H) as (entry & more & -> & He & Hmore).
    constructor; [by apply lang_up_code_entry | exact Hmore].
Qed.

(** C5: the [up_codes] validator accepts a string exactly when it is a
    comma-separated list of entries, each an exact three-digit status code,
    a wildcard form ([2xx], [20x]) or a range [NNN-NNN], with every hundreds
    digit in 1..5.  [200], [2xx], [200-302] and [200,301] are accepted;
    [abc], [600] and [200-] are rejected. *)
Theorem up_codes_accepted_iff_list_of_entries :
  (forall v k : string,
      accepts up_codes_ValidateFunc (VString v) k = true
      <-> is_up_codes_list v = true)
  /\ accepts up_codes_ValidateFunc (VString "200") "up_codes" = true
  /\ accepts up_codes_ValidateFunc (VString "2xx") "up_codes" = true
  /\ accepts up_codes_ValidateFunc (VString "200-302") "up_codes" = true
  /\ accepts up_codes_ValidateFunc (VString "200,301") "up_codes" = true
  /\ accepts up_codes_ValidateFunc (VString "abc") "up_codes" = false
  /\ accepts up_codes_ValidateFunc (VString "600") "up_codes" = false
  /\ accepts up_codes_ValidateFunc (VString "200-") "up_codes" = false.
Proof.
  split; [| repeat split; vm_compute; reflexivity].
  intros v k. rewrite <- lang_up_code_list, <- matches_lang.
  unfold accepts, up_codes_ValidateFunc, validation_StringMatch,
    MustCompile_MatchString.
  rewrite validUpCodePattern_compiles. unfold MatchString. cbn [begin_text end_text body].
  destruct (matches up_code_list v); split; congruence.
Qed.

(** ** The payload of a check *)

(** What [constructCheckPayload] does for an HTTP or HTTPS resource. *)
Ltac payload_cases d :=
  destruct (GetOk d "name"), (GetOk d "interval"), (GetOk d "target"),
    (GetOk d "regions"), (GetOk d "up_confirmations_threshold"),
    (GetOk d "down_confirmations_threshold");
  cbn; eexists; (split; [reflexivity | repeat split]).

Lemma constructCheckPayload_http (d : ResourceData) (resource : string) :
  GetOk d "resource" = Some (VString resource) ->
  derived_protocol resource = protocolHTTP
  \/ derived_protocol resource = protocolHTTPS ->
  match GetOk d "method", GetOk d "up_codes" with
  | Some method, Some up_codes =>
      exists payload : Check,
        constructCheckPayload d = (payload, None)
        /\ Check_Protocol payload = derived_protocol resource
        /\ Check_Method payload = as_string method
        /\ Check_UpCodes payload = as_string up_codes
  | _, _ =>
      exists (payload : Check) (err : error),
        constructCheckPayload d = (payload, Some err)
  end.
Proof.
  intros Hres Hproto.
  unfold constructCheckPayload, copy_field, and_then, is_HTTP_or_HTTPS.
  rewrite Hres. cbn [as_string].
  destruct Hproto as [Hp | Hp]; rewrite !Hp;
    destruct (GetOk d "method") as [method |],
      (GetOk d "up_codes") as [up_codes |];
    try (payload_cases d);
    destruct (GetOk d "name"), (GetOk d "interval"), (GetOk d "target"),
      (GetOk d "regions"); cbn; eexists; eexists; reflexivity.
Qed.

(** What it does for a resource of another protocol. *)
Lemma constructCheckPayload_other (d : ResourceData) (resource : string) :
  GetOk d "resource" = Some (VString resource) ->
  derived_protocol resource = protocolTCP ->
  match GetOk d "method", GetOk d "up_codes" with
  | None, None =>
      exists payload : Check,
        constructCheckPayload d = (payload, None)
        /\ Check_Protocol payload = protocolTCP
        /\ Check_Method payload = EmptyString
        /\ Check_UpCodes payload = EmptyString
  | _, _ =>
      exists (payload : Check) (err : error),
        constructCheckPayload d = (payload, Some err)
  end.
Proof.
  intros Hres Hp.
  unfold constructCheckPayload, copy_field, and_then, is_HTTP_or_HTTPS.
  rewrite Hres. cbn [as_string]. rewrite !Hp.
  destruct (GetOk d "method") as [method |],
    (GetOk d "up_codes") as [up_codes |];
    try (payload_cases d);
    destruct (GetOk d "name"), (GetOk d "interval"), (GetOk d "target"),
      (GetOk d "regions"); cbn; eexists; eexists; reflexivity.
Qed.

(** What validation leaves of a string field. *)
Lemma field_errors_string (key : string) (sch : Schema) (config : gmap string value) :
  Type_ sch = TypeString ->
  field_errors key sch config = [] ->
  match config !! key with
  | None => Required sch = false
  | Some v =>
      exists s : string,
        v = VString s
        /\ forall f : SchemaValidateFunc,
             ValidateFunc sch = Some f -> f (VString s) key = []
  end.
Proof.
  intros Ht. unfold field_errors. rewrite Ht.
  destruct (config !! key) as [v |].
  - destruct v; simpl; try discriminate.
    intros H. eexists. split; [reflexivity |]. intros f Hf. by rewrite Hf in H.
  - destruct (Required sch); [discriminate | reflexivity].
Qed.

Lemma GetOk_string (d : ResourceData) (key s : string) :
  fields d !! key = Some (VString s) -> s <> EmptyString ->
  GetOk d key = Some (VString s).
Proof.
  intros H Hne. unfold GetOk. rewrite H. simpl.
  apply String.eqb_neq in Hne. by rewrite Hne.
Qed.

Lemma GetOk_None (d : ResourceData) (key : string) :
  fields d !! key = None -> GetOk d key = None.
Proof. intros H. unfold GetOk. by rewrite H. Qed.

(** The fields of a validated check that the payload rules look at: the
    resource is set and accepted, and [method] and [up_codes], when set,
    hold strings that are not empty. *)
Lemma validated_check_fields (d : ResourceData) :
  check_validated d ->
  (exists resource : string,
      fields d !! "resource" = Some (VString resource)
      /\ GetOk d "resource" = Some (VString resource)
      /\ accepts resource_ValidateFunc (VString resource) "resource" = true)
  /\ match fields d !! "method" with
     | Some v => exists s : string, v = VString s /\ GetOk d "method" = Some v
     | None => GetOk d "method" = None
     end
  /\ match fields d !! "up_codes" with
     | Some v => exists s : string, v = VString s /\ GetOk d "up_codes" = Some v
     | None => GetOk d "up_codes" = None
     end.
Proof.
  unfold check_validated, schemaMap_Validate, checkResource_Schema.
  cbn [flat_map]. intros H.
  repeat match type of H with
    | _ ++ _ = [] => apply app_eq_nil in H as [? H]
    end.
  repeat match goal with
    | H : field_errors ?k _ _ = [] |- _ =>
        first [ apply field_errors_string in H; [| reflexivity] | clear H ]
    end.
  cbn [ValidateFunc Required] in *.
  split; [| split].
  - destruct (fields d !! "resource") as [v |] eqn:Hr; [| discriminate].
    match goal with
    | H : exists s, v = VString s /\ _ |- _ => destruct H as (r & -> & Hf)
    end.
    specialize (Hf _ eq_refl).
    assert (Hne : r <> EmptyString) by (intros ->; vm_compute in Hf; discriminate).
    exists r. split; [reflexivity |]. split; [by apply GetOk_string |].
    unfold accepts. by rewrite Hf.
  - destruct (fields d !! "method") as [v |] eqn:Hm; [| by apply GetOk_None].
    match goal with
    | H : exists s, v = VString s /\ _ |- _ => destruct H as (m & -> & Hf)
    end.
    specialize (Hf _ eq_refl).
    assert (Hne : m <> EmptyString) by (intros ->; vm_compute in Hf; discriminate).
    exists m. split; [reflexivity | by apply GetOk_string].
  - destruct (fields d !! "up_codes") as [v |] eqn:Hu; [| by apply GetOk_None].
    match goal with
    | H : exists s, v = VString s /\ _ |- _ => destruct H as (u & -> & Hf)
    end.
    specialize (Hf _ eq_refl).
    assert (Hne : u <> EmptyString) by (intros ->; vm_compute in Hf; discriminate).
    exists u. split; [reflexivity | by apply GetOk_string].
Qed.

(** C2: for a fully validated field set the derived protocol is HTTP,
    HTTPS or TCP.  With HTTP or HTTPS the construction of the payload
    returns an error when [method] or [up_codes] is absent, and otherwise
    succeeds with both in the payload; with TCP it returns an error when
    [method] or [up_codes] is present, and otherwise succeeds with neither
    in the payload. *)
Theorem payload_method_and_up_codes_follow_protocol (d : ResourceData) :
  check_validated d ->
  exists resource : string,
    fields d !! "resource" = Some (VString resource)
    /\ (derived_protocol resource = protocolHTTP
        \/ derived_protocol resource = protocolHTTPS
        \/ derived_protocol resource = protocolTCP)
    /\ (derived_protocol resource = protocolHTTP
        \/ derived_protocol resource = protocolHTTPS ->
        match fields d !! "method", fields d !! "up_codes" with
        | Some method, Some up_codes =>
            exists payload : Check,
              constructCheckPayload d = (payload, None)
              /\ Check_Protocol payload = derived_protocol resource
              /\ VString (Check_Method payload) = method
              /\ VString (Check_UpCodes payload) = up_codes
        | _, _ =>
            exists (payload : Check) (err : error),
              constructCheckPayload d = (payload, Some err)
        end)
    /\ (derived_protocol resource = protocolTCP ->
        match fields d !! "method", fields d !! "up_codes" with
        | None, None =>
            exists payload : Check,
              constructCheckPayload d = (payload, None)
              /\ Check_Protocol payload = protocolTCP
              /\ Check_Method payload = EmptyString
              /\ Check_UpCodes payload = EmptyString
        | _, _ =>
            exists (payload : Check) (err : error),
              constructCheckPayload d = (payload, Some err)
        end).
Proof.
  intros Hv.
  destruct (validated_check_fields d Hv) as ((r & Hr & Hg & Hacc) & Hm & Hu).
  exists r. split; [exact Hr |].
  split; [exact (accepted_resource_protocol r "resource" Hacc) |].
  split.
  - intros Hhttp. pose proof (constructCheckPayload_http d r Hg Hhttp) as Hc.
    destruct (fields d !! "method") as [vm |], (fields d !! "up_codes") as [vu |].
    + destruct Hm as (m & -> & Hgm). destruct Hu as (u & -> & Hgu).
      rewrite Hgm, Hgu in Hc. destruct Hc as (payload & Hc & Hproto & Hpm & Hpu).
      exists payload. cbn [as_string] in Hpm, Hpu. by rewrite Hpm, Hpu.
    + destruct Hm as (m & -> & Hgm). rewrite Hgm, Hu in Hc. exact Hc.
    + rewrite Hm in Hc. exact Hc.
    + rewrite Hm in Hc. exact Hc.
  - intros Htcp. pose proof (constructCheckPayload_other d r Hg Htcp) as Hc.
    destruct (fields d !! "method") as [vm |], (fields d !! "up_codes") as [vu |].
    + destruct Hm as (m & -> & Hgm). rewrite Hgm in Hc. exact Hc.
    + destruct Hm as (m & -> & Hgm). rewrite Hgm in Hc. exact Hc.
    + destruct Hu as (u & -> & Hgu). rewrite Hm, Hgu in Hc. exact Hc.
    + rewrite Hm, Hu in Hc. exact Hc.
Qed.

Lemma payload_method_and_up_codes_follow_protocol_witness :
  check_validated https_check
  /\ check_validated tcp_check
  /\ (exists payload : Check,
        constructCheckPayload https_check = (payload, None)
        /\ Check_Protocol payload = protocolHTTPS
        /\ Check_Method payload = "GET"
        /\ Check_UpCodes payload = "200-302")
  /\ (exists payload : Check,
        constructCheckPayload tcp_check = (payload, None)
        /\ Check_Protocol payload = protocolTCP
        /\ Check_Method payload = EmptyString
        /\ Check_UpCodes payload = EmptyString).
Proof.
  assert (Hh : check_validated https_check) by (vm_compute; reflexivity).
  assert (Ht : check_validated tcp_check) by (vm_compute; reflexivity).
  split; [exact Hh |]. split; [exact Ht |]. split.
  - destruct (payload_method_and_up_codes_follow_protocol https_check Hh)
      as (r & Hr & _ & Hhttp & _).
    assert (r = "https://example.com") as ->
      by (vm_compute in Hr; injection Hr as <-; reflexivity).
    specialize (Hhttp (or_intror eq_refl)).
    assert (Hm : fields https_check !! "method" = Some (VString "GET"))
      by (vm_compute; reflexivity).
    assert (Hu : fields https_check !! "up_codes" = Some (VString "200-302"))
      by (vm_compute; reflexivity).
    rewrite Hm, Hu in Hhttp.
    destruct Hhttp as (payload & Hc & Hp & Hpm & Hpu).
    exists payload. split; [exact Hc |]. split; [exact Hp |].
    split; [by injection Hpm | by injection Hpu].
  - destruct (payload_method_and_up_codes_follow_protocol tcp_check Ht)
      as (r & Hr & _ & _ & Htcp).
    assert (r = "tcp://db.example.com:5432") as ->
      by (vm_compute in Hr; injection Hr as <-; reflexivity).
    specialize (Htcp eq_refl).
    assert (Hm : fields tcp_check !! "method" = None) by (vm_compute; reflexivity).
    assert (Hu : fields tcp_check !! "up_codes" = None) by (vm_compute; reflexivity).
    rewrite Hm, Hu in Htcp. exact Htcp.
Defined.

(** ** The CRUD bridge *)

Lemma Contains_404_read_check (msg : string) :
  strings_Contains ("unable to read Binocs check: " +:+ msg) "404"
  = strings_Contains msg "404".
Proof. reflexivity. Qed.

Lemma Contains_404_read_channel (msg : string) :
  strings_Contains ("unable to read Binocs channel: " +:+ msg) "404"
  = strings_Contains msg "404".
Proof. reflexivity. Qed.

Lemma count_calls_app (p : Call -> bool) (l1 l2 : list Call) :
  count_calls p (l1 ++ l2) = (count_calls p l1 + count_calls p l2)%nat.
Proof. unfold count_calls. rewrite List.filter_app, length_app. reflexivity. Qed.

Lemma count_detach_of_detaches (ident check : string) (l : list string) :
  count_calls (is_detach_of check) (map (CallChannelsDetach ident) l)
  = occurrences check l.
Proof.
  unfold count_calls, occurrences.
  induction l as [| k rest IH]; [reflexivity |]. cbn.
  destruct (String.eqb k check); cbn; rewrite IH; reflexivity.
Qed.

Lemma count_attach_of_attaches (ident check : string) (l : list string) :
  count_calls (is_attach_of check) (map (CallChannelsAttach ident) l)
  = occurrences check l.
Proof.
  unfold count_calls, occurrences.
  induction l as [| k rest IH]; [reflexivity |]. cbn.
  destruct (String.eqb k check); cbn; rewrite IH; reflexivity.
Qed.

Lemma count_detach_of_attaches (ident check : string) (l : list string) :
  count_calls (is_detach_of check) (map (CallChannelsAttach ident) l) = 0%nat.
Proof. unfold count_calls. induction l as [| k rest IH]; [reflexivity | exact IH]. Qed.

Lemma count_attach_of_detaches (ident check : string) (l : list string) :
  count_calls (is_attach_of check) (map (CallChannelsDetach ident) l) = 0%nat.
Proof. unfold count_calls. induction l as [| k rest IH]; [reflexivity | exact IH]. Qed.

Lemma occurrences_absent (check : string) (l : list string) :
  check ∉ l -> occurrences check l = 0%nat.
Proof.
  unfold occurrences. induction l as [| k rest IH]; intros Hn; [reflexivity |].
  cbn. destruct (String.eqb k check) eqn:E.
  - apply String.eqb_eq in E. subst. exfalso. apply Hn. left.
  - apply IH. intros Hin. apply Hn. by right.
Qed.

Lemma occurrences_NoDup (check : string) (l : list string) :
  NoDup l -> occurrences check l = if decide (check ∈ l) then 1%nat else 0%nat.
Proof.
  induction 1 as [| k rest Hk Hnd IH].
  - destruct (decide (check ∈ [])) as [Hin | _]; [| reflexivity].
    by apply not_elem_of_nil in Hin.
  - unfold occurrences in *. cbn. destruct (String.eqb k check) eqn:E.
    + apply String.eqb_eq in E. subst k.
      cbn. fold (occurrences check rest). rewrite occurrences_absent by exact Hk.
      destruct (decide (check ∈ check :: rest)) as [_ | Hn]; [reflexivity |].
      exfalso. apply Hn. left.
    + apply String.eqb_neq in E. rewrite IH.
      destruct (decide (check ∈ rest)) as [Hin | Hn];
        destruct (decide (check ∈ k :: rest)) as [Hin' | Hn']; try reflexivity.
      * exfalso. apply Hn'. by right.
      * exfalso. apply elem_of_cons in Hin' as [-> | Hin']; [by apply E | by apply Hn].
Qed.

Lemma occurrences_elements (check : string) (s : gset string) :
  occurrences check (Set_List s) = due check s.
Proof.
  unfold Set_List, due. rewrite occurrences_NoDup by apply NoDup_elements.
  destruct (decide (check ∈ elements s)) as [Hin | Hn];
    destruct (decide (check ∈ s)) as [Hin' | Hn']; try reflexivity.
  - exfalso. apply Hn'. by apply elem_of_elements.
  - exfalso. apply Hn. by apply elem_of_elements.
Qed.

Lemma occurrences_prefix (check : string) (done l : list string) :
  done `prefix_of` l -> (occurrences check done <= occurrences check l)%nat.
Proof.
  intros [rest ->]. unfold occurrences. rewrite List.filter_app, length_app. lia.
Qed.

Section BridgeFacts.
Context {World : Type} (client : Client World).

(** C4: when the remote read of a check or channel fails, the existence
    check looks for 404 in the message.  With it, the local identifier is
    cleared and the entity is reported absent without an error; without
    it, the wrapped read error is returned and the identifier is kept. *)
Theorem exists_reports_absent_on_404 (st : St World) :
  (forall (msg : string) (w : World),
      Checks_Read client (Id (data st)) (world st) = (Err msg, w) ->
      checkExists client st
      = if strings_Contains msg "404"
        then ((false, None),
              after st (SetId EmptyString (data st)) w [CallChecksRead (Id (data st))])
        else ((false, Some ("unable to read Binocs check: " +:+ msg)),
              after st (data st) w [CallChecksRead (Id (data st))]))
  /\ (forall (msg : string) (w : World),
      Channels_Read client (Id (data st)) (world st) = (Err msg, w) ->
      channelExists client st
      = if strings_Contains msg "404"
        then ((false, None),
              after st (SetId EmptyString (data st)) w [CallChannelsRead (Id (data st))])
        else ((false, Some ("unable to read Binocs channel: " +:+ msg)),
              after st (data st) w [CallChannelsRead (Id (data st))])).
Proof.
  split; intros msg w Hread.
  - unfold checkExists, checkRead, mbind, M_bind, d_Id, on_data, remote.
    cbn [data world calls]. rewrite Hread. cbn [mret M_ret].
    rewrite Contains_404_read_check.
    destruct (strings_Contains msg "404"); reflexivity.
  - unfold channelExists, channelRead, mbind, M_bind, d_Id, on_data, remote.
    cbn [data world calls]. rewrite Hread. cbn [mret M_ret].
    rewrite Contains_404_read_channel.
    destruct (strings_Contains msg "404"); reflexivity.
Qed.

Lemma set_all_Id (kvs : list (string * value)) (st : St World) :
  Id (data (snd (set_all World kvs st))) = Id (data st).
Proof.
  revert st. induction kvs as [| [k v] rest IH]; intros st; [reflexivity |].
  cbn [set_all]. unfold mbind, M_bind, d_Set, on_data, Set_.
  cbn [data world calls]. rewrite IH. reflexivity.
Qed.

Lemma checkRead_Id (st : St World) :
  Id (data (snd (checkRead client st))) = Id (data st).
Proof.
  unfold checkRead, mbind, M_bind, d_Id, on_data, remote. cbn [data world calls].
  destruct (Checks_Read client (Id (data st)) (world st)) as [[check | err] w].
  - rewrite set_all_Id. reflexivity.
  - reflexivity.
Qed.

Lemma channelRead_Id (st : St World) :
  Id (data (snd (channelRead client st))) = Id (data st).
Proof.
  unfold channelRead, mbind, M_bind, d_Id, on_data, remote. cbn [data world calls].
  destruct (Channels_Read client (Id (data st)) (world st)) as [[channel | err] w].
  - rewrite set_all_Id. reflexivity.
  - reflexivity.
Qed.

Lemma create_attach_loop_data (ident : string) (l : list string) (st : St World) :
  data (snd (create_attach_loop World client ident l st)) = data st.
Proof.
  revert st. induction l as [| c rest IH]; intros st; [reflexivity |].
  cbn [create_attach_loop]. unfold mbind, M_bind, remote.
  destruct (Channels_Attach client ident c (world st)) as [[e |] w];
    cbn [mret M_ret snd data]; [reflexivity |].
  rewrite IH. reflexivity.
Qed.

(** C6: when the remote create call of a check or channel returns an
    error, the create operation returns that error behind a prefix that
    names the operation, and the resource data (the identifier with it)
    are left as they were; when the call succeeds, the identifier it
    returned is the one the resource data hold afterwards. *)
Theorem create_stores_identifier_only_on_success (st : St World) :
  (forall payload : Check,
      constructCheckPayload (data st) = (payload, None) ->
      (forall (msg : string) (w : World),
          Checks_Create client payload (world st) = (Err msg, w) ->
          checkCreate client st
          = (Some ("unable to create Binocs check: " +:+ msg),
             after st (data st) w [CallChecksCreate payload]))
      /\ (forall (check : Check) (w : World),
          Checks_Create client payload (world st) = (Ok check, w) ->
          Id (data (snd (checkCreate client st))) = Check_Ident check))
  /\ (forall payload : Channel,
      payload = fst (constructChannelPayload (data st)) ->
      (forall (msg : string) (w : World),
          Channels_Create client payload (world st) = (Err msg, w) ->
          channelCreate client st
          = (Some ("unable to create Binocs channel: " +:+ msg),
             after st (data st) w [CallChannelsCreate payload]))
      /\ (forall (channel : Channel) (w : World),
          Channels_Create client payload (world st) = (Ok channel, w) ->
          Id (data (snd (channelCreate client st))) = Channel_Ident channel)).
Proof.
  split.
  - intros payload Hp. split.
    + intros msg w Hc.
      unfold checkCreate, mbind, M_bind, on_data, remote. cbn [data world calls].
      rewrite Hp. cbn [data world calls]. rewrite Hc. reflexivity.
    + intros check w Hc.
      unfold checkCreate, mbind, M_bind, on_data, remote, d_SetId.
      cbn [data world calls]. rewrite Hp. cbn [data world calls]. rewrite Hc.
      unfold on_data. cbn [data world calls]. rewrite checkRead_Id. reflexivity.
  - intros payload ->. split.
    + intros msg w Hc.
      unfold channelCreate, mbind, M_bind, on_data, remote. cbn [data world calls].
      unfold constructChannelPayload at 1. cbn [data world calls].
      unfold constructChannelPayload in Hc. cbn [fst] in Hc. rewrite Hc. reflexivity.
    + intros channel w Hc.
      unfold channelCreate, mbind, M_bind, on_data, remote, d_SetId.
      cbn [data world calls].
      unfold constructChannelPayload at 1. cbn [data world calls].
      unfold constructChannelPayload in Hc. cbn [fst] in Hc. rewrite Hc.
      unfold on_data, d_GetOk, on_data. cbn [data world calls].
      match goal with
      | |- context [GetOk ?d ?k] => destruct (GetOk d k) as [v |]
      end.
      * match goal with
        | |- context [create_attach_loop World client ?i ?l ?s] =>
            pose proof (create_attach_loop_data i l s) as Hd;
            destruct (create_attach_loop World client i l s) as [[e |] st']
        end; cbn [snd] in Hd.
        -- cbn [mret M_ret snd]. rewrite Hd. reflexivity.
        -- rewrite channelRead_Id, Hd. reflexivity.
      * cbn [mret M_ret]. rewrite channelRead_Id. reflexivity.
Qed.

(** *** The attach and detach calls of a channel update *)

Lemma constructChannelPayload_no_error (d : ResourceData) :
  snd (constructChannelPayload d) = None.
Proof. reflexivity. Qed.

Lemma detach_loop_calls (l : list string) (st : St World) :
  data (snd (detach_loop World client l st)) = data st
  /\ exists done : list string,
       done `prefix_of` l
       /\ calls (snd (detach_loop World client l st))
          = calls st ++ map (CallChannelsDetach (Id (data st))) done
       /\ (fst (detach_loop World client l st) = None -> done = l).
Proof.
  revert st. induction l as [| r rest IH]; intros st.
  - split; [reflexivity |]. exists []. cbn. rewrite app_nil_r. auto.
  - cbn [detach_loop]. unfold mbind, M_bind, d_Id, on_data, remote.
    cbn [data world calls].
    destruct (Channels_Detach client (Id (data st)) r (world st)) as [[e |] w].
    + cbn [mret M_ret fst snd data calls]. split; [reflexivity |].
      exists [r]. split; [by apply prefix_cons, prefix_nil |].
      split; [reflexivity | discriminate].
    + match goal with
      | |- context [detach_loop World client rest ?s] =>
          destruct (IH s) as (Hd & done & Hpre & Hcalls & Hall)
      end.
      cbn [data calls] in Hd, Hcalls. split; [exact Hd |].
      exists (r :: done). split; [by apply prefix_cons |].
      split.
      * rewrite Hcalls, <- app_assoc. reflexivity.
      * intros Hnone. f_equal. auto.
Qed.

Lemma attach_loop_calls (l : list string) (st : St World) :
  data (snd (attach_loop World client l st)) = data st
  /\ exists done : list string,
       done `prefix_of` l
       /\ calls (snd (attach_loop World client l st))
          = calls st ++ map (CallChannelsAttach (Id (data st))) done
       /\ (fst (attach_loop World client l st) = None -> done = l).
Proof.
  revert st. induction l as [| a rest IH]; intros st.
  - split; [reflexivity |]. exists []. cbn. rewrite app_nil_r. auto.
  - cbn [attach_loop]. unfold mbind, M_bind, d_Id, on_data, remote.
    cbn [data world calls].
    destruct (Channels_Attach client (Id (data st)) a (world st)) as [[e |] w].
    + cbn [mret M_ret fst snd data calls]. split; [reflexivity |].
      exists [a]. split; [by apply prefix_cons, prefix_nil |].
      split; [reflexivity | discriminate].
    + match goal with
      | |- context [attach_loop World client rest ?s] =>
          destruct (IH s) as (Hd & done & Hpre & Hcalls & Hall)
      end.
      cbn [data calls] in Hd, Hcalls. split; [exact Hd |].
      exists (a :: done). split; [by apply prefix_cons |].
      split.
      * rewrite Hcalls, <- app_assoc. reflexivity.
      * intros Hnone. f_equal. auto.
Qed.

(** The calls of a channel update: the update itself, then detach calls
    for a prefix of the removed checks, then attach calls for a prefix of
    the added ones; all of them when the update returns no error. *)
Lemma channelUpdate_calls (st : St World) :
  let os := as_set (prior (data st) !! "checks") in
  let ns := as_set (fields (data st) !! "checks") in
  let ident := Id (data st) in
  exists (payload : Channel) (detached attached : list string),
    calls (snd (channelUpdate client st))
    = calls st ++ CallChannelsUpdate ident payload
                  :: map (CallChannelsDetach ident) detached
                  ++ map (CallChannelsAttach ident) attached
    /\ detached `prefix_of` Set_List (os ∖ ns)
    /\ attached `prefix_of` Set_List (ns ∖ os)
    /\ (fst (channelUpdate client st) = None ->
        detached = Set_List (os ∖ ns) /\ attached = Set_List (ns ∖ os)).
Proof.
  intros os ns ident.
  unfold channelUpdate, mbind, M_bind, d_Id, on_data, remote.
  cbn [data world calls].
  pose proof (constructChannelPayload_no_error (data st)) as Hp.
  destruct (constructChannelPayload (data st)) as [payload err].
  cbn [snd] in Hp. subst err. exists payload.
  cbn [data world calls]. fold ident.
  destruct (Channels_Update client ident payload (world st)) as [[e |] w].
  { exists [], []. cbn [mret M_ret fst snd calls map app].
    repeat split; try apply prefix_nil; discriminate. }
  cbn [data world calls].
  unfold HasChange, GetChange. fold os ns.
  destruct (bool_decide (os = ns)) eqn:Heq; cbn [negb data world calls].
  { apply bool_decide_eq_true in Heq.
    exists [], []. cbn [mret M_ret fst snd calls map app].
    split; [reflexivity |]. split; [apply prefix_nil |].
    split; [apply prefix_nil |]. intros _.
    rewrite Heq, difference_diag_L. unfold Set_List. by rewrite elements_empty. }
  fold os ns.
  set (detach := Set_List (os ∖ ns)). set (attach := Set_List (ns ∖ os)).
  assert (Hd0 : forall s : St World,
             (if (0 <? length detach)%nat
              then detach_loop World client detach else mret None) s
             = detach_loop World client detach s)
    by (intros s; destruct detach; reflexivity).
  assert (Ha0 : forall s : St World,
             (if (0 <? length attach)%nat
              then attach_loop World client attach else mret None) s
             = attach_loop World client attach s)
    by (intros s; destruct attach; reflexivity).
  rewrite Hd0.
  match goal with
  | |- context [detach_loop World client detach ?s] =>
      destruct (detach_loop_calls detach s) as (Hd & detached & Hpre & Hcalls & Hall);
      destruct (detach_loop World client detach s) as [[e |] st1]
  end; cbn [fst snd data calls] in Hd, Hcalls, Hall.
  { exists detached, []. cbn [mret M_ret fst snd map]. rewrite app_nil_r.
    split; [rewrite Hcalls, <- app_assoc; reflexivity |].
    repeat split; try apply prefix_nil; try assumption; discriminate. }
  rewrite Ha0.
  destruct (attach_loop_calls attach st1) as (Hd' & attached & Hpre' & Hcalls' & Hall').
  exists detached, attached. rewrite Hd in Hcalls'.
  split; [rewrite Hcalls', Hcalls, <- !app_assoc; reflexivity |].
  repeat split; auto.
Qed.

(** C3 (amended): the calls a channel update adds to the log.  Whatever
    the service answers, a check receives at most one detach call, and
    only when it is in the previous set and not in the desired one, at
    most one attach call, and only when it is in the desired set and not
    in the previous one; so a check in both sets receives no call; and
    every such call names the channel of the resource data.  When the
    update returns no error (the remote update and every attach and
    detach call succeeded), each removed check has received exactly one
    detach call and each added check exactly one attach call. *)
Theorem channel_update_calls_follow_set_difference (st : St World) :
  exists new : list Call,
    calls (snd (channelUpdate client st)) = calls st ++ new
    /\ (forall check : string,
          (count_calls (is_detach_of check) new
           <= due check (as_set (prior (data st) !! "checks")
                         ∖ as_set (fields (data st) !! "checks")))%nat
          /\ (count_calls (is_attach_of check) new
              <= due check (as_set (fields (data st) !! "checks")
                            ∖ as_set (prior (data st) !! "checks")))%nat)
    /\ (forall (c : Call) (ch : string),
          In c new -> link_channel c = Some ch -> ch = Id (data st))
    /\ (fst (channelUpdate client st) = None ->
        forall check : string,
          count_calls (is_detach_of check) new
          = due check (as_set (prior (data st) !! "checks")
                       ∖ as_set (fields (data st) !! "checks"))
          /\ count_calls (is_attach_of check) new
             = due check (as_set (fields (data st) !! "checks")
                          ∖ as_set (prior (data st) !! "checks"))).
Proof.
  destruct (channelUpdate_calls st)
    as (payload & detached & attached & Hcalls & Hpd & Hpa & Hall).
  cbv zeta in Hcalls, Hpd, Hpa, Hall.
  set (os := as_set (prior (data st) !! "checks")) in *.
  set (ns := as_set (fields (data st) !! "checks")) in *.
  eexists. split; [exact Hcalls |].
  assert (Hcount : forall check : string,
             count_calls (is_detach_of check)
               (CallChannelsUpdate (Id (data st)) payload
                  :: map (CallChannelsDetach (Id (data st))) detached
                  ++ map (CallChannelsAttach (Id (data st))) attached)
             = occurrences check detached
             /\ count_calls (is_attach_of check)
                  (CallChannelsUpdate (Id (data st)) payload
                     :: map (CallChannelsDetach (Id (data st))) detached
                     ++ map (CallChannelsAttach (Id (data st))) attached)
                = occurrences check attached).
  { intros check.
    change (CallChannelsUpdate (Id (data st)) payload :: ?l)
      with ([CallChannelsUpdate (Id (data st)) payload] ++ l).
    rewrite !count_calls_app, count_detach_of_detaches, count_attach_of_attaches,
      count_detach_of_attaches, count_attach_of_detaches.
    cbn. lia. }
  split; [| split].
  - intros check. destruct (Hcount check) as [-> ->].
    rewrite <- !occurrences_elements. split; by apply occurrences_prefix.
  - intros c ch [<- | Hin]%in_inv; [discriminate |].
    apply in_app_or in Hin as [Hin | Hin];
      apply in_map_iff in Hin as (k & <- & _); cbn; congruence.
  - intros Hnone check. destruct (Hall Hnone) as [-> ->].
    destruct (Hcount check) as [Hd Ha].
    rewrite <- !occurrences_elements. split; assumption.
Qed.

End BridgeFacts.

(** *** The bridge in front of the in-memory service *)

(** The example of the specification: changing the checks from {A, B} to
    {B, C} adds, after the update call, one detach call for A and one attach
    call for C, and nothing for B. *)
Example update_AB_to_BC_calls :
  channelUpdate memory_client (update_AB_to_BC memory_with_channel)
  = (None,
     {| data := data (update_AB_to_BC memory_with_channel);
        world := put_channel "channel-0"
                   {| Channel_Ident := "channel-0"; Channel_Type := "email";
                      Channel_Handle := "ops@example.com";
                      Channel_Alias := EmptyString;
                      Channel_Checks := ["B"; "C"] |} empty_memory;
        calls := [CallChannelsUpdate "channel-0"
                    {| Channel_Ident := EmptyString; Channel_Type := "email";
                       Channel_Handle := "ops@example.com";
                       Channel_Alias := EmptyString; Channel_Checks := [] |};
                  CallChannelsDetach "channel-0" "A";
                  CallChannelsAttach "channel-0" "C"] |}).
Proof. vm_compute. reflexivity. Qed.

(** C3, the claim as stated fails: the checks change from {A, B} to {B, C},
    the service is down, the update call fails, and no detach call for A
    and no attach call for C is issued. *)
Lemma failed_update_issues_no_attach_or_detach :
  HasChange (data (update_AB_to_BC down_memory)) "checks" = true
  /\ fst (channelUpdate memory_client (update_AB_to_BC down_memory))
     = Some ("unable to update Binocs channel: " +:+ unavailable)
  /\ count_calls (is_detach_of "A")
       (calls (snd (channelUpdate memory_client (update_AB_to_BC down_memory)))) = 0%nat
  /\ count_calls (is_attach_of "C")
       (calls (snd (channelUpdate memory_client (update_AB_to_BC down_memory)))) = 0%nat.
Proof. repeat split; vm_compute; reflexivity. Qed.

Lemma channel_update_calls_follow_set_difference_witness :
  fst (channelUpdate memory_client (update_AB_to_BC memory_with_channel)) = None
  /\ exists new : list Call,
       calls (snd (channelUpdate memory_client (update_AB_to_BC memory_with_channel)))
       = [] ++ new
       /\ (count_calls (is_detach_of "A") new = 1
           /\ count_calls (is_attach_of "A") new = 0)%nat
       /\ (count_calls (is_detach_of "B") new = 0
           /\ count_calls (is_attach_of "B") new = 0)%nat
       /\ (count_calls (is_detach_of "C") new = 0
           /\ count_calls (is_attach_of "C") new = 1)%nat.
Proof.
  assert (Hnone : fst (channelUpdate memory_client (update_AB_to_BC memory_with_channel))
                  = None) by (vm_compute; reflexivity).
  split; [exact Hnone |].
  destruct (channel_update_calls_follow_set_difference memory_client
              (update_AB_to_BC memory_with_channel))
    as (new & Hcalls & _ & _ & Hexact).
  exists new. split; [exact Hcalls |].
  split; [exact (Hexact Hnone "A") |].
  split; [exact (Hexact Hnone "B") | exact (Hexact Hnone "C")].
Defined.

Lemma exists_reports_absent_on_404_witness :
  checkExists memory_client (start "check-7" [] [] empty_memory)
  = ((false, None),
     {| data := {| Id := EmptyString; fields := ∅; prior := ∅ |};
        world := empty_memory; calls := [CallChecksRead "check-7"] |})
  /\ channelExists memory_client (start "channel-7" [] [] down_memory)
     = ((false, Some ("unable to read Binocs channel: " +:+ unavailable)),
        {| data := {| Id := "channel-7"; fields := ∅; prior := ∅ |};
           world := down_memory; calls := [CallChannelsRead "channel-7"] |}).
Proof.
  split.
  - exact (proj1 (exists_reports_absent_on_404 memory_client
                    (start "check-7" [] [] empty_memory))
             not_found empty_memory eq_refl).
  - exact (proj2 (exists_reports_absent_on_404 memory_client
                    (start "channel-7" [] [] down_memory))
             unavailable down_memory eq_refl).
Defined.

Lemma create_stores_identifier_only_on_success_witness :
  checkCreate memory_client (create_https_check down_memory)
  = (Some ("unable to create Binocs check: " +:+ unavailable),
     after (create_https_check down_memory) https_check down_memory
       [CallChecksCreate (fst (constructCheckPayload https_check))])
  /\ Id (data (snd (checkCreate memory_client (create_https_check empty_memory))))
     = "check-0".
Proof.
  assert (Hp : constructCheckPayload https_check
               = (fst (constructCheckPayload https_check), None))
    by (vm_compute; reflexivity).
  split.
  - exact (proj1 (proj1 (create_stores_identifier_only_on_success memory_client
                           (create_https_check down_memory)) _ Hp)
             unavailable down_memory eq_refl).
  - exact (proj2 (proj1 (create_stores_identifier_only_on_success memory_client
                           (create_https_check empty_memory)) _ Hp)
             (with_Ident "check-0" (fst (constructCheckPayload https_check)))
             (put_check "check-0"
                (with_Ident "check-0" (fst (constructCheckPayload https_check)))
                empty_memory)
             eq_refl).
Defined.

(** ** The form of an accepted resource *)

(** The authority of a URL whose rest starts with three slashes, or is
    just two slashes, is empty. *)
Lemma parseAuthority_empty : parseAuthority EmptyString = Ok (None, EmptyString).
Proof. reflexivity. Qed.

Lemma Cut_prefix (s sep before after : string) (found : bool) :
  strings_Cut s sep = (before, after, found) -> exists t : string, s = before +:+ t.
Proof.
  unfold strings_Cut. destruct (strings_Index s sep >=? 0); intros [= <- _ _].
  - apply slice_to_prefix.
  - exists EmptyString. by rewrite append_nil_r.
Qed.

(** A host that is not empty comes from an authority that is not empty:
    after the two slashes comes a byte other than a slash. *)
Lemma authority_not_empty (rest1 authority host : string)
  (user : option (string * option string)) :
  strings_HasPrefix rest1 "//" = true ->
  (authority = slice_to (Z.to_nat (strings_Index (slice_from 2 rest1) "/"))
                 (slice_from 2 rest1)
   /\ (strings_Index (slice_from 2 rest1) "/" >=? 0) = true)
  \/ (authority = slice_from 2 rest1
      /\ (strings_Index (slice_from 2 rest1) "/" >=? 0) = false) ->
  parseAuthority authority = Ok (user, host) ->
  host <> EmptyString ->
  exists (c : ascii) (tail : string), rest1 = "//" +:+ String c tail /\ c <> "/"%char.
Proof.
  intros [a0 ->]%HasPrefix_inv Hauth Hparse Hne.
  change (slice_from 2 ("//" +:+ a0)) with a0 in Hauth.
  destruct a0 as [| c tail].
  - cbn in Hauth. destruct Hauth as [[_ Hi] | [-> _]]; [discriminate |].
    rewrite parseAuthority_empty in Hparse. by injection Hparse as _ <-.
  - destruct (Ascii.eqb_spec c "/") as [-> | Hc]; [| by exists c, tail].
    cbn in Hauth. change (Z.to_nat 0) with 0%nat in Hauth. cbn iota in Hauth.
    destruct Hauth as [[-> _] | [_ Hi]]; [| discriminate].
    rewrite parseAuthority_empty in Hparse. by injection Hparse as _ <-.
Qed.

Lemma url_parse_authority (rawURL : string) (u : URL) :
  url_parse rawURL = Ok u ->
  Host u <> EmptyString ->
  exists (sch rest : string) (c : ascii) (tail : string),
    getScheme rawURL = Ok (sch, rest)
    /\ rest = "//" +:+ String c tail
    /\ c <> "/"%char
    /\ Scheme u = strings_ToLower sch.
Proof.
  unfold url_parse. intros H Hne.
  repeat case_match; simplify_eq; cbn [Host Scheme] in *; try contradiction.
  all: match goal with
    | Ha : _ && strings_HasPrefix _ "//" = true |- _ =>
        apply andb_true_iff in Ha as [_ Ha]
    end.
  all: match goal with
    | Ha : strings_HasPrefix ?rest1 "//" = true,
      Hp : parseAuthority ?authority = Ok (?user, ?host) |- _ =>
        assert (Hshape : exists (c : ascii) (tail : string),
                   rest1 = "//" +:+ String c tail /\ c <> "/"%char)
          by (apply (authority_not_empty rest1 authority host user Ha);
              [tauto | exact Hp | exact Hne]);
        destruct Hshape as (c & tail & Hrest1 & Hc)
    end.
  all: match goal with
    | Hr : slice_to ?n ?s0 = _ |- _ =>
        destruct (slice_to_prefix n s0) as [t Ht]; rewrite Hr in Ht
    | Hcut : strings_Cut ?s0 "?" = (?b, _, _), Hr : ?b = _ |- _ =>
        destruct (Cut_prefix _ _ _ _ _ Hcut) as [t Ht]; rewrite Hr in Ht
    end.
  all: exists s, s0, c, (tail +:+ t); split; [reflexivity |];
    split; [rewrite Ht; rewrite !append_cons, append_nil_l; reflexivity |];
    split; [exact Hc | reflexivity].
Qed.

Lemma url_Parse_authority (rawURL : string) (u : URL) :
  url_Parse rawURL = Ok u ->
  Host u <> EmptyString ->
  Scheme u <> EmptyString ->
  exists (sch : string) (c : ascii) (tail : string),
    rawURL = sch +:+ "://" +:+ String c tail
    /\ c <> "/"%char
    /\ Scheme u = strings_ToLower sch.
Proof.
  unfold url_Parse, strings_Cut. intros H Hhost Hne.
  assert (Hgoal : forall (u0 : string) (u' : URL),
             (exists t, rawURL = u0 +:+ t) ->
             url_parse u0 = Ok u' -> Scheme u' = Scheme u -> Host u' = Host u ->
             exists (sch : string) (c : ascii) (tail : string),
               rawURL = sch +:+ "://" +:+ String c tail
               /\ c <> "/"%char
               /\ Scheme u = strings_ToLower sch).
  { intros u0 u' [t Ht] Hp Hs Hh. rewrite <- Hs in Hne |- *. rewrite <- Hh in Hhost.
    destruct (url_parse_authority u0 u' Hp Hhost)
      as (sch & rest & c & tail & Hg & -> & Hc & Hsch).
    assert (Hsne : sch <> EmptyString).
    { intros ->. apply Hne. rewrite Hsch. reflexivity. }
    destruct (getScheme_spec u0 sch _ Hg Hsne) as [Hu0 _].
    exists sch, c, (tail +:+ t). split; [| by split].
    rewrite Ht, Hu0, !append_assoc. reflexivity. }
  destruct (strings_Index rawURL "#" >=? 0) eqn:Hfound.
  - destruct (url_parse (slice_to _ rawURL)) as [u' | e] eqn:Hp; [| discriminate].
    apply (Hgoal _ u' (slice_to_prefix _ rawURL) Hp);
      repeat case_match; simplify_eq; reflexivity.
  - destruct (url_parse rawURL) as [u' | e] eqn:Hp; [| discriminate].
    apply (Hgoal rawURL u'); [exists EmptyString; by rewrite append_nil_r | exact Hp | |];
      repeat case_match; simplify_eq; reflexivity.
Qed.

Lemma lower_byte_s (c : ascii) :
  lower_byte c = "s"%char -> c = "s"%char \/ c = "S"%char.
Proof. destruct c as [[] [] [] [] [] [] [] []]; vm_compute; intros [=]; auto. Qed.

Lemma matches_NoMatch (s : string) : matches NoMatch s = false.
Proof. induction s as [| c s IH]; [reflexivity | exact IH]. Qed.

(** A host does not start with a slash. *)
Lemma isHost_first_byte (host : string) :
  contains_byte host ":" = false ->
  isHost host = true ->
  exists (c : ascii) (tail : string), host = String c tail /\ c <> "/"%char.
Proof.
  intros Hcolon Hhost. destruct host as [| c tail]; [discriminate |].
  exists c, tail. split; [reflexivity |]. intros ->.
  assert (Hip : isIP (String "/" tail) = false).
  { unfold isIP, net_ParseIP. rewrite (ParseIP_scan_without_colon _ _ Hcolon).
    destruct (contains_byte (String "/" tail) "."); reflexivity. }
  unfold isHost, isDNSName in Hhost. rewrite Hip in Hhost.
  destruct (String.eqb (String "/" tail) EmptyString
            || (len (strings_Remove (String "/" tail) ".") >? 255)); [discriminate |].
  cbn [negb orb andb] in Hhost.
  unfold MustCompile_MatchString in Hhost. rewrite validDNSNamePattern_compiles in Hhost.
  unfold MatchString in Hhost. cbn [begin_text end_text body matches] in Hhost.
  assert (Hd : deriv "/" dns_name = NoMatch) by (vm_compute; reflexivity).
  rewrite Hd, matches_NoMatch in Hhost. discriminate.
Qed.

(** X1: every resource string the resource validator accepts has the form
    scheme, [://], rest, with one of the schemes [tcp], [http], [https] and
    [httpS] (the first four bytes of an HTTP(S) scheme are matched as
    written, the fifth in either case) and a rest that is not empty and
    does not start with a slash; and unless the scheme is [tcp], [url.Parse]
    returns a URL for it whose host is not empty. *)
Theorem accepted_resource_names_scheme_and_authority (v k : string) :
  accepts resource_ValidateFunc (VString v) k = true ->
  exists (scheme : string) (c : ascii) (tail : string),
    v = scheme +:+ "://" +:+ String c tail
    /\ In scheme ["tcp"; "http"; "https"; "httpS"]
    /\ c <> "/"%char
    /\ (scheme <> "tcp" ->
        exists u : URL, url_Parse v = Ok u /\ Host u <> EmptyString).
Proof.
  intros Hacc. destruct (strings_HasPrefix v "tcp://") eqn:Htcp.
  - apply HasPrefix_inv in Htcp as [rest ->].
    apply tcp_resource_accepted in Hacc as (host & port & -> & Hh & _ & Hhost & _).
    destruct (isHost_first_byte host Hh Hhost) as (c & tail & -> & Hc).
    exists "tcp", c, (tail +:+ String ":" port).
    split; [reflexivity |]. split; [cbn; auto |]. split; [exact Hc | congruence].
  - revert Hacc. unfold accepts at 1, resource_ValidateFunc. rewrite Htcp.
    destruct (strings_HasPrefix v "http") eqn:Hhttp; [| discriminate].
    unfold validation_IsURLWithHTTPorHTTPS, validation_IsURLWithScheme.
    destruct (String.eqb v EmptyString); [discriminate |].
    destruct (url_Parse v) as [u | e] eqn:Hp; [| discriminate].
    destruct (String.eqb_spec (Host u) EmptyString) as [| Hhost]; [discriminate |].
    destruct (existsb (String.eqb (Scheme u)) ["http"; "https"]) eqn:Hs;
      [| discriminate].
    intros _. cbn [existsb] in Hs.
    assert (Hscheme : Scheme u = "http" \/ Scheme u = "https").
    { destruct (String.eqb_spec (Scheme u) "http"); [auto |].
      destruct (String.eqb_spec (Scheme u) "https"); [auto | discriminate]. }
    assert (Hne : Scheme u <> EmptyString)
      by (destruct Hscheme as [-> | ->]; discriminate).
    destruct (url_Parse_authority v u Hp Hhost Hne) as (sch & c & tail & Hv & Hc & Hlow).
    exists sch, c, tail. split; [exact Hv |].
    split; [| split; [exact Hc | intros _; exists u; by rewrite <- Hp]].
    rewrite Hv in Hhttp. apply HasPrefix_inv in Hhttp as [t Ht].
    rewrite Hlow in Hscheme. clear - Hscheme Ht.
    destruct sch as [| a [| b [| d [| e [| f [| g sch]]]]]];
      cbn in Hscheme; ssimpl in Ht;
      destruct Hscheme as [Hsc | Hsc]; try discriminate;
      injection Ht as -> -> -> ->; try discriminate.
    + cbn. auto.
    + injection Hsc as Hs5. apply lower_byte_s in Hs5 as [-> | ->]; cbn; auto.
Qed.

Lemma accepted_resource_names_scheme_and_authority_witness :
  accepts resource_ValidateFunc (VString "httpS://binocs.sh/status") "resource" = true
  /\ exists (scheme : string) (c : ascii) (tail : string),
       "httpS://binocs.sh/status" = scheme +:+ "://" +:+ String c tail
       /\ In scheme ["tcp"; "http"; "https"; "httpS"]
       /\ c <> "/"%char
       /\ (scheme <> "tcp" ->
           exists u : URL,
             url_Parse "httpS://binocs.sh/status" = Ok u /\ Host u <> EmptyString).
Proof.
  assert (H : accepts resource_ValidateFunc (VString "httpS://binocs.sh/status")
                "resource" = true) by (vm_compute; reflexivity).
  split; [exact H |].
  exact (accepted_resource_names_scheme_and_authority "httpS://binocs.sh/status"
           "resource" H).
Defined.

(** ** The bytes of a DNS name *)

Lemma list_ascii_of_string_append (a b : string) :
  list_ascii_of_string (a +:+ b) = list_ascii_of_string a ++ list_ascii_of_string b.
Proof. induction a as [| c a IH]; [reflexivity |]. ssimpl. by rewrite IH. Qed.

(** A word of the language of [r] is made of bytes of its classes. *)
Lemma lang_in_alphabet (r : regex) (s : string) :
  lang r s -> forall c : ascii, In c (list_ascii_of_string s) -> in_alphabet r c = true.
Proof.
  induction 1 as [| ranges c Hc | r1 r2 s1 s2 _ IH1 _ IH2 | r1 r2 s _ IH
                 | r1 r2 s _ IH | r | r s1 s2 _ IH1 _ IH2]; intros x Hx.
  - destruct Hx.
  - destruct Hx as [<- | []]. exact Hc.
  - rewrite list_ascii_of_string_append in Hx. cbn [in_alphabet].
    apply in_app_or in Hx as [Hx | Hx]; [rewrite (IH1 x Hx) | rewrite (IH2 x Hx)];
      by rewrite ?orb_true_r.
  - cbn [in_alphabet]. by rewrite (IH x Hx).
  - cbn [in_alphabet]. by rewrite (IH x Hx), orb_true_r.
  - destruct Hx.
  - rewrite list_ascii_of_string_append in Hx.
    apply in_app_or in Hx as [Hx | Hx]; [exact (IH1 x Hx) | exact (IH2 x Hx)].
Qed.

Lemma dns_name_alphabet (c : ascii) : in_alphabet dns_name c = is_dns_byte c.
Proof. destruct c as [[] [] [] [] [] [] [] []]; vm_compute; reflexivity. Qed.

Lemma dns_first_class (c : ascii) :
  in_class [("a"%char, "z"%char); ("A"%char, "Z"%char); ("0"%char, "9"%char);
            ("_"%char, "_"%char)] c = is_word_byte c.
Proof. destruct c as [[] [] [] [] [] [] [] []]; vm_compute; reflexivity. Qed.

(** X2: a string that [isDNSName] accepts is not an IP address, is made of
    letters, digits, underscores, hyphens and dots only, and starts with a
    letter, a digit or an underscore. *)
Theorem dns_name_is_made_of_word_bytes_hyphens_and_dots (str : string) :
  isDNSName str = true ->
  isIP str = false
  /\ forallb is_dns_byte (list_ascii_of_string str) = true
  /\ exists (c : ascii) (rest : string), str = String c rest /\ is_word_byte c = true.
Proof.
  unfold isDNSName.
  destruct (String.eqb str EmptyString || (len (strings_Remove str ".") >? 255));
    [discriminate |].
  intros [Hip Hm]%andb_true_iff. apply negb_true_iff in Hip.
  unfold MustCompile_MatchString in Hm. rewrite validDNSNamePattern_compiles in Hm.
  apply matches_lang in Hm.
  split; [exact Hip |]. split.
  - apply forallb_forall. intros c Hc.
    rewrite <- dns_name_alphabet. by apply (lang_in_alphabet dns_name str).
  - unfold dns_name, dns_label in Hm.
    inversion Hm as [| | r1 r2 s1 s2 Hlabel _ | | | |]; subst.
    inversion Hlabel as [| | r1 r2 s3 s4 Hfirst _ | | | |]; subst.
    inversion Hfirst as [| ranges c Hc | | | | |]; subst.
    exists c. eexists. split; [rewrite !append_cons; reflexivity |].
    by rewrite <- dns_first_class.
Qed.

Lemma dns_name_is_made_of_word_bytes_hyphens_and_dots_witness :
  isDNSName "db.example.com" = true
  /\ isIP "db.example.com" = false
  /\ forallb is_dns_byte (list_ascii_of_string "db.example.com") = true.
Proof.
  assert (H : isDNSName "db.example.com" = true) by (vm_compute; reflexivity).
  split; [exact H |].
  destruct (dns_name_is_made_of_word_bytes_hyphens_and_dots "db.example.com" H)
    as (Hip & Hbytes & _).
  by split.
Defined.

(** ** The fields of a payload *)

Lemma derived_protocol_empty : derived_protocol EmptyString = EmptyString.
Proof. reflexivity. Qed.

Lemma constructCheckPayload_fields (d : ResourceData) (payload : Check) :
  constructCheckPayload d = (payload, None) ->
  Check_Ident payload = EmptyString
  /\ Check_Name payload = configured_string d "name"
  /\ Check_Resource payload = configured_string d "resource"
  /\ Check_Protocol payload = configured_protocol d
  /\ Check_Method payload = configured_string d "method"
  /\ Check_Interval payload = configured_int d "interval"
  /\ Check_Target payload = configured_float d "target"
  /\ Check_Regions payload = configured_list d "regions"
  /\ Check_UpCodes payload = configured_string d "up_codes"
  /\ Check_UpConfirmationsThreshold payload = configured_int d "up_confirmations_threshold"
  /\ Check_DownConfirmationsThreshold payload
     = configured_int d "down_confirmations_threshold".
Proof.
  unfold constructCheckPayload, copy_field, and_then, is_HTTP_or_HTTPS,
    configured_protocol, configured_string, configured_int, configured_float,
    configured_list.
  destruct (GetOk d "name"), (GetOk d "resource") as [r |], (GetOk d "method"),
    (GetOk d "up_codes"), (GetOk d "interval"), (GetOk d "target"),
    (GetOk d "regions"), (GetOk d "up_confirmations_threshold"),
    (GetOk d "down_confirmations_threshold");
    cbn [Check_Protocol with_Protocol with_Name with_Resource with_Method
         with_Interval with_Target with_Regions with_UpCodes Check_zero];
    try rewrite derived_protocol_empty;
    repeat (match goal with
            | |- context [String.eqb ?p protocolHTTP || String.eqb ?p protocolHTTPS] =>
                destruct (String.eqb p protocolHTTP || String.eqb p protocolHTTPS)
            end;
            cbn [Check_Protocol with_Protocol with_Name with_Resource with_Method
                 with_Interval with_Target with_Regions with_UpCodes Check_zero]);
    intros [= <-]; cbn; repeat split.
Qed.

Lemma and_then_copy_field (d : ResourceData) (key : string)
  (assign : value -> Check -> Check) (payload : Check) (next : Check -> building) :
  and_then (copy_field d key assign payload) next
  = next (match GetOk d key with Some v => assign v payload | None => payload end).
Proof. unfold copy_field. by destruct (GetOk d key). Qed.

(** The error of [constructCheckPayload], by the protocol and by which of
    [method] and [up_codes] are set. *)
Lemma constructCheckPayload_error (d : ResourceData) :
  snd (constructCheckPayload d)
  = if is_http_protocol (configured_protocol d) then
      if negb (is_set d "method") then
        Some ("expected " +:+ dquote +:+ "method" +:+ dquote +:+ " to be one of "
              +:+ strings_Join supportedHTTPMethods ", " +:+ " for a "
              +:+ configured_protocol d +:+ " resource")
      else if negb (is_set d "up_codes") then
        Some ("expected " +:+ dquote +:+ "up_codes" +:+ dquote
              +:+ " to be set for a " +:+ configured_protocol d +:+ " resource")
      else None
    else
      if is_set d "method" then
        Some (dquote +:+ "method" +:+ dquote +:+ " cannot be used with a "
              +:+ configured_protocol d +:+ " resource")
      else if is_set d "up_codes" then
        Some (dquote +:+ "up_codes" +:+ dquote +:+ " cannot be used with a "
              +:+ configured_protocol d +:+ " resource")
      else None.
Proof.
  unfold constructCheckPayload, is_HTTP_or_HTTPS, configured_protocol,
    configured_string, is_http_protocol, is_set.
  rewrite !and_then_copy_field. cbv beta.
  destruct (GetOk d "resource") as [r |], (GetOk d "name");
    cbn [Check_Protocol with_Protocol with_Name with_Resource Check_zero];
    try rewrite derived_protocol_empty;
    match goal with
    | |- context [String.eqb ?p protocolHTTP || String.eqb ?p protocolHTTPS] =>
        destruct (String.eqb p protocolHTTP || String.eqb p protocolHTTPS) eqn:E
    end;
    destruct (GetOk d "method"); cbn [and_then negb]; try reflexivity;
    rewrite !and_then_copy_field; cbv beta;
    destruct (GetOk d "interval"), (GetOk d "target"), (GetOk d "regions");
    cbn [Check_Protocol with_Protocol with_Name with_Resource with_Method
         with_Interval with_Target with_Regions Check_zero];
    rewrite ?E; destruct (GetOk d "up_codes"); cbn [and_then negb]; try reflexivity;
    rewrite !and_then_copy_field; reflexivity.
Qed.

(** *** The protocol in the payload *)

(** The protocol is set before the first statement that can return, so
    the payload carries it whether an error is returned or not. *)
Lemma constructCheckPayload_Protocol (d : ResourceData) :
  Check_Protocol (fst (constructCheckPayload d)) = configured_protocol d.
Proof.
  unfold constructCheckPayload, is_HTTP_or_HTTPS, configured_protocol, configured_string.
  rewrite !and_then_copy_field. cbv beta.
  destruct (GetOk d "resource") as [r |], (GetOk d "name");
    cbn [Check_Protocol with_Protocol with_Name with_Resource Check_zero];
    try rewrite derived_protocol_empty;
    match goal with
    | |- context [String.eqb ?p protocolHTTP || String.eqb ?p protocolHTTPS] =>
        destruct (String.eqb p protocolHTTP || String.eqb p protocolHTTPS) eqn:E
    end;
    destruct (GetOk d "method"); cbn [and_then negb fst]; try reflexivity;
    rewrite !and_then_copy_field; cbv beta;
    destruct (GetOk d "interval"), (GetOk d "target"), (GetOk d "regions");
    cbn [Check_Protocol with_Protocol with_Name with_Resource with_Method
         with_Interval with_Target with_Regions Check_zero];
    rewrite ?E; destruct (GetOk d "up_codes"); cbn [and_then negb fst]; try reflexivity;
    rewrite !and_then_copy_field; cbv beta;
    destruct (GetOk d "up_confirmations_threshold"),
      (GetOk d "down_confirmations_threshold"); reflexivity.
Qed.

(** C10: for every resource string the resource validator accepts and any
    resource data that hold it, the protocol in the payload that
    [constructCheckPayload] returns (with or without an error) is the
    upper-cased text before the first colon, and it is HTTP, HTTPS or TCP:
    TCP for a string that starts with [tcp://], HTTP or HTTPS for every
    other accepted string.  So the two branches of the builder cover every
    validated resource: the branch for HTTP and HTTPS is taken for those
    that do not start with [tcp://], and the other branch only with the
    protocol TCP; and the builder returns no error exactly when [method]
    and [up_codes] are both set in the first case and both unset in the
    second. *)
Theorem accepted_resource_has_known_protocol (d : ResourceData) (v k : string) :
  accepts resource_ValidateFunc (VString v) k = true ->
  fields d !! "resource" = Some (VString v) ->
  Check_Protocol (fst (constructCheckPayload d)) = derived_protocol v
  /\ (if strings_HasPrefix v "tcp://"
      then derived_protocol v = protocolTCP
      else derived_protocol v = protocolHTTP \/ derived_protocol v = protocolHTTPS)
  /\ (if is_HTTP_or_HTTPS (fst (constructCheckPayload d))
      then strings_HasPrefix v "tcp://" = false
      else Check_Protocol (fst (constructCheckPayload d)) = protocolTCP)
  /\ (snd (constructCheckPayload d) = None
      <-> if strings_HasPrefix v "tcp://"
          then is_set d "method" = false /\ is_set d "up_codes" = false
          else is_set d "method" = true /\ is_set d "up_codes" = true).
Proof.
  intros Hacc Hres.
  assert (Hne : v <> EmptyString) by (intros ->; vm_compute in Hacc; discriminate).
  assert (Hconf : configured_protocol d = derived_protocol v).
  { unfold configured_protocol, configured_string.
    by rewrite (GetOk_string d "resource" v Hres Hne). }
  assert (Hproto : Check_Protocol (fst (constructCheckPayload d)) = derived_protocol v)
    by (by rewrite constructCheckPayload_Protocol).
  assert (Hknown : if strings_HasPrefix v "tcp://"
                   then derived_protocol v = protocolTCP
                   else derived_protocol v = protocolHTTP
                        \/ derived_protocol v = protocolHTTPS).
  { destruct (strings_HasPrefix v "tcp://") eqn:Htcp.
    - apply HasPrefix_inv in Htcp as [rest ->]. apply tcp_resource_protocol.
    - revert Hacc. unfold accepts at 1, resource_ValidateFunc. rewrite Htcp.
      destruct (strings_HasPrefix v "http") eqn:Hhttp.
      + apply url_resource_protocol.
      + discriminate. }
  split; [exact Hproto |]. split; [exact Hknown |]. split.
  - unfold is_HTTP_or_HTTPS. rewrite Hproto.
    destruct (strings_HasPrefix v "tcp://").
    + rewrite Hknown. reflexivity.
    + destruct Hknown as [-> | ->]; reflexivity.
  - rewrite constructCheckPayload_error, Hconf.
    assert (Hhttp : is_http_protocol (derived_protocol v)
                    = negb (strings_HasPrefix v "tcp://")).
    { destruct (strings_HasPrefix v "tcp://"); [by rewrite Hknown |].
      destruct Hknown as [-> | ->]; reflexivity. }
    rewrite Hhttp.
    destruct (strings_HasPrefix v "tcp://"), (is_set d "method"), (is_set d "up_codes");
      cbn [negb]; split; (intros [? ?] || intros ?);
      (discriminate || (try split; reflexivity)).
Qed.

Lemma accepted_resource_has_known_protocol_witness :
  accepts resource_ValidateFunc (VString "https://example.com") "resource" = true
  /\ fields https_check !! "resource" = Some (VString "https://example.com")
  /\ Check_Protocol (fst (constructCheckPayload https_check)) = protocolHTTPS
  /\ is_HTTP_or_HTTPS (fst (constructCheckPayload https_check)) = true.
Proof.
  assert (H : accepts resource_ValidateFunc (VString "https://example.com")
                "resource" = true) by (vm_compute; reflexivity).
  assert (Hr : fields https_check !! "resource" = Some (VString "https://example.com"))
    by (vm_compute; reflexivity).
  split; [exact H |]. split; [exact Hr |].
  destruct (accepted_resource_has_known_protocol https_check "https://example.com"
              "resource" H Hr) as (Hp & _ & Hb & _).
  split; [rewrite Hp; reflexivity |].
  destruct (is_HTTP_or_HTTPS (fst (constructCheckPayload https_check)));
    [reflexivity |].
  rewrite Hp in Hb. vm_compute in Hb. discriminate.
Defined.

(** *** When the payload can be built *)

(** X3: for resource data whose resource is an ASCII string, validated or
    not, [constructCheckPayload] returns no error exactly when, for the
    protocol HTTP or HTTPS, [method] and [up_codes] are both set, and for
    any other protocol (an unset resource and an unknown scheme among them)
    neither is set. *)
Theorem constructCheckPayload_succeeds_iff (d : ResourceData) :
  is_ascii (configured_string d "resource") = true ->
  snd (constructCheckPayload d) = None
  <-> if is_http_protocol (configured_protocol d)
      then is_set d "method" = true /\ is_set d "up_codes" = true
      else is_set d "method" = false /\ is_set d "up_codes" = false.
Proof.
  intros _. rewrite constructCheckPayload_error.
  destruct (is_http_protocol (configured_protocol d)),
    (is_set d "method"), (is_set d "up_codes"); cbn [negb];
    split; (intros [? ?] || intros ?); (discriminate || (try split; reflexivity)).
Qed.

Lemma constructCheckPayload_succeeds_iff_witness :
  is_ascii (configured_string https_check "resource") = true
  /\ is_ascii (configured_string tcp_check_with_method "resource") = true
  /\ snd (constructCheckPayload https_check) = None
  /\ snd (constructCheckPayload tcp_check_with_method) <> None.
Proof.
  assert (Hh : is_ascii (configured_string https_check "resource") = true)
    by (vm_compute; reflexivity).
  assert (Ht : is_ascii (configured_string tcp_check_with_method "resource") = true)
    by (vm_compute; reflexivity).
  split; [exact Hh |]. split; [exact Ht |]. split.
  - apply (proj2 (constructCheckPayload_succeeds_iff https_check Hh)).
    vm_compute. split; reflexivity.
  - intros Hnone.
    apply (proj1 (constructCheckPayload_succeeds_iff tcp_check_with_method Ht)) in Hnone.
    vm_compute in Hnone. destruct Hnone as [Hm _]. discriminate.
Defined.

Ltac lookup_fields :=
  repeat first
    [ rewrite lookup_insert_eq
    | rewrite lookup_insert_ne by (first [discriminate | assumption | congruence]) ];
  try reflexivity.

Lemma check_fields_lookup (c : Check) (m : gmap string value) :
  check_fields c m !! "name" = Some (VString (Check_Name c))
  /\ check_fields c m !! "resource" = Some (VString (Check_Resource c))
  /\ check_fields c m !! "method" = Some (VString (Check_Method c))
  /\ check_fields c m !! "interval" = Some (VInt (Check_Interval c))
  /\ check_fields c m !! "target" = Some (VFloat (Check_Target c))
  /\ check_fields c m !! "regions" = Some (VSet (list_to_set (Check_Regions c)))
  /\ check_fields c m !! "up_codes" = Some (VString (Check_UpCodes c))
  /\ check_fields c m !! "up_confirmations_threshold"
     = Some (VInt (Check_UpConfirmationsThreshold c))
  /\ check_fields c m !! "down_confirmations_threshold"
     = Some (VInt (Check_DownConfirmationsThreshold c)).
Proof. unfold check_fields. repeat split; lookup_fields. Qed.

Lemma check_fields_other (c : Check) (m : gmap string value) (key : string) :
  key ∉ check_keys -> check_fields c m !! key = m !! key.
Proof.
  unfold check_keys, check_fields. intros Hk.
  repeat (apply not_elem_of_cons in Hk as [? Hk]).
  lookup_fields.
Qed.

Lemma channel_fields_lookup (c : Channel) (m : gmap string value) :
  channel_fields c m !! "type" = Some (VString (Channel_Type c))
  /\ channel_fields c m !! "handle" = Some (VString (Channel_Handle c))
  /\ channel_fields c m !! "alias" = Some (VString (Channel_Alias c))
  /\ channel_fields c m !! "checks" = Some (VSet (list_to_set (Channel_Checks c))).
Proof. unfold channel_fields. repeat split; lookup_fields. Qed.

Lemma channel_fields_other (c : Channel) (m : gmap string value) (key : string) :
  key ∉ channel_keys -> channel_fields c m !! key = m !! key.
Proof.
  unfold channel_keys, channel_fields. intros Hk.
  repeat (apply not_elem_of_cons in Hk as [? Hk]).
  lookup_fields.
Qed.

Lemma configured_string_lookup (d : ResourceData) (key s : string) :
  fields d !! key = Some (VString s) -> configured_string d key = s.
Proof.
  intros H. unfold configured_string, GetOk. rewrite H. cbn [is_zero].
  destruct (String.eqb s EmptyString) eqn:E; [| reflexivity].
  apply String.eqb_eq in E. by subst.
Qed.

Lemma is_set_lookup_string (d : ResourceData) (key s : string) :
  fields d !! key = Some (VString s) ->
  is_set d key = negb (String.eqb s EmptyString).
Proof.
  intros H. unfold is_set, GetOk. rewrite H. cbn [is_zero].
  by destruct (String.eqb s EmptyString).
Qed.

Lemma configured_int_lookup (d : ResourceData) (key : string) (n : Z) :
  fields d !! key = Some (VInt n) -> configured_int d key = n.
Proof.
  intros H. unfold configured_int, GetOk. rewrite H. cbn [is_zero].
  destruct (n =? 0) eqn:E; [| reflexivity]. cbn. lia.
Qed.

Lemma configured_float_lookup (d : ResourceData) (key : string) (f : float) :
  fields d !! key = Some (VFloat f) ->
  configured_float d key = (if PrimFloat.eqb f 0 then 0%float else f).
Proof.
  intros H. unfold configured_float, GetOk. rewrite H. cbn [is_zero].
  by destruct (PrimFloat.eqb f 0).
Qed.

Lemma configured_list_fields (d : ResourceData) (key : string) :
  configured_list d key = Set_List (as_set (fields d !! key)).
Proof.
  unfold configured_list, GetOk, Set_List.
  destruct (fields d !! key) as [v |]; [| cbn [as_set]; by rewrite elements_empty].
  destruct v as [s | n | f | s | l]; cbn [is_zero as_set].
  - destruct (String.eqb s EmptyString); by rewrite ?elements_empty.
  - destruct (n =? 0); by rewrite ?elements_empty.
  - destruct (PrimFloat.eqb f 0); by rewrite ?elements_empty.
  - destruct (bool_decide (s = ∅)) eqn:E; [| reflexivity].
    apply bool_decide_eq_true in E. subst. by rewrite elements_empty.
  - destruct l; [vm_compute |]; reflexivity.
Qed.

Lemma field_errors_scalar (key : string) (sch : Schema) (config : gmap string value) :
  Type_ sch <> TypeSet ->
  field_errors key sch config = [] ->
  match config !! key with
  | None => Required sch = false
  | Some v =>
      has_type (Type_ sch) v = true
      /\ forall f : SchemaValidateFunc, ValidateFunc sch = Some f -> f v key = []
  end.
Proof.
  intros Ht. unfold field_errors.
  destruct (config !! key) as [v |].
  - destruct (has_type (Type_ sch) v) eqn:Hty; [| discriminate]. cbn [negb].
    destruct v as [s | n | x | e | l];
      try (destruct (Type_ sch); discriminate || congruence);
      intros H; (split; [reflexivity |]); intros f Hf; by rewrite Hf in H.
  - destruct (Required sch); [discriminate | reflexivity].
Qed.

Lemma elems_errors_nil (f : SchemaValidateFunc) (key : string) (i : Z)
  (elems : list string) :
  elems_errors f key i elems = [] ->
  forall e : string, In e elems -> exists k : string, f (VString e) k = [].
Proof.
  revert i. induction elems as [| e rest IH]; intros i H x Hin; [destruct Hin |].
  cbn [elems_errors] in H. apply app_eq_nil in H as [He Hrest].
  destruct Hin as [<- | Hin]; [eauto | eapply IH; eauto].
Qed.

Lemma field_errors_set (key : string) (sch : Schema) (config : gmap string value)
  (f : SchemaValidateFunc) :
  Type_ sch = TypeSet -> Required sch = true -> Elem sch = Some f ->
  field_errors key sch config = [] ->
  exists elems : gset string,
    config !! key = Some (VSet elems)
    /\ MinItems sch <= Z.of_nat (size elems)
    /\ forall e : string, e ∈ elems -> exists k : string, f (VString e) k = [].
Proof.
  intros Ht Hreq He. unfold field_errors. rewrite Ht, Hreq, He.
  destruct (config !! key) as [v |]; [| discriminate].
  destruct v as [s | n | x | elems | l]; try discriminate. cbn [has_type negb].
  intros H. apply app_eq_nil in H as [Hmin Hel].
  exists elems. split; [reflexivity |]. split.
  - destruct (Z.of_nat (size elems) <? MinItems sch) eqn:E; [discriminate | lia].
  - intros e Hin. apply (elems_errors_nil f key 0 (Set_List elems) Hel).
    apply list_elem_of_In. unfold Set_List. by apply elem_of_elements.
Qed.

Lemma IntBetween_nil (min max v : Z) (k : string) :
  validation_IntBetween min max (VInt v) k = [] -> min <= v <= max.
Proof.
  unfold validation_IntBetween.
  destruct (v <? min) eqn:E1, (v >? max) eqn:E2; cbn [orb]; try discriminate.
  lia.
Qed.

Lemma validated_string_field (m : gmap string value) (key : string)
  (f : SchemaValidateFunc) (P : Prop) :
  match m !! key with
  | Some v =>
      has_type TypeString v = true
      /\ forall g : SchemaValidateFunc, Some f = Some g -> g v key = []
  | None => P
  end ->
  (m !! key = None /\ P)
  \/ exists s : string, m !! key = Some (VString s) /\ f (VString s) key = [].
Proof.
  destruct (m !! key) as [v |]; [| by left].
  intros [Hty Hf]. destruct v as [s | n | x | e | l]; try discriminate.
  right. exists s. split; [reflexivity | by apply Hf].
Qed.

Lemma validated_int_field (m : gmap string value) (key : string)
  (f : SchemaValidateFunc) (P : Prop) :
  match m !! key with
  | Some v =>
      has_type TypeInt v = true
      /\ forall g : SchemaValidateFunc, Some f = Some g -> g v key = []
  | None => P
  end ->
  (m !! key = None /\ P)
  \/ exists n : Z, m !! key = Some (VInt n) /\ f (VInt n) key = [].
Proof.
  destruct (m !! key) as [v |]; [| by left].
  intros [Hty Hf]. destruct v as [s | n | x | e | l]; try discriminate.
  right. exists n. split; [reflexivity | by apply Hf].
Qed.

Lemma configured_string_unset (d : ResourceData) (key : string) :
  is_set d key = false -> configured_string d key = EmptyString.
Proof. unfold is_set, configured_string. by destruct (GetOk d key). Qed.

Lemma configured_int_in_range (d : ResourceData) (key : string) (min max : Z) (P : Prop) :
  match fields d !! key with
  | Some v =>
      has_type TypeInt v = true
      /\ forall g : SchemaValidateFunc,
           Some (validation_IntBetween min max) = Some g -> g v key = []
  | None => P
  end ->
  configured_int d key = 0 \/ min <= configured_int d key <= max.
Proof.
  intros H. apply validated_int_field in H as [[Hnone _] | (n & Hn & Hf)].
  - left. unfold configured_int. by rewrite (GetOk_None d key Hnone).
  - right. rewrite (configured_int_lookup d key n Hn). by apply IntBetween_nil in Hf.
Qed.

(** X4: the payload built from a validated check carries an accepted
    resource; for HTTP(S) a supported method and accepted [up_codes], and
    otherwise the protocol TCP with neither; at least one region, no region
    twice, supported regions only; a name of at most 25 bytes; and an
    interval and thresholds within their ranges (zero when not set). *)
Theorem payload_of_validated_check_is_well_formed (d : ResourceData) (payload : Check) :
  check_validated d ->
  constructCheckPayload d = (payload, None) ->
  accepts resource_ValidateFunc (VString (Check_Resource payload)) "resource" = true
  /\ (if is_http_protocol (Check_Protocol payload)
      then In (Check_Method payload) supportedHTTPMethods
           /\ accepts up_codes_ValidateFunc (VString (Check_UpCodes payload)) "up_codes"
              = true
      else Check_Protocol payload = protocolTCP
           /\ Check_Method payload = EmptyString
           /\ Check_UpCodes payload = EmptyString)
  /\ Check_Regions payload <> []
  /\ NoDup (Check_Regions payload)
  /\ (forall r : string, In r (Check_Regions payload) -> In r supportedRegions)
  /\ len (Check_Name payload) <= 25
  /\ (Check_Interval payload = 0 \/ 5 <= Check_Interval payload <= 900)
  /\ (Check_UpConfirmationsThreshold payload = 0
      \/ 1 <= Check_UpConfirmationsThreshold payload <= 10)
  /\ (Check_DownConfirmationsThreshold payload = 0
      \/ 1 <= Check_DownConfirmationsThreshold payload <= 10).
Proof.
  intros Hv Hp.
  pose proof (constructCheckPayload_error d) as Herr. rewrite Hp in Herr. cbn [snd] in Herr.
  destruct (constructCheckPayload_fields d payload Hp)
    as (_ & Hname & Hres & Hproto & Hmeth & Hint & _ & Hreg & Hup & Hupt & Hdownt).
  unfold check_validated, schemaMap_Validate, checkResource_Schema in Hv.
  cbn [flat_map] in Hv.
  repeat match type of Hv with
    | _ ++ _ = [] => apply app_eq_nil in Hv as [? Hv]
    end.
  repeat match goal with
    | H : field_errors ?k _ _ = [] |- _ =>
        first [ apply field_errors_scalar in H; [| discriminate]
              | eapply field_errors_set in H; [| reflexivity | reflexivity | reflexivity] ]
    end.
  cbn [ValidateFunc Required Type_ MinItems] in *.
  split; [| split; [| split; [| split; [| split; [| split; [| split; [| split]]]]]]].
  - apply validated_string_field in H0 as [[_ ?] | (r & Hr & Hf)]; [discriminate |].
    rewrite Hres, (configured_string_lookup d _ r Hr). unfold accepts. by rewrite Hf.
  - apply validated_string_field in H0 as [[_ ?] | (r & Hr & Hf)]; [discriminate |].
    assert (Hacc : accepts resource_ValidateFunc (VString r) "resource" = true)
      by (unfold accepts; by rewrite Hf).
    apply accepted_resource_protocol in Hacc.
    rewrite Hproto. unfold configured_protocol in *.
    rewrite (configured_string_lookup d _ r Hr) in *.
    destruct (is_http_protocol (derived_protocol r)) eqn:Ehttp.
    + destruct (is_set d "method") eqn:Em; [| discriminate].
      destruct (is_set d "up_codes") eqn:Eu; [| discriminate].
      split.
      * apply validated_string_field in H1 as [[Hn _] | (m & Hm & Hf1)];
          [unfold is_set in Em; by rewrite (GetOk_None d _ Hn) in Em |].
        rewrite Hmeth, (configured_string_lookup d _ m Hm).
        unfold validation_StringInSlice in Hf1.
        destruct (existsb (String.eqb m) supportedHTTPMethods) eqn:Ex; [| discriminate].
        apply existsb_exists in Ex as (x & Hin & Heq).
        apply String.eqb_eq in Heq. by subst.
      * apply validated_string_field in H5 as [[Hn _] | (u & Hu & Hf5)];
          [unfold is_set in Eu; by rewrite (GetOk_None d _ Hn) in Eu |].
        rewrite Hup, (configured_string_lookup d _ u Hu). unfold accepts. by rewrite Hf5.
    + destruct (is_set d "method") eqn:Em; [discriminate |].
      destruct (is_set d "up_codes") eqn:Eu; [discriminate |].
      rewrite Hmeth, Hup, !configured_string_unset by assumption.
      split; [| by split].
      destruct Hacc as [Hp' | [Hp' | Hp']]; [| | exact Hp'];
        rewrite Hp' in Ehttp; discriminate.
  - destruct H4 as (elems & Hg & Hsize & _).
    rewrite Hreg, configured_list_fields, Hg. cbn [as_set]. unfold Set_List.
    intros Hnil. apply elements_empty_inv, size_empty_iff in Hnil. lia.
  - rewrite Hreg, configured_list_fields. apply NoDup_elements.
  - destruct H4 as (elems & Hg & _ & Hel).
    rewrite Hreg, configured_list_fields, Hg. cbn [as_set]. unfold Set_List.
    intros r Hin. apply list_elem_of_In, elem_of_elements, Hel in Hin as [k Hk].
    unfold regions_Elem_ValidateFunc in Hk.
    destruct (stringInSlice r supportedRegions) eqn:E; [| discriminate].
    by apply stringInSlice_In.
  - rewrite Hname.
    apply validated_string_field in H as [[Hn _] | (n & Hn & Hf)].
    + unfold configured_string. by rewrite (GetOk_None d _ Hn).
    + rewrite (configured_string_lookup d _ n Hn).
      unfold validation_StringLenBetween in Hf.
      destruct (len n <? 0) eqn:E1, (len n >? 25) eqn:E2; cbn [orb] in Hf;
        try discriminate. lia.
  - rewrite Hint. by apply (configured_int_in_range d "interval" 5 900 _ H2).
  - rewrite Hupt. by apply (configured_int_in_range d _ 1 10 _ H6).
  - rewrite Hdownt. by apply (configured_int_in_range d _ 1 10 _ H7).
Qed.

(** ** The operations in front of any service *)

Section BridgeReads.
Context {World : Type} (client : Client World).

Lemma checkRead_Ok (st : St World) (c : Check) (w : World) :
  Checks_Read client (Id (data st)) (world st) = (Ok c, w) ->
  checkRead client st
  = (None,
     after st (with_fields (check_fields c (fields (data st))) (data st)) w
       [CallChecksRead (Id (data st))]).
Proof.
  intros Hread.
  unfold checkRead, mbind, M_bind, d_Id, on_data, remote. cbn [data world calls].
  rewrite Hread. reflexivity.
Qed.

Lemma checkRead_Err (st : St World) (msg : string) (w : World) :
  Checks_Read client (Id (data st)) (world st) = (Err msg, w) ->
  checkRead client st
  = (Some ("unable to read Binocs check: " +:+ msg),
     after st (data st) w [CallChecksRead (Id (data st))]).
Proof.
  intros Hread.
  unfold checkRead, mbind, M_bind, d_Id, on_data, remote. cbn [data world calls].
  rewrite Hread. reflexivity.
Qed.

Lemma channelRead_Ok (st : St World) (c : Channel) (w : World) :
  Channels_Read client (Id (data st)) (world st) = (Ok c, w) ->
  channelRead client st
  = (None,
     after st (with_fields (channel_fields c (fields (data st))) (data st)) w
       [CallChannelsRead (Id (data st))]).
Proof.
  intros Hread.
  unfold channelRead, mbind, M_bind, d_Id, on_data, remote. cbn [data world calls].
  rewrite Hread. reflexivity.
Qed.

Lemma channelRead_Err (st : St World) (msg : string) (w : World) :
  Channels_Read client (Id (data st)) (world st) = (Err msg, w) ->
  channelRead client st
  = (Some ("unable to read Binocs channel: " +:+ msg),
     after st (data st) w [CallChannelsRead (Id (data st))]).
Proof.
  intros Hread.
  unfold channelRead, mbind, M_bind, d_Id, on_data, remote. cbn [data world calls].
  rewrite Hread. reflexivity.
Qed.

(** X5: when the service returns the check, [checkRead] returns no error
    after that one call, leaves the identifier and the prior state alone,
    has written the nine values of the remote check (the regions as a
    set), and has touched no other key. *)
Theorem checkRead_stores_the_remote_check (st : St World) (c : Check) (w : World) :
  Checks_Read client (Id (data st)) (world st) = (Ok c, w) ->
  fst (checkRead client st) = None
  /\ world (snd (checkRead client st)) = w
  /\ calls (snd (checkRead client st)) = calls st ++ [CallChecksRead (Id (data st))]
  /\ Id (data (snd (checkRead client st))) = Id (data st)
  /\ prior (data (snd (checkRead client st))) = prior (data st)
  /\ fields (data (snd (checkRead client st))) !! "name" = Some (VString (Check_Name c))
  /\ fields (data (snd (checkRead client st))) !! "resource"
     = Some (VString (Check_Resource c))
  /\ fields (data (snd (checkRead client st))) !! "method"
     = Some (VString (Check_Method c))
  /\ fields (data (snd (checkRead client st))) !! "interval"
     = Some (VInt (Check_Interval c))
  /\ fields (data (snd (checkRead client st))) !! "target"
     = Some (VFloat (Check_Target c))
  /\ (exists regions : gset string,
        fields (data (snd (checkRead client st))) !! "regions" = Some (VSet regions)
        /\ forall r : string, r ∈ regions <-> r ∈ Check_Regions c)
  /\ fields (data (snd (checkRead client st))) !! "up_codes"
     = Some (VString (Check_UpCodes c))
  /\ fields (data (snd (checkRead client st))) !! "up_confirmations_threshold"
     = Some (VInt (Check_UpConfirmationsThreshold c))
  /\ fields (data (snd (checkRead client st))) !! "down_confirmations_threshold"
     = Some (VInt (Check_DownConfirmationsThreshold c))
  /\ (forall key : string,
        key ∉ check_keys ->
        fields (data (snd (checkRead client st))) !! key = fields (data st) !! key).
Proof.
  intros Hread. rewrite (checkRead_Ok st c w Hread).
  cbn [fst snd after data world calls with_fields Id fields prior].
  destruct (check_fields_lookup c (fields (data st)))
    as (Hn & Hr & Hm & Hi & Ht & Hg & Hu & Hup & Hdown).
  repeat (split; [first [reflexivity | assumption] |]).
  split.
  { eexists. split; [exact Hg |]. intros r. apply elem_of_list_to_set. }
  repeat (split; [first [reflexivity | assumption] |]).
  intros key Hk. by apply check_fields_other.
Qed.

(** X6: the payload built from the data after a successful read of a
    remote check whose resource is an ASCII string.  It can be built
    exactly when the remote check has a method and [up_codes] with HTTP(S)
    and neither otherwise, and then it carries the values of the remote
    check: no identifier, the protocol derived anew from the resource, a
    zero target as positive zero, and the regions of the remote check, each
    once. *)
Theorem payload_after_read_is_the_remote_check (st : St World) (c : Check) (w : World) :
  Checks_Read client (Id (data st)) (world st) = (Ok c, w) ->
  is_ascii (Check_Resource c) = true ->
  (snd (constructCheckPayload (data (snd (checkRead client st)))) = None
   <-> if is_http_protocol (derived_protocol (Check_Resource c))
       then Check_Method c <> EmptyString /\ Check_UpCodes c <> EmptyString
       else Check_Method c = EmptyString /\ Check_UpCodes c = EmptyString)
  /\ forall payload : Check,
       constructCheckPayload (data (snd (checkRead client st))) = (payload, None) ->
       Check_Ident payload = EmptyString
       /\ Check_Name payload = Check_Name c
       /\ Check_Resource payload = Check_Resource c
       /\ Check_Protocol payload = derived_protocol (Check_Resource c)
       /\ Check_Method payload = Check_Method c
       /\ Check_Interval payload = Check_Interval c
       /\ Check_Target payload
          = (if PrimFloat.eqb (Check_Target c) 0 then 0%float else Check_Target c)
       /\ NoDup (Check_Regions payload)
       /\ (forall r : string, r ∈ Check_Regions payload <-> r ∈ Check_Regions c)
       /\ Check_UpCodes payload = Check_UpCodes c
       /\ Check_UpConfirmationsThreshold payload = Check_UpConfirmationsThreshold c
       /\ Check_DownConfirmationsThreshold payload = Check_DownConfirmationsThreshold c.
Proof.
  intros Hread _. rewrite (checkRead_Ok st c w Hread).
  cbn [snd after data].
  set (d := with_fields (check_fields c (fields (data st))) (data st)).
  destruct (check_fields_lookup c (fields (data st)))
    as (Hn & Hr & Hm & Hi & Ht & Hg & Hu & Hup & Hdown).
  split.
  - rewrite constructCheckPayload_error. unfold configured_protocol.
    rewrite (configured_string_lookup d _ _ Hr),
      (is_set_lookup_string d _ _ Hm), (is_set_lookup_string d _ _ Hu).
    destruct (is_http_protocol (derived_protocol (Check_Resource c)));
      destruct (String.eqb_spec (Check_Method c) EmptyString),
        (String.eqb_spec (Check_UpCodes c) EmptyString); cbn; intuition congruence.
  - intros payload Hp.
    destruct (constructCheckPayload_fields d payload Hp)
      as (H0 & H1 & H2 & H3 & H4 & H5 & H6 & H7 & H8 & H9 & H10).
    unfold configured_protocol in H3.
    rewrite (configured_string_lookup d _ _ Hn) in H1.
    rewrite (configured_string_lookup d _ _ Hr) in H2, H3.
    rewrite (configured_string_lookup d _ _ Hm) in H4.
    rewrite (configured_int_lookup d _ _ Hi) in H5.
    rewrite (configured_float_lookup d _ _ Ht) in H6.
    rewrite configured_list_fields in H7.
    change (fields d) with (check_fields c (fields (data st))) in H7.
    rewrite Hg in H7. cbn [as_set] in H7.
    rewrite (configured_string_lookup d _ _ Hu) in H8.
    rewrite (configured_int_lookup d _ _ Hup) in H9.
    rewrite (configured_int_lookup d _ _ Hdown) in H10.
    repeat (split; [assumption |]).
    rewrite H7. unfold Set_List.
    split; [apply NoDup_elements |].
    split; [| by repeat split].
    intros r. by rewrite elem_of_elements, elem_of_list_to_set.
Qed.

End BridgeReads.

Section BridgeOperations.
Context {World : Type} (client : Client World).

Lemma St_eta (st : St World) :
  {| data := data st; world := world st; calls := calls st |} = st.
Proof. by destruct st. Qed.

(** X7: when the payload of a check cannot be built, create and update
    return the error of the builder as it is, call nothing and change
    nothing. *)
Theorem invalid_check_payload_reaches_no_service (st : St World) (err : error) :
  snd (constructCheckPayload (data st)) = Some err ->
  checkCreate client st = (Some err, st) /\ checkUpdate client st = (Some err, st).
Proof.
  intros Herr.
  unfold checkCreate, checkUpdate, mbind, M_bind, on_data.
  destruct (constructCheckPayload (data st)) as [payload e].
  cbn [snd] in Herr. subst e. cbn [mret M_ret]. rewrite St_eta. by split.
Qed.

(** X8: the update and delete operations of both resources leave the
    resource data (the identifier too, also after a successful delete) as
    they were, whatever the service answers. *)
Theorem update_and_delete_keep_the_resource_data (st : St World) :
  data (snd (checkUpdate client st)) = data st
  /\ data (snd (checkDelete client st)) = data st
  /\ data (snd (channelUpdate client st)) = data st
  /\ data (snd (channelDelete client st)) = data st.
Proof.
  split; [| split; [| split]].
  - unfold checkUpdate, mbind, M_bind, d_Id, on_data, remote.
    destruct (constructCheckPayload (data st)) as [payload [e |]];
      cbn [data world calls mret M_ret snd]; [reflexivity |].
    by destruct (Checks_Update client (Id (data st)) payload (world st)) as [[e |] w].
  - unfold checkDelete, mbind, M_bind, d_Id, on_data, remote.
    cbn [data world calls].
    by destruct (Checks_Delete client (Id (data st)) (world st)) as [[e |] w].
  - unfold channelUpdate, mbind, M_bind, d_Id, on_data, remote.
    cbn [data world calls].
    pose proof (constructChannelPayload_no_error (data st)) as Hp.
    destruct (constructChannelPayload (data st)) as [payload err].
    cbn [snd] in Hp. subst err. cbn [data world calls].
    destruct (Channels_Update client (Id (data st)) payload (world st)) as [[e |] w];
      [reflexivity |].
    cbn [data world calls].
    destruct (HasChange (data st) "checks"); [| reflexivity].
    cbn [data world calls].
    destruct (GetChange (data st) "checks") as [o n].
    match goal with
    | |- context [(if ?b then detach_loop World client ?l else mret None) ?s] =>
        assert (Hd : data (snd ((if b then detach_loop World client l else mret None) s))
                     = data st);
        [ destruct b; [exact (proj1 (detach_loop_calls client l s)) | reflexivity] |];
        destruct ((if b then detach_loop World client l else mret None) s) as [[e |] st1]
    end; cbn [snd] in Hd; [exact Hd |].
    match goal with
    | |- context [(if ?b then attach_loop World client ?l else mret None) ?s] =>
        destruct b; [| exact Hd];
        rewrite (proj1 (attach_loop_calls client l s)); exact Hd
    end.
  - unfold channelDelete, mbind, M_bind, d_Id, on_data, remote.
    cbn [data world calls].
    by destruct (Channels_Delete client (Id (data st)) (world st)) as [[e |] w].
Qed.

(** X9: the existence checks report a check or channel as present, with
    no error, exactly when the service returned it; the data then hold the
    values read and the identifier is kept. *)
Theorem exists_reports_present_iff_the_read_succeeds (st : St World) :
  match Checks_Read client (Id (data st)) (world st) with
  | (Ok c, w) =>
      checkExists client st
      = ((true, None),
         after st (with_fields (check_fields c (fields (data st))) (data st)) w
           [CallChecksRead (Id (data st))])
  | (Err _, _) => fst (fst (checkExists client st)) = false
  end
  /\ match Channels_Read client (Id (data st)) (world st) with
     | (Ok c, w) =>
         channelExists client st
         = ((true, None),
            after st (with_fields (channel_fields c (fields (data st))) (data st)) w
              [CallChannelsRead (Id (data st))])
     | (Err _, _) => fst (fst (channelExists client st)) = false
     end.
Proof.
  split.
  - destruct (Checks_Read client (Id (data st)) (world st)) as [[c | msg] w] eqn:Hread.
    + unfold checkExists, mbind, M_bind. by rewrite (checkRead_Ok client st c w Hread).
    + unfold checkExists, mbind, M_bind. rewrite (checkRead_Err client st msg w Hread).
      by destruct (strings_Contains _ "404").
  - destruct (Channels_Read client (Id (data st)) (world st)) as [[c | msg] w] eqn:Hread.
    + unfold channelExists, mbind, M_bind.
      by rewrite (channelRead_Ok client st c w Hread).
    + unfold channelExists, mbind, M_bind.
      rewrite (channelRead_Err client st msg w Hread).
      by destruct (strings_Contains _ "404").
Qed.

(** X10: after the service has created a check, [checkCreate] stores the
    identifier it returned and reads the check back under it.  The data
    end up with the values the service returned on the read; when the read
    fails, its error is returned and the identifier stays stored. *)
Theorem checkCreate_reads_the_check_back (st : St World) (payload check : Check)
  (w : World) :
  constructCheckPayload (data st) = (payload, None) ->
  Checks_Create client payload (world st) = (Ok check, w) ->
  match Checks_Read client (Check_Ident check) w with
  | (Ok c, w') =>
      checkCreate client st
      = (None,
         after st
           (with_fields (check_fields c (fields (data st)))
              (SetId (Check_Ident check) (data st)))
           w' [CallChecksCreate payload; CallChecksRead (Check_Ident check)])
  | (Err msg, w') =>
      checkCreate client st
      = (Some ("unable to read Binocs check: " +:+ msg),
         after st (SetId (Check_Ident check) (data st)) w'
           [CallChecksCreate payload; CallChecksRead (Check_Ident check)])
  end.
Proof.
  intros Hp Hc.
  unfold checkCreate, mbind, M_bind, on_data, remote, d_SetId.
  cbn [data world calls]. rewrite Hp. cbn [data world calls]. rewrite Hc.
  unfold on_data. cbn [data world calls].
  destruct (Checks_Read client (Check_Ident check) w) as [[c | msg] w'] eqn:Hread.
  - erewrite checkRead_Ok by exact Hread.
    unfold after. cbn [data world calls Id SetId]. by rewrite <- app_assoc.
  - erewrite checkRead_Err by exact Hread.
    unfold after. cbn [data world calls Id SetId]. by rewrite <- app_assoc.
Qed.

End BridgeOperations.

(** A prefix of the list of a set names members of the set, each once. *)
Lemma prefix_of_Set_List (l : list string) (s : gset string) :
  l `prefix_of` Set_List s ->
  NoDup l /\ forall k : string, k ∈ l -> k ∈ s.
Proof.
  intros [rest Hl]. pose proof (NoDup_elements s) as Hnd.
  unfold Set_List in Hl. split.
  - rewrite Hl in Hnd. by apply NoDup_app in Hnd as [? _].
  - intros k Hk. apply elem_of_elements. rewrite Hl. apply elem_of_app. by left.
Qed.

Section BridgeChannels.
Context {World : Type} (client : Client World).




(** The calls of [channelUpdate], in the order of the model's
    [Set_List]. *)
Lemma channelUpdate_calls_in_order (st : St World) :
  exists detached attached : list string,
    calls (snd (channelUpdate client st))
    = calls st
      ++ CallChannelsUpdate (Id (data st)) (fst (constructChannelPayload (data st)))
         :: map (CallChannelsDetach (Id (data st))) detached
         ++ map (CallChannelsAttach (Id (data st))) attached
    /\ detached `prefix_of`
         Set_List (as_set (prior (data st) !! "checks")
                   ∖ as_set (fields (data st) !! "checks"))
    /\ attached `prefix_of`
         Set_List (as_set (fields (data st) !! "checks")
                   ∖ as_set (prior (data st) !! "checks"))
    /\ (attached <> [] ->
        detached = Set_List (as_set (prior (data st) !! "checks")
                             ∖ as_set (fields (data st) !! "checks")))
    /\ (as_set (prior (data st) !! "checks") = as_set (fields (data st) !! "checks") ->
        detached = [] /\ attached = []).
Proof.
  set (os := as_set (prior (data st) !! "checks")).
  set (ns := as_set (fields (data st) !! "checks")).
  unfold channelUpdate, mbind, M_bind, d_Id, on_data, remote.
  cbn [data world calls].
  pose proof (constructChannelPayload_no_error (data st)) as Hp.
  destruct (constructChannelPayload (data st)) as [payload err].
  cbn [snd] in Hp. subst err. cbn [fst data world calls].
  destruct (Channels_Update client (Id (data st)) payload (world st)) as [[e |] w].
  { exists [], []. cbn [mret M_ret fst snd calls map app].
    repeat split; try apply prefix_nil; done. }
  cbn [data world calls].
  unfold HasChange, GetChange. fold os ns.
  destruct (bool_decide (os = ns)) eqn:Heq; cbn [negb data world calls].
  { exists [], []. cbn [mret M_ret fst snd calls map app].
    repeat split; try apply prefix_nil; done. }
  apply bool_decide_eq_false in Heq.
  fold os ns.
  set (detach := Set_List (os ∖ ns)). set (attach := Set_List (ns ∖ os)).
  assert (Hd0 : forall s : St World,
             (if (0 <? length detach)%nat
              then detach_loop World client detach else mret None) s
             = detach_loop World client detach s)
    by (intros s; destruct detach; reflexivity).
  assert (Ha0 : forall s : St World,
             (if (0 <? length attach)%nat
              then attach_loop World client attach else mret None) s
             = attach_loop World client attach s)
    by (intros s; destruct attach; reflexivity).
  rewrite Hd0.
  match goal with
  | |- context [detach_loop World client detach ?s] =>
      destruct (detach_loop_calls client detach s)
        as (Hd & detached & Hpre & Hcalls & Hall);
      destruct (detach_loop World client detach s) as [[e |] st1]
  end; cbn [fst snd data calls] in Hd, Hcalls, Hall.
  { exists detached, []. cbn [mret M_ret fst snd map]. rewrite app_nil_r.
    split; [rewrite Hcalls, <- app_assoc; reflexivity |].
    repeat split; try apply prefix_nil; try assumption; done. }
  rewrite Ha0.
  destruct (attach_loop_calls client attach st1)
    as (Hd' & attached & Hpre' & Hcalls' & Hall').
  exists detached, attached. rewrite Hd in Hcalls'.
  split; [rewrite Hcalls', Hcalls, <- !app_assoc; reflexivity |].
  repeat split; auto; done.
Qed.


(** X12: the calls of a channel update come in one order: the update with
    the payload built from the data, then detach calls, then attach calls.
    The detach calls go to removed checks and the attach calls to added
    checks, each at most once; an attach call is issued only after every
    removed check has been detached; and with unchanged checks the update
    call is the only one. *)
Theorem channelUpdate_detaches_before_it_attaches (st : St World) :
  exists detached attached : list string,
    calls (snd (channelUpdate client st))
    = calls st
      ++ CallChannelsUpdate (Id (data st)) (fst (constructChannelPayload (data st)))
         :: map (CallChannelsDetach (Id (data st))) detached
         ++ map (CallChannelsAttach (Id (data st))) attached
    /\ NoDup detached
    /\ (forall check : string,
          check ∈ detached ->
          check ∈ as_set (prior (data st) !! "checks")
                  ∖ as_set (fields (data st) !! "checks"))
    /\ NoDup attached
    /\ (forall check : string,
          check ∈ attached ->
          check ∈ as_set (fields (data st) !! "checks")
                  ∖ as_set (prior (data st) !! "checks"))
    /\ (attached <> [] ->
        forall check : string,
          check ∈ as_set (prior (data st) !! "checks")
                  ∖ as_set (fields (data st) !! "checks") ->
          check ∈ detached)
    /\ (as_set (prior (data st) !! "checks") = as_set (fields (data st) !! "checks") ->
        detached = [] /\ attached = []).
Proof.
  destruct (channelUpdate_calls_in_order st)
    as (detached & attached & Hcalls & Hpd & Hpa & Hall & Hsame).
  exists detached, attached.
  apply prefix_of_Set_List in Hpd as [Hnd Hind].
  apply prefix_of_Set_List in Hpa as [Hna Hina].
  repeat (split; [assumption |]).
  split; [| exact Hsame].
  intros Hne check Hin. rewrite (Hall Hne). by apply elem_of_elements.
Qed.

(** X13: when the service returns the channel, [channelRead] returns no
    error after that one call, leaves the identifier and the prior state
    alone, has written type, handle, alias and the checks (as a set) and
    no other key; the payload built from the data afterwards carries the
    type, handle and alias of the remote channel, and never an identifier
    or checks. *)
Theorem channelRead_stores_the_remote_channel (st : St World) (c : Channel) (w : World) :
  Channels_Read client (Id (data st)) (world st) = (Ok c, w) ->
  fst (channelRead client st) = None
  /\ world (snd (channelRead client st)) = w
  /\ calls (snd (channelRead client st)) = calls st ++ [CallChannelsRead (Id (data st))]
  /\ Id (data (snd (channelRead client st))) = Id (data st)
  /\ prior (data (snd (channelRead client st))) = prior (data st)
  /\ fields (data (snd (channelRead client st))) !! "type"
     = Some (VString (Channel_Type c))
  /\ fields (data (snd (channelRead client st))) !! "handle"
     = Some (VString (Channel_Handle c))
  /\ fields (data (snd (channelRead client st))) !! "alias"
     = Some (VString (Channel_Alias c))
  /\ (forall check : string,
        check ∈ as_set (fields (data (snd (channelRead client st))) !! "checks")
        <-> check ∈ Channel_Checks c)
  /\ (forall key : string,
        key ∉ channel_keys ->
        fields (data (snd (channelRead client st))) !! key = fields (data st) !! key)
  /\ constructChannelPayload (data (snd (channelRead client st)))
     = ({| Channel_Ident := EmptyString; Channel_Type := Channel_Type c;
           Channel_Handle := Channel_Handle c; Channel_Alias := Channel_Alias c;
           Channel_Checks := [] |}, None).
Proof.
  intros Hread. rewrite (channelRead_Ok client st c w Hread).
  cbn [fst snd after data world calls with_fields Id fields prior].
  destruct (channel_fields_lookup c (fields (data st))) as (Ht & Hh & Ha & Hc).
  repeat (split; [first [reflexivity | assumption] |]).
  split; [| split].
  - intros check. rewrite Hc. cbn [as_set]. apply elem_of_list_to_set.
  - intros key Hk. by apply channel_fields_other.
  - unfold constructChannelPayload, GetOk. cbn [fields with_fields].
    rewrite Ht, Hh, Ha. cbn [is_zero].
    destruct (String.eqb_spec (Channel_Type c) EmptyString) as [-> | _],
      (String.eqb_spec (Channel_Handle c) EmptyString) as [-> | _],
      (String.eqb_spec (Channel_Alias c) EmptyString) as [-> | _]; reflexivity.
Qed.

End BridgeChannels.

(** *** The operations in front of the in-memory service *)

Lemma payload_of_validated_check_is_well_formed_witness :
  check_validated https_check
  /\ constructCheckPayload https_check = (https_payload, None)
  /\ In (Check_Method https_payload) supportedHTTPMethods
  /\ Check_Regions https_payload <> []
  /\ 5 <= Check_Interval https_payload <= 900.
Proof.
  assert (Hv : check_validated https_check) by (vm_compute; reflexivity).
  assert (Hp : constructCheckPayload https_check = (https_payload, None))
    by (vm_compute; reflexivity).
  split; [exact Hv |]. split; [exact Hp |].
  destruct (payload_of_validated_check_is_well_formed https_check https_payload Hv Hp)
    as (_ & Hhttp & Hreg & _ & _ & _ & Hint & _).
  assert (Eh : is_http_protocol (Check_Protocol https_payload) = true)
    by (vm_compute; reflexivity).
  rewrite Eh in Hhttp. destruct Hhttp as [Hm _].
  split; [exact Hm |]. split; [exact Hreg |].
  destruct Hint as [H0 | Hint]; [vm_compute in H0; discriminate | exact Hint].
Defined.

Lemma invalid_check_payload_reaches_no_service_witness :
  snd (constructCheckPayload (data (create_tcp_check_with_method empty_memory)))
  = Some (dquote +:+ "method" +:+ dquote +:+ " cannot be used with a TCP resource")
  /\ checkCreate memory_client (create_tcp_check_with_method empty_memory)
     = (Some (dquote +:+ "method" +:+ dquote +:+ " cannot be used with a TCP resource"),
        create_tcp_check_with_method empty_memory)
  /\ checkUpdate memory_client (create_tcp_check_with_method empty_memory)
     = (Some (dquote +:+ "method" +:+ dquote +:+ " cannot be used with a TCP resource"),
        create_tcp_check_with_method empty_memory).
Proof.
  assert (Herr : snd (constructCheckPayload
                        (data (create_tcp_check_with_method empty_memory)))
                 = Some (dquote +:+ "method" +:+ dquote
                         +:+ " cannot be used with a TCP resource"))
    by (vm_compute; reflexivity).
  split; [exact Herr |].
  exact (invalid_check_payload_reaches_no_service memory_client
           (create_tcp_check_with_method empty_memory) _ Herr).
Defined.

Lemma checkRead_stores_the_remote_check_witness :
  Checks_Read memory_client (Id (data created_https_check)) (world created_https_check)
  = (Ok stored_https_check, world created_https_check)
  /\ fst (checkRead memory_client created_https_check) = None
  /\ fields (data (snd (checkRead memory_client created_https_check))) !! "name"
     = Some (VString "My website")
  /\ fields (data (snd (checkRead memory_client created_https_check))) !! "interval"
     = Some (VInt 60).
Proof.
  assert (Hread : Checks_Read memory_client (Id (data created_https_check))
                    (world created_https_check)
                  = (Ok stored_https_check, world created_https_check))
    by (vm_compute; reflexivity).
  split; [exact Hread |].
  destruct (checkRead_stores_the_remote_check memory_client created_https_check
              stored_https_check (world created_https_check) Hread)
    as (Hnone & _ & _ & _ & _ & Hname & _ & _ & Hint & _).
  split; [exact Hnone |]. split; [exact Hname | exact Hint].
Defined.

Lemma payload_after_read_is_the_remote_check_witness :
  Checks_Read memory_client (Id (data created_https_check)) (world created_https_check)
  = (Ok stored_https_check, world created_https_check)
  /\ is_ascii (Check_Resource stored_https_check) = true
  /\ snd (constructCheckPayload
            (data (snd (checkRead memory_client created_https_check)))) = None.
Proof.
  assert (Hread : Checks_Read memory_client (Id (data created_https_check))
                    (world created_https_check)
                  = (Ok stored_https_check, world created_https_check))
    by (vm_compute; reflexivity).
  assert (Hascii : is_ascii (Check_Resource stored_https_check) = true)
    by (vm_compute; reflexivity).
  split; [exact Hread |]. split; [exact Hascii |].
  apply (proj1 (payload_after_read_is_the_remote_check memory_client
                  created_https_check stored_https_check
                  (world created_https_check) Hread Hascii)).
  vm_compute. split; discriminate.
Defined.

Lemma checkCreate_reads_the_check_back_witness :
  constructCheckPayload (data (create_https_check empty_memory)) = (https_payload, None)
  /\ Checks_Create memory_client https_payload (world (create_https_check empty_memory))
     = (Ok stored_https_check, put_check "check-0" stored_https_check empty_memory)
  /\ checkCreate memory_client (create_https_check empty_memory)
     = (None,
        after (create_https_check empty_memory)
          (with_fields (check_fields stored_https_check (fields https_check))
             (SetId "check-0" https_check))
          (put_check "check-0" stored_https_check empty_memory)
          [CallChecksCreate https_payload; CallChecksRead "check-0"]).
Proof.
  assert (Hp : constructCheckPayload (data (create_https_check empty_memory))
               = (https_payload, None)) by (vm_compute; reflexivity).
  assert (Hc : Checks_Create memory_client https_payload
                 (world (create_https_check empty_memory))
               = (Ok stored_https_check,
                  put_check "check-0" stored_https_check empty_memory))
    by (vm_compute; reflexivity).
  split; [exact Hp |]. split; [exact Hc |].
  exact (checkCreate_reads_the_check_back memory_client
           (create_https_check empty_memory) https_payload stored_https_check
           (put_check "check-0" stored_https_check empty_memory) Hp Hc).
Defined.

Lemma channelRead_stores_the_remote_channel_witness :
  Channels_Read memory_client (Id (data created_channel_AB)) (world created_channel_AB)
  = (Ok stored_channel_AB, world created_channel_AB)
  /\ fst (channelRead memory_client created_channel_AB) = None
  /\ fields (data (snd (channelRead memory_client created_channel_AB))) !! "handle"
     = Some (VString "ops@example.com").
Proof.
  assert (Hread : Channels_Read memory_client (Id (data created_channel_AB))
                    (world created_channel_AB)
                  = (Ok stored_channel_AB, world created_channel_AB))
    by (vm_compute; reflexivity).
  split; [exact Hread |].
  destruct (channelRead_stores_the_remote_channel memory_client created_channel_AB
              stored_channel_AB (world created_channel_AB) Hread)
    as (Hnone & _ & _ & _ & _ & _ & Hhandle & _).
  split; [exact Hnone | exact Hhandle].
Defined.

